(** * GeNN CUDA backend: block-size optimiser and device selection

    A shallow embedding of [src/backends/cuda/src/optimiser.cc].  The C++
    integer types are carried by [Z] with their wrap-around written out.
    The CUDA driver and runtime, the code generator and the NVCC subprocess
    are a record of outcomes; what the calls of the optimiser change (the
    contexts, the loaded modules, the runs of the generator and of the
    compiler) is a world that is threaded through the code and is kept when
    an exception is thrown. *)

From Stdlib Require Import ZArith List Bool Lia String.
Import ListNotations.
Local Open Scope Z_scope.

(* ================================================================== *)
(** * Machine integers *)
(* ================================================================== *)

(** [size_t] is an unsigned 64-bit integer. *)
Definition to_size_t (z : Z) : Z := z mod 2 ^ 64.

(** [unsigned int] is an unsigned 32-bit integer. *)
Definition to_uint (z : Z) : Z := z mod 2 ^ 32.

(** [int] is a signed 32-bit integer; a conversion of a value that does not
    fit keeps the low 32 bits (two's complement). *)
Definition to_int (z : Z) : Z := (z + 2 ^ 31) mod 2 ^ 32 - 2 ^ 31.

(** [std::min] on [size_t]. *)
Definition size_t_min (a b : Z) : Z := if b <? a then b else a.

(** [std::accumulate(first, last, 0, op)]: the initial value [0] is an
    [int] literal, so the accumulator has type [int].  Every [op] used in the
    optimiser takes its accumulator as [size_t] and returns [size_t]; the
    result of each step is converted back to [int]. *)
Definition accumulate_int {A : Type} (op : Z -> A -> Z) (l : list A) : Z :=
  fold_left (fun (acc : Z) (x : A) => to_int (op (to_size_t acc) x)) l 0.

(* ================================================================== *)
(** * Helpers of [utils.h] *)
(* ================================================================== *)

(** Modelled from the spec: [Utils::ceilDivide] is declared in [utils.h],
    which is not among the sources; the spec calls it the ceiling division of
    a size by a block size. *)
Definition ceilDivide (numerator denominator : Z) : Z :=
  (numerator + denominator - 1) / denominator.

(** Modelled from the spec: [Utils::padSize] is declared in [utils.h], which
    is not among the sources; the spec calls it rounding up to the allocation
    granularity. *)
Definition padSize (size blockSize : Z) : Z :=
  ceilDivide size blockSize * blockSize.

(* ================================================================== *)
(** * Devices and the architecture table *)
(* ================================================================== *)

(** The fields of [cudaDeviceProp] that the optimiser reads. *)
Record cudaDeviceProp := mkDeviceProp {
  major : Z;                         (* int *)
  minor : Z;                         (* int *)
  multiProcessorCount : Z;           (* int *)
  maxThreadsPerBlock : Z;            (* int *)
  maxThreadsPerMultiProcessor : Z;   (* int *)
  regsPerBlock : Z;                  (* int *)
  sharedMemPerMultiprocessor : Z;    (* size_t *)
  totalGlobalMem : Z                 (* size_t *)
}.

(** The four output parameters of [getDeviceArchitectureProperties]. *)
Record ArchProps := mkArchProps {
  warpAllocGran : Z;
  regAllocGran : Z;
  smemAllocGran : Z;
  maxBlocksPerSM : Z
}.

(** Lines written with [LOGW]. *)
Inductive Warning :=
| UnsupportedMajorVersion (maj : Z)
| ThisIsABug
| FallingBackToLatest.

Definition getDeviceArchitectureProperties (deviceProps : cudaDeviceProp)
  : ArchProps * list Warning :=
  if major deviceProps =? 1 then
    ({| smemAllocGran := 512;
        warpAllocGran := 2;
        regAllocGran := if minor deviceProps <? 2 then 256 else 512;
        maxBlocksPerSM := 8 |}, [])
  else if major deviceProps =? 2 then
    ({| smemAllocGran := 128;
        warpAllocGran := 2;
        regAllocGran := 64;
        maxBlocksPerSM := 8 |}, [])
  else if major deviceProps =? 3 then
    ({| smemAllocGran := 256;
        warpAllocGran := 4;
        regAllocGran := 256;
        maxBlocksPerSM := 16 |}, [])
  else if major deviceProps =? 5 then
    ({| smemAllocGran := 256;
        warpAllocGran := 4;
        regAllocGran := 256;
        maxBlocksPerSM := 32 |}, [])
  else if major deviceProps =? 6 then
    ({| smemAllocGran := 256;
        warpAllocGran := if minor deviceProps =? 0 then 2 else 4;
        regAllocGran := 256;
        maxBlocksPerSM := 32 |}, [])
  else
    ({| smemAllocGran := 256;
        warpAllocGran := 4;
        regAllocGran := 256;
        maxBlocksPerSM := 32 |},
     if major deviceProps >? 7
     then [UnsupportedMajorVersion (major deviceProps); ThisIsABug; FallingBackToLatest]
     else []).

(** The constants of the final [else] branch. *)
Definition fallbackArchProps : ArchProps :=
  {| smemAllocGran := 256; warpAllocGran := 4; regAllocGran := 256; maxBlocksPerSM := 32 |}.

(* ================================================================== *)
(** * Kernels *)
(* ================================================================== *)

(** [Backend::Kernel]; [KernelMax] is the number of constructors. *)
Inductive Kernel :=
| KernelNeuronUpdate
| KernelPresynapticUpdate
| KernelPostsynapticUpdate
| KernelSynapseDynamicsUpdate
| KernelInitialize
| KernelInitializeSparse
| KernelPreNeuronReset
| KernelPreSynapseReset.

Definition Kernel_eqb (a b : Kernel) : bool :=
  match a, b with
  | KernelNeuronUpdate, KernelNeuronUpdate
  | KernelPresynapticUpdate, KernelPresynapticUpdate
  | KernelPostsynapticUpdate, KernelPostsynapticUpdate
  | KernelSynapseDynamicsUpdate, KernelSynapseDynamicsUpdate
  | KernelInitialize, KernelInitialize
  | KernelInitializeSparse, KernelInitializeSparse
  | KernelPreNeuronReset, KernelPreNeuronReset
  | KernelPreSynapseReset, KernelPreSynapseReset => true
  | _, _ => false
  end.

(** The kernels in the order of the enumeration, as the loops
    [for k = 0; k < KernelMax; k++] and the ordered map visit them. *)
Definition allKernels : list Kernel :=
  [KernelNeuronUpdate; KernelPresynapticUpdate; KernelPostsynapticUpdate;
   KernelSynapseDynamicsUpdate; KernelInitialize; KernelInitializeSparse;
   KernelPreNeuronReset; KernelPreSynapseReset].

(** An array indexed by kernel. *)
Definition KernelArray (A : Type) : Type := Kernel -> A.

Definition fill {A : Type} (v : A) : KernelArray A := fun _ => v.

Definition set {A : Type} (a : KernelArray A) (k : Kernel) (v : A) : KernelArray A :=
  fun k' => if Kernel_eqb k k' then v else a k'.

(** [Backend::KernelBlockSize], a [std::array<size_t, KernelMax>]. *)
Definition KernelBlockSize : Type := KernelArray Z.

(* ================================================================== *)
(** * The model and its group sizes *)
(* ================================================================== *)

Record NeuronGroup := mkNeuronGroup {
  getNumNeurons : Z;                 (* unsigned int *)
  isSimRNGRequired : bool;
  isInitCodeRequired : bool
}.

Record SynapseGroup := mkSynapseGroup {
  getLearnPostCode : string;         (* getWUModel()->getLearnPostCode() *)
  getMatrixType : Z;                 (* SynapseMatrixType, a bit field *)
  isWUVarInitRequired : bool;
  getSrcNeuronGroup : NeuronGroup;
  getTrgNeuronGroup : NeuronGroup;
  isPreSynapseResetRequired : bool
}.

Record NNmodel := mkModel {
  getLocalNeuronGroups : list NeuronGroup;
  getLocalSynapseGroups : list SynapseGroup
}.

(** Modelled from the spec: [NNmodel::getNumPreSynapseResetRequiredGroups] is
    declared in [modelSpec.h], which is not among the sources; the spec calls
    it the count of synapse projections requiring a pre-update reset. *)
Definition getNumPreSynapseResetRequiredGroups (model : NNmodel) : Z :=
  Z.of_nat (List.length (filter isPreSynapseResetRequired (getLocalSynapseGroups model))).

(** [std::string::empty]. *)
Definition empty (s : string) : bool :=
  match s with EmptyString => true | String _ _ => false end.

(** [std::vector<unsigned int> groupSizes[KernelMax]]. *)
Definition GroupSizes : Type := KernelArray (list Z).

(** [groupSizes[k].push_back(v)]: the element type is [unsigned int]. *)
Definition push_back (groupSizes : GroupSizes) (k : Kernel) (v : Z) : GroupSizes :=
  set groupSizes k (groupSizes k ++ [to_uint v]).

Section CalcGroupSizes.

(** The sizing functions of the backend and the two matrix-type flags are
    declared in headers that are not among the sources. *)
Variable getNumPresynapticUpdateThreads : SynapseGroup -> Z.
Variable getNumPostsynapticUpdateThreads : SynapseGroup -> Z.
Variable getNumSynapseDynamicsThreads : SynapseGroup -> Z.
Variable INDIVIDUAL : Z.
Variable SPARSE : Z.

(** Body of the loop over the neuron groups (lines 86-94). *)
Definition calcNeuronGroup (groupSizes : GroupSizes) (n : NeuronGroup) : GroupSizes :=
  let groupSizes := push_back groupSizes KernelNeuronUpdate (getNumNeurons n) in
  if isSimRNGRequired n || isInitCodeRequired n
  then push_back groupSizes KernelInitialize (getNumNeurons n)
  else groupSizes.

(** Body of the loop over the synapse groups (lines 97-119). *)
Definition calcSynapseGroup (groupSizes : GroupSizes) (s : SynapseGroup) : GroupSizes :=
  let groupSizes :=
    push_back groupSizes KernelPresynapticUpdate (getNumPresynapticUpdateThreads s) in
  let groupSizes :=
    if negb (empty (getLearnPostCode s))
    then push_back groupSizes KernelPostsynapticUpdate (getNumPostsynapticUpdateThreads s)
    else groupSizes in
  let groupSizes :=
    if negb (empty (getLearnPostCode s))
    then push_back groupSizes KernelSynapseDynamicsUpdate (getNumSynapseDynamicsThreads s)
    else groupSizes in
  if negb (Z.land (getMatrixType s) INDIVIDUAL =? 0) && isWUVarInitRequired s then
    let numSrcNeurons := getNumNeurons (getSrcNeuronGroup s) in
    let numTrgNeurons := getNumNeurons (getTrgNeuronGroup s) in
    if negb (Z.land (getMatrixType s) SPARSE =? 0)
    then push_back groupSizes KernelInitializeSparse numSrcNeurons
    else push_back groupSizes KernelInitialize (to_uint (numSrcNeurons * numTrgNeurons))
  else groupSizes.

Definition calcGroupSizes (model : NNmodel) (groupSizes : GroupSizes) : GroupSizes :=
  let groupSizes := fold_left calcNeuronGroup (getLocalNeuronGroups model) groupSizes in
  let groupSizes := fold_left calcSynapseGroup (getLocalSynapseGroups model) groupSizes in
  let groupSizes :=
    push_back groupSizes KernelPreNeuronReset
              (Z.of_nat (List.length (getLocalNeuronGroups model))) in
  push_back groupSizes KernelPreSynapseReset (getNumPreSynapseResetRequiredGroups model).

End CalcGroupSizes.

(* ================================================================== *)
(** * The occupancy search of [optimizeBlockSize] (lines 220-315) *)
(* ================================================================== *)

(** The fields of [cudaFuncAttributes] that the optimiser reads. *)
Record cudaFuncAttributes := mkFuncAttr {
  numRegs : Z;                       (* int *)
  sharedSizeBytes : Z                (* size_t *)
}.

(** [std::map<unsigned int, std::pair<bool, size_t>>]: a kernel is a key of
    the map when its entry is [Some]. *)
Definition KernelOptimisationOutput : Type := KernelArray (option (bool * Z)).

Definition warpSize : Z := 32.

(** [const size_t repBlockSizes[2] = {warpSize, warpSize * 2}]. *)
Definition repBlockSizes (r : nat) : Z :=
  match r with
  | O => warpSize
  | _ => to_size_t (warpSize * 2)
  end.

(** Coefficients of [requiredSharedMemBytes = (A * blockThreads) + B]
    (lines 230-231), on [size_t]. *)
Definition reqSharedMemBytesA (reqSharedMemBytes0 reqSharedMemBytes1 : Z) : Z :=
  to_size_t (reqSharedMemBytes1 - reqSharedMemBytes0)
  / to_size_t (repBlockSizes 1 - repBlockSizes 0).

Definition reqSharedMemBytesB (reqSharedMemBytes0 reqSharedMemBytes1 : Z) : Z :=
  to_size_t (reqSharedMemBytes0
             - to_size_t (reqSharedMemBytesA reqSharedMemBytes0 reqSharedMemBytes1
                          * repBlockSizes 0)).

(** [deviceProps.maxThreadsPerBlock / warpSize] (line 234). *)
Definition maxBlockWarps (deviceProps : cudaDeviceProp) : Z :=
  to_size_t (maxThreadsPerBlock deviceProps) / warpSize.

(** Line 240: the affine estimate, padded to the allocation granularity. *)
Definition estimateSharedMem (A B smemGran blockThreads : Z) : Z :=
  to_size_t (padSize (to_size_t (to_size_t (A * blockThreads) + B)) smemGran).

(** Lines 244-248: the accumulator starts from the [int] literal [0]. *)
Definition calcReqBlocks (sizes : list Z) (blockThreads : Z) : Z :=
  to_size_t (accumulate_int
               (fun acc size => to_size_t (acc + ceilDivide size blockThreads))
               sizes).

(** Lines 252-281: the limit from the thread count, [maxBlocksPerSM] and,
    when registers are allocated per block, the registers.  The division of
    line 268 has no guard: a zero divisor gives [None]. *)
Definition smBlockLimitNoSharedMem (deviceProps : cudaDeviceProp) (arch : ArchProps)
           (reqNumRegs blockWarps : Z) : option Z :=
  let blockThreads := to_size_t (blockWarps * warpSize) in
  let smBlockLimit := to_size_t (maxThreadsPerMultiProcessor deviceProps) / blockThreads in
  let smBlockLimit := size_t_min smBlockLimit (maxBlocksPerSM arch) in
  if major deviceProps =? 1 then
    let paddedNumBlockWarps := to_size_t (padSize blockWarps (warpAllocGran arch)) in
    let paddedNumRegPerBlock :=
      to_size_t (padSize (to_size_t (to_size_t (paddedNumBlockWarps * reqNumRegs) * warpSize))
                         (regAllocGran arch)) in
    if paddedNumRegPerBlock =? 0 then None
    else Some (size_t_min smBlockLimit
                          (to_size_t (regsPerBlock deviceProps) / paddedNumRegPerBlock))
  else
    Some smBlockLimit.

(** Lines 285-288: the shared memory of a multiprocessor bounds the limit
    when the kernel needs any. *)
Definition applySharedMemLimit (deviceProps : cudaDeviceProp)
           (reqSharedMemBytes smBlockLimit : Z) : Z :=
  if negb (reqSharedMemBytes =? 0)
  then size_t_min smBlockLimit (sharedMemPerMultiprocessor deviceProps / reqSharedMemBytes)
  else smBlockLimit.

Definition smBlockLimit (deviceProps : cudaDeviceProp) (arch : ArchProps)
           (reqNumRegs reqSharedMemBytes blockWarps : Z) : option Z :=
  match smBlockLimitNoSharedMem deviceProps arch reqNumRegs blockWarps with
  | None => None
  | Some l => Some (applySharedMemLimit deviceProps reqSharedMemBytes l)
  end.

(** Line 291. *)
Definition occupancy (deviceProps : cudaDeviceProp) (blockWarps smBlockLimit : Z) : Z :=
  to_size_t (to_size_t (blockWarps * smBlockLimit)
             * to_size_t (multiProcessorCount deviceProps)).

(** The right-hand side of the comparison of line 294. *)
Definition concurrentBlocks (deviceProps : cudaDeviceProp) (smBlockLimit : Z) : Z :=
  to_size_t (smBlockLimit * to_size_t (multiProcessorCount deviceProps)).

(** What the search keeps for one kernel: [blockSize[k]], the pair
    [k.second] and the candidates written to the debug log (line 237). *)
Record Search := mkSearch {
  chosenBlockSize : Z;
  record : bool * Z;
  examined : list Z
}.

Section SearchKernel.

Variable deviceProps : cudaDeviceProp.
Variable arch : ArchProps.
Variable sizes : list Z.           (* groupSizes[k.first] *)
Variable reqNumRegs : Z.
Variable A B : Z.                  (* reqSharedMemBytesA, reqSharedMemBytesB *)

(** The per-multiprocessor block limit of a candidate. *)
Definition candidateLimit (blockWarps : Z) : option Z :=
  let blockThreads := to_size_t (blockWarps * warpSize) in
  smBlockLimit deviceProps arch reqNumRegs
               (estimateSharedMem A B (smemAllocGran arch) blockThreads) blockWarps.

(** The body of the loop over the candidates (lines 236-311); [inl] is the
    [break] of line 302. *)
Definition searchBody (blockWarps : Z) (st : Search) : option (Search + Search) :=
  let blockThreads := to_size_t (blockWarps * warpSize) in
  let log := examined st ++ [blockThreads] in
  let reqBlocks := calcReqBlocks sizes blockThreads in
  match candidateLimit blockWarps with
  | None => None
  | Some limit =>
      let newOccupancy := occupancy deviceProps blockWarps limit in
      if reqBlocks <=? concurrentBlocks deviceProps limit then
        Some (inl {| chosenBlockSize := blockThreads;
                     record := (true, newOccupancy);
                     examined := log |})
      else if newOccupancy >? snd (record st) then
        Some (inr {| chosenBlockSize := blockThreads;
                     record := (fst (record st), newOccupancy);
                     examined := log |})
      else
        Some (inr {| chosenBlockSize := chosenBlockSize st;
                     record := record st;
                     examined := log |})
  end.

(** The loop [for(blockWarps = 1; blockWarps < maxBlockWarps; blockWarps++)]
    from [blockWarps] on, with [n] iterations left. *)
Fixpoint searchLoop (n : nat) (blockWarps : Z) (st : Search) : option Search :=
  match n with
  | O => Some st
  | S n' =>
      match searchBody blockWarps st with
      | None => None
      | Some (inl st') => Some st'
      | Some (inr st') => searchLoop n' (to_size_t (blockWarps + 1)) st'
      end
  end.

(** The whole loop, entered with the current [blockSize[k]] and the
    current entry [k.second] of the map. *)
Definition searchKernel (blockSize0 : Z) (entry : bool * Z) : option Search :=
  searchLoop (Z.to_nat (maxBlockWarps deviceProps - 1)) 1
             {| chosenBlockSize := blockSize0; record := entry; examined := [] |}.

End SearchKernel.

(** The body of the loop over [kernelsToOptimise] (lines 221-315) for the
    kernel [k]. *)
Definition optimiseKernel (deviceProps : cudaDeviceProp) (arch : ArchProps)
           (groupSizes : GroupSizes) (krnlAttr : nat -> KernelArray cudaFuncAttributes)
           (k : Kernel) (blockSize0 : Z) (entry : bool * Z) : option Search :=
  let reqNumRegs := to_size_t (numRegs (krnlAttr 0%nat k)) in
  let reqSharedMemBytes0 := sharedSizeBytes (krnlAttr 0%nat k) in
  let reqSharedMemBytes1 := sharedSizeBytes (krnlAttr 1%nat k) in
  searchKernel deviceProps arch (groupSizes k) reqNumRegs
               (reqSharedMemBytesA reqSharedMemBytes0 reqSharedMemBytes1)
               (reqSharedMemBytesB reqSharedMemBytes0 reqSharedMemBytes1)
               blockSize0 entry.

(** Lines 221-315 over the kernels of the map, in key order: each present
    kernel gets the outcome of its search. *)
Fixpoint optimiseKernels (deviceProps : cudaDeviceProp) (arch : ArchProps)
         (groupSizes : GroupSizes) (krnlAttr : nat -> KernelArray cudaFuncAttributes)
         (ks : list Kernel)
         (kernelsToOptimise : KernelOptimisationOutput) (blockSize : KernelBlockSize)
  : option (KernelOptimisationOutput * KernelBlockSize) :=
  match ks with
  | [] => Some (kernelsToOptimise, blockSize)
  | k :: ks' =>
      match kernelsToOptimise k with
      | None =>
          optimiseKernels deviceProps arch groupSizes krnlAttr ks' kernelsToOptimise blockSize
      | Some entry =>
          match optimiseKernel deviceProps arch groupSizes krnlAttr k (blockSize k) entry with
          | None => None
          | Some s =>
              optimiseKernels deviceProps arch groupSizes krnlAttr ks'
                              (set kernelsToOptimise k (Some (record s)))
                              (set blockSize k (chosenBlockSize s))
          end
      end
  end.

(* ================================================================== *)
(** * The driver, the code generator and the compiler *)
(* ================================================================== *)

(** What a call of the optimiser can throw.  [Undefined] stands for the
    behaviour C++ leaves undefined (a division by zero, the dereference of
    an end iterator); it is kept apart from the exceptions. *)
Inductive Error :=
| RuntimeError (what : string)
| CudaDriverError (code : Z)
| CudaRuntimeError (code : Z)
| Undefined.

Definition NoDeviceFound : Error := RuntimeError "No CUDA devices found".
Definition BuildFailure : Error := RuntimeError "optimizeBlockSize: NVCC failed".

Inductive Result (A : Type) :=
| Ok (a : A)
| Throw (e : Error).
Arguments Ok {A} a.
Arguments Throw {A} e.

(** The state outside the optimiser that its calls change: the driver
    contexts that exist, the current one, the loaded modules, the block sizes
    the code generator was run with and the modules NVCC was run on. *)
Record World := mkWorld {
  liveContexts : list Z;
  currentContext : option Z;
  loadedModules : list string;
  generated : list (Z * list Z);
  compiled : list string
}.

Definition emptyWorld : World :=
  {| liveContexts := []; currentContext := None; loadedModules := [];
     generated := []; compiled := [] |}.

(** The outcomes of the external calls: the visible devices, the status of
    every driver and runtime call, the exit status of NVCC, the modules the
    code generator emits and the attributes of the compiled kernels.  The
    calls of one pass are told apart by the device and the repetition. *)
Record Driver := mkDriver {
  devices : list cudaDeviceProp;
  cudaGetDeviceCount_status : Z;
  cudaGetDeviceProperties_status : Z -> Z;
  cuDeviceGet : Z -> Z;
  cuCtxCreate : Z -> Z;
  cuCtxSetCurrent : Z -> nat -> Z;
  cuCtxDestroy : Z -> Z;
  generateAll : NNmodel -> KernelBlockSize -> Z -> list string;
  system_nvcc : Z -> nat -> string -> Z;
  cuModuleLoad : Z -> nat -> string -> Z;
  cuModuleGetFunction : Z -> nat -> string -> Kernel -> Z;
  cudaFuncGetAttributes : Z -> nat -> string -> Kernel -> cudaFuncAttributes;
  cuModuleUnload : Z -> nat -> string -> Z;
  (** the indeterminate initial contents of the local array [krnlAttr] *)
  uninitialised : nat -> KernelArray cudaFuncAttributes
}.

Definition CUDA_SUCCESS : Z := 0.
Definition cudaErrorInvalidDevice : Z := 101.

(** A computation that reads and changes the world and may throw; the world
    reached when it throws is kept. *)
Definition M (A : Type) : Type := World -> Result A * World.

Definition ret {A : Type} (a : A) : M A := fun w => (Ok a, w).

Definition throw {A : Type} (e : Error) : M A := fun w => (Throw e, w).

Definition bind {A B : Type} (c : M A) (k : A -> M B) : M B :=
  fun w =>
    match c w with
    | (Ok a, w') => k a w'
    | (Throw e, w') => (Throw e, w')
    end.

Notation "x <- c ;; k" := (bind c (fun x => k))
  (at level 61, c at next level, right associativity).
Notation "c ;;; k" := (bind c (fun _ => k))
  (at level 61, right associativity).

Definition modify (f : World -> World) : M unit := fun w => (Ok tt, f w).

(** Modelled from the spec: the macro [CHECK_CU_ERRORS] is defined in
    [utils.h], which is not among the sources; by the spec a failing driver
    call is fatal and propagates up. *)
Definition CHECK_CU_ERRORS (status : Z) : M unit :=
  if status =? CUDA_SUCCESS then ret tt else throw (CudaDriverError status).

(** Modelled from the spec: the macro [CHECK_CUDA_ERRORS] is defined in
    [utils.h], which is not among the sources; by the spec a failing runtime
    call is fatal and propagates up. *)
Definition CHECK_CUDA_ERRORS (status : Z) : M unit :=
  if status =? CUDA_SUCCESS then ret tt else throw (CudaRuntimeError status).

(** A loop over a list that threads a value and stops at the first throw. *)
Fixpoint foldM {A S : Type} (body : S -> A -> M S) (l : list A) (s : S) : M S :=
  match l with
  | [] => ret s
  | x :: l' => s' <- body s x ;; foldM body l' s'
  end.

(** [remove] for the handles of the world. *)
Definition removeZ (x : Z) (l : list Z) : list Z :=
  filter (fun y => negb (y =? x)) l.

Definition removeString (x : string) (l : list string) : list string :=
  filter (fun y => negb (String.eqb y x)) l.

(* ================================================================== *)
(** * [optimizeBlockSize], [chooseOptimalDevice],
      [chooseDeviceWithMostGlobalMemory] and [createBackend] *)
(* ================================================================== *)

Section Optimiser.

Variable getNumPresynapticUpdateThreads : SynapseGroup -> Z.
Variable getNumPostsynapticUpdateThreads : SynapseGroup -> Z.
Variable getNumSynapseDynamicsThreads : SynapseGroup -> Z.
Variable INDIVIDUAL : Z.
Variable SPARSE : Z.
Variable drv : Driver.

(** The runtime call [cudaGetDeviceCount]. *)
Definition cudaGetDeviceCount : M Z :=
  CHECK_CUDA_ERRORS (cudaGetDeviceCount_status drv) ;;;
  ret (Z.of_nat (List.length (devices drv))).

(** The runtime call [cudaGetDeviceProperties]; an ordinal that names no
    visible device is an invalid device. *)
Definition cudaGetDeviceProperties (deviceID : Z) : M cudaDeviceProp :=
  if deviceID <? 0 then throw (CudaRuntimeError cudaErrorInvalidDevice)
  else
    match nth_error (devices drv) (Z.to_nat deviceID) with
    | None => throw (CudaRuntimeError cudaErrorInvalidDevice)
    | Some deviceProps =>
        CHECK_CUDA_ERRORS (cudaGetDeviceProperties_status drv deviceID) ;;;
        ret deviceProps
    end.

(** What the profiling loop keeps: [krnlAttr] and [kernelsToOptimise]. *)
Definition Profile : Type :=
  ((nat -> KernelArray cudaFuncAttributes) * KernelOptimisationOutput)%type.

(** [krnlAttr[r][k] = attr]. *)
Definition setAttr (krnlAttr : nat -> KernelArray cudaFuncAttributes)
           (r : nat) (k : Kernel) (attr : cudaFuncAttributes)
  : nat -> KernelArray cudaFuncAttributes :=
  fun r' => if Nat.eqb r r' then set (krnlAttr r') k attr else krnlAttr r'.

(** [kernelsToOptimise.emplace(k, (false, 0))]: an existing entry stays. *)
Definition emplace (kernelsToOptimise : KernelOptimisationOutput) (k : Kernel)
  : KernelOptimisationOutput :=
  match kernelsToOptimise k with
  | Some _ => kernelsToOptimise
  | None => set kernelsToOptimise k (Some (false, 0))
  end.

(** Lines 180-196: the kernels of one loaded module. *)
Definition queryKernels (deviceID : Z) (r : nat) (m : string) (p : Profile) : Profile :=
  fold_left
    (fun (p : Profile) (k : Kernel) =>
       if cuModuleGetFunction drv deviceID r m k =? CUDA_SUCCESS
       then (setAttr (fst p) r k (cudaFuncGetAttributes drv deviceID r m k),
             emplace (snd p) k)
       else p)
    allKernels p.

(** Lines 166-200: one generated module. *)
Definition profileModule (deviceID : Z) (r : nat) (p : Profile) (m : string) : M Profile :=
  modify (fun w => {| liveContexts := liveContexts w;
                      currentContext := currentContext w;
                      loadedModules := loadedModules w;
                      generated := generated w;
                      compiled := compiled w ++ [m] |}) ;;;
  (if negb (system_nvcc drv deviceID r m =? 0)
   then throw BuildFailure else ret tt) ;;;
  CHECK_CU_ERRORS (cuModuleLoad drv deviceID r m) ;;;
  modify (fun w => {| liveContexts := liveContexts w;
                      currentContext := currentContext w;
                      loadedModules := m :: loadedModules w;
                      generated := generated w;
                      compiled := compiled w |}) ;;;
  let p' := queryKernels deviceID r m p in
  CHECK_CU_ERRORS (cuModuleUnload drv deviceID r m) ;;;
  modify (fun w => {| liveContexts := liveContexts w;
                      currentContext := currentContext w;
                      loadedModules := removeString m (loadedModules w);
                      generated := generated w;
                      compiled := compiled w |}) ;;;
  ret p'.

(** Lines 149-201: one repetition.  The code generator is run with every
    block size set to [repBlockSizes[r]]; by the note of line 162 it leaves
    no context current. *)
Definition profileRepetition (deviceID : Z) (model : NNmodel) (p : Profile) (r : nat)
  : M Profile :=
  let blockSize : KernelBlockSize := fill (repBlockSizes r) in
  let moduleNames := generateAll drv model blockSize deviceID in
  modify (fun w => {| liveContexts := liveContexts w;
                      currentContext := None;
                      loadedModules := loadedModules w;
                      generated := generated w ++ [(deviceID, map blockSize allKernels)];
                      compiled := compiled w |}) ;;;
  CHECK_CU_ERRORS (cuCtxSetCurrent drv deviceID r) ;;;
  modify (fun w => {| liveContexts := liveContexts w;
                      currentContext := Some deviceID;
                      loadedModules := loadedModules w;
                      generated := generated w;
                      compiled := compiled w |}) ;;;
  foldM (profileModule deviceID r) moduleNames p.

(** The context of a pass is named by the ordinal of its device. *)
Definition optimizeBlockSize (deviceID : Z) (model : NNmodel)
  : M (KernelOptimisationOutput * KernelBlockSize) :=
  let groupSizes :=
    calcGroupSizes getNumPresynapticUpdateThreads getNumPostsynapticUpdateThreads
                   getNumSynapseDynamicsThreads INDIVIDUAL SPARSE model (fill []) in
  CHECK_CU_ERRORS (cuDeviceGet drv deviceID) ;;;
  CHECK_CU_ERRORS (cuCtxCreate drv deviceID) ;;;
  modify (fun w => {| liveContexts := deviceID :: liveContexts w;
                      currentContext := Some deviceID;
                      loadedModules := loadedModules w;
                      generated := generated w;
                      compiled := compiled w |}) ;;;
  p <- foldM (profileRepetition deviceID model)
             [0%nat; 1%nat] (uninitialised drv, fill None) ;;
  CHECK_CU_ERRORS (cuCtxDestroy drv deviceID) ;;;
  modify (fun w => {| liveContexts := removeZ deviceID (liveContexts w);
                      currentContext := None;
                      loadedModules := loadedModules w;
                      generated := generated w;
                      compiled := compiled w |}) ;;;
  deviceProps <- cudaGetDeviceProperties deviceID ;;
  let arch := fst (getDeviceArchitectureProperties deviceProps) in
  match optimiseKernels deviceProps arch groupSizes (fst p) allKernels (snd p) (fill 0) with
  | None => throw Undefined
  | Some out => ret out
  end.

(** The entries of the map in key order. *)
Definition entries (kernels : KernelOptimisationOutput) : list (bool * Z) :=
  flat_map (fun k => match kernels k with Some e => [e] | None => [] end) allKernels.

(** Lines 349-353. *)
Definition totalOccupancy (kernels : KernelOptimisationOutput) : Z :=
  to_size_t (accumulate_int (fun acc (kernel : bool * Z) => to_size_t (acc + snd kernel))
                            (entries kernels)).

(** Lines 356-360. *)
Definition numSmallModelKernels (kernels : KernelOptimisationOutput) : Z :=
  to_size_t (accumulate_int
               (fun acc (kernel : bool * Z) =>
                  to_size_t (acc + (if fst kernel then 1 else 0)))
               (entries kernels)).

(** [std::tuple<int, size_t, size_t, Backend::KernelBlockSize>]. *)
Definition Device : Type := (Z * Z * Z * KernelBlockSize)%type.
Definition get0 (d : Device) : Z := fst (fst (fst d)).
Definition get1 (d : Device) : Z := snd (fst (fst d)).
Definition get2 (d : Device) : Z := snd (fst d).
Definition get3 (d : Device) : KernelBlockSize := snd d.

(** The comparison passed to [std::min_element] (lines 368-397): [true]
    when [a] is the better device. *)
Definition betterDevice (a b : Device) : bool :=
  if get2 a >? get2 b then true
  else if get2 a =? get2 b then
    if get1 a >? get1 b then true
    else if get1 a =? get1 b then
      if get0 a >? get0 b then true else false
    else false
  else false.

(** [std::min_element]: the scan from the element after [smallest], which
    sits at position [best]; [i] is the position of the head of [l]. *)
Fixpoint min_element_from {A : Type} (comp : A -> A -> bool)
         (best : nat) (smallest : A) (i : nat) (l : list A) : nat * A :=
  match l with
  | [] => (best, smallest)
  | x :: l' =>
      if comp x smallest
      then min_element_from comp i x (S i) l'
      else min_element_from comp best smallest (S i) l'
  end.

Definition min_element {A : Type} (comp : A -> A -> bool) (l : list A) : option (nat * A) :=
  match l with
  | [] => None
  | x :: l' => Some (min_element_from comp 0%nat x 1%nat l')
  end.

(** Lines 338-364: the pass over the device [d]. *)
Definition rankDevice (model : NNmodel) (ranked : list Device) (d : Z) : M (list Device) :=
  deviceProps <- cudaGetDeviceProperties d ;;
  let smVersion := to_int (to_int (major deviceProps * 10) + minor deviceProps) in
  out <- optimizeBlockSize d model ;;
  let kernels := fst out in
  let optimalBlockSize := snd out in
  ret (ranked ++ [(smVersion, totalOccupancy kernels, numSmallModelKernels kernels,
                   optimalBlockSize)]).

(** The ordinals [0 .. deviceCount-1]. *)
Definition ordinals (deviceCount : Z) : list Z :=
  map Z.of_nat (seq 0 (Z.to_nat deviceCount)).

Definition chooseOptimalDevice (model : NNmodel) : M (Z * KernelBlockSize) :=
  deviceCount <- cudaGetDeviceCount ;;
  (if deviceCount =? 0 then throw NoDeviceFound else ret tt) ;;;
  ranked <- foldM (rankDevice model) (ordinals deviceCount) [] ;;
  match min_element betterDevice ranked with
  | None => throw Undefined        (* [*bestDevice] at the end iterator *)
  | Some (i, bestDevice) =>
      let bestDeviceID := to_int (Z.of_nat i) in
      ret (bestDeviceID, get3 bestDevice)
  end.

(** Lines 423-433: the scan keeps [(mostGlobalMemory, bestDevice)]. *)
Definition mostMemoryStep (best : Z * Z) (d : Z) : M (Z * Z) :=
  deviceProps <- cudaGetDeviceProperties d ;;
  if totalGlobalMem deviceProps >? fst best
  then ret (totalGlobalMem deviceProps, d)
  else ret best.

Definition chooseDeviceWithMostGlobalMemory : M Z :=
  deviceCount <- cudaGetDeviceCount ;;
  (if deviceCount =? 0 then throw NoDeviceFound else ret tt) ;;;
  best <- foldM mostMemoryStep (ordinals deviceCount) (0, -1) ;;
  ret (snd best).

(** What the constructor of [Backend] is given. *)
Record Backend := mkBackend {
  backendBlockSize : KernelBlockSize;
  backendLocalHostID : Z;
  backendDeviceID : Z
}.

Definition createBackend (model : NNmodel) (localHostID : Z) (autoChooseDevice : bool)
  : M Backend :=
  if autoChooseDevice then
    chosen <- chooseOptimalDevice model ;;
    ret {| backendBlockSize := snd chosen;
           backendLocalHostID := localHostID;
           backendDeviceID := fst chosen |}
  else
    deviceID <- chooseDeviceWithMostGlobalMemory ;;
    out <- optimizeBlockSize deviceID model ;;
    ret {| backendBlockSize := snd out;
           backendLocalHostID := localHostID;
           backendDeviceID := deviceID |}.

End Optimiser.

(* ================================================================== *)
(** * Reference notions used by the statements *)
(* ================================================================== *)

(** The sum of [f] over a list, on unbounded integers. *)
Definition sumZ {A : Type} (f : A -> Z) (l : list A) : Z :=
  fold_right (fun x acc => f x + acc) 0 l.

(** The required-block count as the spec words it: the sum over the group
    sizes of the ceiling division by the block size. *)
Definition sumCeilDivide (sizes : list Z) (blockThreads : Z) : Z :=
  sumZ (fun size => ceilDivide size blockThreads) sizes.

(** Whether a synapse group has postsynaptic learning code. *)
Definition hasLearnPostCode (s : SynapseGroup) : bool :=
  negb (empty (getLearnPostCode s)).

(** Whether a neuron group adds an entry to the sequence of a kernel. *)
Definition neuronContributes (k : Kernel) (n : NeuronGroup) : bool :=
  match k with
  | KernelNeuronUpdate => true
  | KernelInitialize => isSimRNGRequired n || isInitCodeRequired n
  | _ => false
  end.

(** Whether a synapse group adds an entry to the sequence of a kernel. *)
Definition synapseContributes (INDIVIDUAL SPARSE : Z) (k : Kernel) (s : SynapseGroup) : bool :=
  let needsInit := negb (Z.land (getMatrixType s) INDIVIDUAL =? 0) && isWUVarInitRequired s in
  let sparse := negb (Z.land (getMatrixType s) SPARSE =? 0) in
  match k with
  | KernelPresynapticUpdate => true
  | KernelPostsynapticUpdate => hasLearnPostCode s
  | KernelSynapseDynamicsUpdate => hasLearnPostCode s
  | KernelInitializeSparse => needsInit && sparse
  | KernelInitialize => needsInit && negb sparse
  | _ => false
  end.

(** The entries a neuron group adds to the sequence of a kernel. *)
Definition neuronEntries (k : Kernel) (n : NeuronGroup) : list Z :=
  if neuronContributes k n then [to_uint (getNumNeurons n)] else [].

(** The entries a synapse group adds to the sequence of a kernel. *)
Definition synapseEntries (pre post dyn : SynapseGroup -> Z) (INDIVIDUAL SPARSE : Z)
           (k : Kernel) (s : SynapseGroup) : list Z :=
  if synapseContributes INDIVIDUAL SPARSE k s then
    [to_uint match k with
             | KernelPresynapticUpdate => pre s
             | KernelPostsynapticUpdate => post s
             | KernelSynapseDynamicsUpdate => dyn s
             | KernelInitializeSparse => getNumNeurons (getSrcNeuronGroup s)
             | _ => getNumNeurons (getSrcNeuronGroup s) * getNumNeurons (getTrgNeuronGroup s)
             end]
  else [].

(** The entry the end of [calcGroupSizes] adds to the sequence of a kernel. *)
Definition resetEntries (model : NNmodel) (k : Kernel) : list Z :=
  match k with
  | KernelPreNeuronReset => [to_uint (Z.of_nat (List.length (getLocalNeuronGroups model)))]
  | KernelPreSynapseReset => [to_uint (getNumPreSynapseResetRequiredGroups model)]
  | _ => []
  end.

(** The kernels whose sequences are fed by the groups of the model. *)
Definition groupKernels : list Kernel :=
  [KernelNeuronUpdate; KernelPresynapticUpdate; KernelPostsynapticUpdate;
   KernelSynapseDynamicsUpdate; KernelInitialize; KernelInitializeSparse].

(** The order of the ranking on (small-workload count, total occupancy,
    architecture version). *)
Definition lexLt (a b : Z * Z * Z) : Prop :=
  let '(a1, a2, a3) := a in
  let '(b1, b2, b3) := b in
  a1 < b1 \/ (a1 = b1 /\ (a2 < b2 \/ (a2 = b2 /\ a3 < b3))).

Definition lexLe (a b : Z * Z * Z) : Prop := lexLt a b \/ a = b.

(** The number of entries of the map that are marked small. *)
Definition countSmall (kernels : KernelOptimisationOutput) : Z :=
  sumZ (fun e : bool * Z => if fst e then 1 else 0) (entries kernels).

(** The sum of the occupancies of the entries of the map. *)
Definition sumOccupancy (kernels : KernelOptimisationOutput) : Z :=
  sumZ (fun e : bool * Z => snd e) (entries kernels).

(** Whether a value fits [int]. *)
Definition fitsInt (z : Z) : Prop := - 2 ^ 31 <= z < 2 ^ 31.

(** The candidates from [b] on, [n] of them, as the debug log shows them. *)
Definition candidateLog (b : Z) (n : nat) : list Z :=
  map (fun i => (b + Z.of_nat i) * warpSize) (seq 0 n).

(** A device whose fields are all zero, the default of a lookup. *)
Definition zeroDevice : cudaDeviceProp :=
  {| major := 0; minor := 0; multiProcessorCount := 0;
     maxThreadsPerBlock := 0; maxThreadsPerMultiProcessor := 0;
     regsPerBlock := 0; sharedMemPerMultiprocessor := 0; totalGlobalMem := 0 |}.

(** What the scan of [chooseDeviceWithMostGlobalMemory] holds after the
    devices [seen]: the largest memory among them, or 0, and the first
    device that has it, or -1 when no device seen has any memory. *)
Definition mostMemoryInv (seen : list cudaDeviceProp) (best : Z * Z) : Prop :=
  0 <= fst best
  /\ (forall j q, nth_error seen j = Some q -> totalGlobalMem q <= fst best)
  /\ ((snd best = -1 /\ fst best = 0)
      \/ exists i p,
           snd best = Z.of_nat i
           /\ nth_error seen i = Some p
           /\ totalGlobalMem p = fst best
           /\ 0 < fst best
           /\ forall j q, (j < i)%nat -> nth_error seen j = Some q ->
                          totalGlobalMem q < fst best).

(** The tuple [chooseOptimalDevice] pushes for the device [j] when the pass
    over it returns [outs j]. *)
Definition rankedDevice (visible : list cudaDeviceProp)
           (outs : nat -> KernelOptimisationOutput * KernelBlockSize) (j : nat) : Device :=
  let deviceProps := nth j visible zeroDevice in
  (to_int (to_int (major deviceProps * 10) + minor deviceProps),
   totalOccupancy (fst (outs j)),
   numSmallModelKernels (fst (outs j)),
   snd (outs j)).

(** The ranges of the fields of a device: the [int] fields are not
    negative, the shared memory fits [size_t], and the number of blocks the
    device can hold at once, at most 32 on each multiprocessor for each of
    the candidate warp counts, stays below 2^31. *)
Definition deviceInRange (deviceProps : cudaDeviceProp) : Prop :=
  0 <= maxThreadsPerBlock deviceProps < 2 ^ 31
  /\ 0 <= maxThreadsPerMultiProcessor deviceProps < 2 ^ 31
  /\ 0 <= multiProcessorCount deviceProps < 2 ^ 31
  /\ 0 <= regsPerBlock deviceProps < 2 ^ 31
  /\ 0 <= sharedMemPerMultiprocessor deviceProps < 2 ^ 64
  /\ maxBlockWarps deviceProps * 32 * multiProcessorCount deviceProps < 2 ^ 31.

(** An entry of the map, when there is one, holds an occupancy from 0 to
    [bound]. *)
Definition entryBounded (bound : Z) (e : option (bool * Z)) : Prop :=
  match e with
  | None => True
  | Some e => 0 <= snd e <= bound
  end.

(** The largest occupancy a search can record on a device: every candidate
    warp count below [maxBlockWarps], at most 32 blocks on each
    multiprocessor. *)
Definition occupancyBound (deviceProps : cudaDeviceProp) : Z :=
  maxBlockWarps deviceProps * 32 * multiProcessorCount deviceProps.

(** A device that can be ranked without loss: its fields are in range, the
    occupancies of its eight kernels add up below 2^31, and its
    architecture version fits [int]. *)
Definition deviceRankable (deviceProps : cudaDeviceProp) : Prop :=
  deviceInRange deviceProps
  /\ 8 * occupancyBound deviceProps < 2 ^ 31
  /\ fitsInt (major deviceProps * 10)
  /\ fitsInt (major deviceProps * 10 + minor deviceProps).

(** Every entry the profiling loop makes is [(false, 0)]. *)
Definition freshEntries (p : Profile) : Prop :=
  forall k, snd p k = None \/ snd p k = Some (false, 0).

(* ================================================================== *)
(** * Inputs used by the examples *)
(* ================================================================== *)

(** A device of compute capability 1.0. *)
Definition deviceSM10 : cudaDeviceProp :=
  {| major := 1; minor := 0; multiProcessorCount := 16;
     maxThreadsPerBlock := 512; maxThreadsPerMultiProcessor := 768;
     regsPerBlock := 8192; sharedMemPerMultiprocessor := 16384;
     totalGlobalMem := 805306368 |}.

(** A device of compute capability 6.1. *)
Definition deviceSM61 : cudaDeviceProp :=
  {| major := 6; minor := 1; multiProcessorCount := 5;
     maxThreadsPerBlock := 1024; maxThreadsPerMultiProcessor := 2048;
     regsPerBlock := 65536; sharedMemPerMultiprocessor := 98304;
     totalGlobalMem := 2147483648 |}.

(** A device of compute capability 7.0. *)
Definition deviceSM70 : cudaDeviceProp :=
  {| major := 7; minor := 0; multiProcessorCount := 80;
     maxThreadsPerBlock := 1024; maxThreadsPerMultiProcessor := 2048;
     regsPerBlock := 65536; sharedMemPerMultiprocessor := 98304;
     totalGlobalMem := 17179869184 |}.

(** A device that reports no global memory. *)
Definition deviceNoMemory : cudaDeviceProp :=
  {| major := 6; minor := 1; multiProcessorCount := 5;
     maxThreadsPerBlock := 1024; maxThreadsPerMultiProcessor := 2048;
     regsPerBlock := 65536; sharedMemPerMultiprocessor := 98304;
     totalGlobalMem := 0 |}.

Definition emptyModel : NNmodel :=
  {| getLocalNeuronGroups := []; getLocalSynapseGroups := [] |}.

Definition population (n : Z) : NeuronGroup :=
  {| getNumNeurons := n; isSimRNGRequired := false; isInitCodeRequired := false |}.

(** Thirty-two populations of the largest size an [unsigned int] holds. *)
Definition hugeModel : NNmodel :=
  {| getLocalNeuronGroups := repeat (population 4294967295) 32;
     getLocalSynapseGroups := [] |}.

(** One population of ten thousand neurons. *)
Definition smallModel : NNmodel :=
  {| getLocalNeuronGroups := [population 10000]; getLocalSynapseGroups := [] |}.

(** A sizing function for the examples: one thread per source neuron. *)
Definition threadsPerSource (s : SynapseGroup) : Z :=
  getNumNeurons (getSrcNeuronGroup s).

(** A driver whose calls all succeed: the code generator emits one module,
    [runner], which holds the neuron-update kernel with 32 registers and no
    shared memory. *)
Definition goodDriver (visible : list cudaDeviceProp) : Driver :=
  {| devices := visible;
     cudaGetDeviceCount_status := 0;
     cudaGetDeviceProperties_status := fun _ => 0;
     cuDeviceGet := fun _ => 0;
     cuCtxCreate := fun _ => 0;
     cuCtxSetCurrent := fun _ _ => 0;
     cuCtxDestroy := fun _ => 0;
     generateAll := fun _ _ _ => ["runner"%string];
     system_nvcc := fun _ _ _ => 0;
     cuModuleLoad := fun _ _ _ => 0;
     cuModuleGetFunction :=
       fun _ _ _ k => match k with KernelNeuronUpdate => 0 | _ => 500 end;
     cudaFuncGetAttributes := fun _ _ _ _ => {| numRegs := 32; sharedSizeBytes := 0 |};
     cuModuleUnload := fun _ _ _ => 0;
     uninitialised := fun _ _ => {| numRegs := 0; sharedSizeBytes := 0 |} |}.

(** The same driver with an NVCC that exits with status 1. *)
Definition failingNvccDriver (visible : list cudaDeviceProp) : Driver :=
  {| devices := visible;
     cudaGetDeviceCount_status := 0;
     cudaGetDeviceProperties_status := fun _ => 0;
     cuDeviceGet := fun _ => 0;
     cuCtxCreate := fun _ => 0;
     cuCtxSetCurrent := fun _ _ => 0;
     cuCtxDestroy := fun _ => 0;
     generateAll := fun _ _ _ => ["runner"%string];
     system_nvcc := fun _ _ _ => 1;
     cuModuleLoad := fun _ _ _ => 0;
     cuModuleGetFunction :=
       fun _ _ _ k => match k with KernelNeuronUpdate => 0 | _ => 500 end;
     cudaFuncGetAttributes := fun _ _ _ _ => {| numRegs := 32; sharedSizeBytes := 0 |};
     cuModuleUnload := fun _ _ _ => 0;
     uninitialised := fun _ _ => {| numRegs := 0; sharedSizeBytes := 0 |} |}.

(** The optimiser with the sizing functions and flags of the examples. *)
Definition exOptimizeBlockSize (drv : Driver) :=
  optimizeBlockSize threadsPerSource threadsPerSource threadsPerSource 64 4 drv.
Definition exChooseOptimalDevice (drv : Driver) :=
  chooseOptimalDevice threadsPerSource threadsPerSource threadsPerSource 64 4 drv.
Definition exCreateBackend (drv : Driver) :=
  createBackend threadsPerSource threadsPerSource threadsPerSource 64 4 drv.
Definition exCalcGroupSizes :=
  calcGroupSizes threadsPerSource threadsPerSource threadsPerSource 64 4.

(** Three visible devices. *)
Definition exDevices : list cudaDeviceProp := [deviceSM61; deviceSM70; deviceSM10].

(** What the pass over the device [j] returns in the examples. *)
Definition exOuts (drv : Driver) (model : NNmodel) (j : nat)
  : KernelOptimisationOutput * KernelBlockSize :=
  match fst (exOptimizeBlockSize drv (Z.of_nat j) model emptyWorld) with
  | Ok out => out
  | Throw _ => (fill None, fill 0)
  end.

(** Four visible devices: the second and the fourth have the same, largest,
    global memory and the third has none. *)
Definition exMemoryDevices : list cudaDeviceProp :=
  [deviceSM61; deviceSM70; deviceNoMemory; deviceSM70].

(** A computation whose result does not depend on the world it starts in. *)
Definition worldFree {A : Type} (c : M A) : Prop :=
  forall w w', fst (c w) = fst (c w').

(** The two runs of the code generator in a pass over the device
    [deviceID]: every block size at [repBlockSizes[0]], then every block
    size at [repBlockSizes[1]]. *)
Definition probesOf (deviceID : Z) : list (Z * list Z) :=
  [(deviceID, map (fill (repBlockSizes 0)) allKernels);
   (deviceID, map (fill (repBlockSizes 1)) allKernels)].

(** The rank of a ranked device: small-workload count, total occupancy,
    architecture version. *)
Definition rankOf (d : Z * Z * Z * KernelBlockSize) : Z * Z * Z :=
  (snd (fst d), snd (fst (fst d)), fst (fst (fst d))).

(** The hints that show a computation to be [worldFree]. *)
Create HintDb world.

(** The evaluation of a closed statement. *)
Ltac evaluate :=
  vm_compute;
  try reflexivity;
  try (let H := fresh in intros H; discriminate H).

(* ================================================================== *)
(** * Further notions of the search and of the profiling loop *)
(* ================================================================== *)

(** Whether the whole workload fits on the device at a candidate: the test
    of line 294. *)
Definition fitsAt (deviceProps : cudaDeviceProp) (arch : ArchProps) (sizes : list Z)
           (reqNumRegs A B blockWarps : Z) : bool :=
  match candidateLimit deviceProps arch reqNumRegs A B blockWarps with
  | Some limit =>
      calcReqBlocks sizes (to_size_t (blockWarps * warpSize))
      <=? concurrentBlocks deviceProps limit
  | None => false
  end.

(** The occupancy of a candidate: [newOccupancy] of line 291. *)
Definition occupancyAt (deviceProps : cudaDeviceProp) (arch : ArchProps)
           (reqNumRegs A B blockWarps : Z) : Z :=
  match candidateLimit deviceProps arch reqNumRegs A B blockWarps with
  | Some limit => occupancy deviceProps blockWarps limit
  | None => 0
  end.

(** [paddedNumRegPerBlock] of line 264. *)
Definition paddedNumRegPerBlock (arch : ArchProps) (reqNumRegs blockWarps : Z) : Z :=
  let paddedNumBlockWarps := to_size_t (padSize blockWarps (warpAllocGran arch)) in
  to_size_t (padSize (to_size_t (to_size_t (paddedNumBlockWarps * reqNumRegs) * warpSize))
                     (regAllocGran arch)).

(** A block size the search can leave in [blockSize[k]]: the one it found
    there, or that of a candidate. *)
Definition candidateBlockSize (deviceProps : cudaDeviceProp) (blockSize0 x : Z) : Prop :=
  x = blockSize0
  \/ exists b, 1 <= b < maxBlockWarps deviceProps /\ x = b * warpSize.

(** The modules the code generator emits in the repetition [r] of a pass. *)
Definition modulesOf (drv : Driver) (model : NNmodel) (deviceID : Z) (r : nat) : list string :=
  generateAll drv model (fill (repBlockSizes r)) deviceID.

(** Whether a module of the repetition [r] holds the kernel [k]. *)
Definition holdsKernel (drv : Driver) (deviceID : Z) (r : nat) (k : Kernel) (m : string) : bool :=
  cuModuleGetFunction drv deviceID r m k =? CUDA_SUCCESS.

(** The last module of a list that satisfies a test. *)
Fixpoint lastWith (test : string -> bool) (ms : list string) : option string :=
  match ms with
  | [] => None
  | m :: ms' =>
      match lastWith test ms' with
      | Some m' => Some m'
      | None => if test m then Some m else None
      end
  end.

(** The attributes the profiling loop of a pass holds for the repetition
    [r] and the kernel [k]: those of the last module of the repetition that
    holds the kernel, and the indeterminate initial ones when none does. *)
Definition profiledAttr (drv : Driver) (model : NNmodel) (deviceID : Z)
           (r : nat) (k : Kernel) : cudaFuncAttributes :=
  match lastWith (holdsKernel drv deviceID r k) (modulesOf drv model deviceID r) with
  | Some m => cudaFuncGetAttributes drv deviceID r m k
  | None => uninitialised drv r k
  end.

(** Whether some module of either repetition holds the kernel. *)
Definition kernelFound (drv : Driver) (model : NNmodel) (deviceID : Z) (k : Kernel) : bool :=
  existsb (holdsKernel drv deviceID 0 k) (modulesOf drv model deviceID 0)
  || existsb (holdsKernel drv deviceID 1 k) (modulesOf drv model deviceID 1).

(** Every external call of a pass over the device [deviceID] succeeds: the
    driver and runtime calls return [CUDA_SUCCESS] and NVCC exits with
    status 0 on every module of the two repetitions. *)
Definition passCallsSucceed (drv : Driver) (model : NNmodel) (deviceID : Z) : Prop :=
  cuDeviceGet drv deviceID = CUDA_SUCCESS
  /\ cuCtxCreate drv deviceID = CUDA_SUCCESS
  /\ cuCtxDestroy drv deviceID = CUDA_SUCCESS
  /\ cudaGetDeviceProperties_status drv deviceID = CUDA_SUCCESS
  /\ forall r, (r < 2)%nat ->
       cuCtxSetCurrent drv deviceID r = CUDA_SUCCESS
       /\ forall m, In m (modulesOf drv model deviceID r) ->
            system_nvcc drv deviceID r m = 0
            /\ cuModuleLoad drv deviceID r m = CUDA_SUCCESS
            /\ cuModuleUnload drv deviceID r m = CUDA_SUCCESS.

(** A driver whose code generator emits two modules.  Both hold the neuron
    update kernel, with 32 registers in the first and 40 in the second; the
    second holds the initialisation kernel in the second repetition only. *)
Definition twoModuleDriver (visible : list cudaDeviceProp) : Driver :=
  {| devices := visible;
     cudaGetDeviceCount_status := 0;
     cudaGetDeviceProperties_status := fun _ => 0;
     cuDeviceGet := fun _ => 0;
     cuCtxCreate := fun _ => 0;
     cuCtxSetCurrent := fun _ _ => 0;
     cuCtxDestroy := fun _ => 0;
     generateAll := fun _ _ _ => ["neuronUpdate"%string; "init"%string];
     system_nvcc := fun _ _ _ => 0;
     cuModuleLoad := fun _ _ _ => 0;
     cuModuleGetFunction :=
       fun _ r m k =>
         match k with
         | KernelNeuronUpdate => 0
         | KernelInitialize =>
             if String.eqb m "init" && Nat.eqb r 1 then 0 else 500
         | _ => 500
         end;
     cudaFuncGetAttributes :=
       fun _ _ m _ =>
         if String.eqb m "init"
         then {| numRegs := 40; sharedSizeBytes := 0 |}
         else {| numRegs := 32; sharedSizeBytes := 0 |};
     cuModuleUnload := fun _ _ _ => 0;
     uninitialised := fun _ _ => {| numRegs := 0; sharedSizeBytes := 0 |} |}.

(** The driver of the examples with an NVCC that exits with status 1 in
    the passes over the device [bad] and with status 0 in the others. *)
Definition failingOnDriver (bad : Z) (visible : list cudaDeviceProp) : Driver :=
  {| devices := visible;
     cudaGetDeviceCount_status := 0;
     cudaGetDeviceProperties_status := fun _ => 0;
     cuDeviceGet := fun _ => 0;
     cuCtxCreate := fun _ => 0;
     cuCtxSetCurrent := fun _ _ => 0;
     cuCtxDestroy := fun _ => 0;
     generateAll := fun _ _ _ => ["runner"%string];
     system_nvcc := fun d _ _ => if d =? bad then 1 else 0;
     cuModuleLoad := fun _ _ _ => 0;
     cuModuleGetFunction :=
       fun _ _ _ k => match k with KernelNeuronUpdate => 0 | _ => 500 end;
     cudaFuncGetAttributes := fun _ _ _ _ => {| numRegs := 32; sharedSizeBytes := 0 |};
     cuModuleUnload := fun _ _ _ => 0;
     uninitialised := fun _ _ => {| numRegs := 0; sharedSizeBytes := 0 |} |}.

(** What the selection returns in the examples. *)
Definition exChosen (drv : Driver) (model : NNmodel) : Z * KernelBlockSize :=
  match fst (chooseOptimalDevice threadsPerSource threadsPerSource threadsPerSource 64 4
                                 drv model emptyWorld) with
  | Ok chosen => chosen
  | Throw _ => (-1, fill 0)
  end.

(* ================================================================== *)
(** * [spineml/simulator/modelProperty.cc] *)
(* ================================================================== *)

Section ModelProperty.

(** The type [scalar] of the state variables; no arithmetic is done on it. *)
Variable scalar : Type.

(** The arrays [m_HostStateVar] and [m_DeviceStateVar] point to. *)
Record StateVars := mkStateVars {
  hostStateVar : list scalar;
  deviceStateVar : list scalar
}.

(** One call of [cudaMemcpy]: its status and what a failed copy leaves in
    the destination. *)
Record Memcpy := mkMemcpy {
  memcpyStatus : Z;
  memcpyFailed : list scalar -> list scalar
}.

(** [cudaMemcpy(dst, src, count * sizeof(scalar), kind)]: the first [count]
    elements of the source replace those of the destination; a count beyond
    either array has no defined behaviour. *)
Definition cudaMemcpy (call : Memcpy) (dst src : list scalar) (count : nat)
  : option (Z * list scalar) :=
  if (count <=? List.length src)%nat && (count <=? List.length dst)%nat then
    if memcpyStatus call =? CUDA_SUCCESS
    then Some (memcpyStatus call, firstn count src ++ skipn count dst)
    else Some (memcpyStatus call, memcpyFailed call dst)
  else None.

(** [Base::pushToDevice] (lines 16-21); [CPU_ONLY] is the preprocessor
    symbol. *)
Definition pushToDevice (CPU_ONLY : bool) (call : Memcpy) (m_Size : Z) (vars : StateVars)
  : Result unit * StateVars :=
  if CPU_ONLY then (Ok tt, vars)
  else
    match cudaMemcpy call (deviceStateVar vars) (hostStateVar vars) (Z.to_nat m_Size) with
    | None => (Throw Undefined, vars)
    | Some (status, device') =>
        let vars' := {| hostStateVar := hostStateVar vars; deviceStateVar := device' |} in
        if status =? CUDA_SUCCESS then (Ok tt, vars')
        else (Throw (CudaRuntimeError status), vars')
    end.

(** [Base::pullFromDevice] (lines 23-28). *)
Definition pullFromDevice (CPU_ONLY : bool) (call : Memcpy) (m_Size : Z) (vars : StateVars)
  : Result unit * StateVars :=
  if CPU_ONLY then (Ok tt, vars)
  else
    match cudaMemcpy call (hostStateVar vars) (deviceStateVar vars) (Z.to_nat m_Size) with
    | None => (Throw Undefined, vars)
    | Some (status, host') =>
        let vars' := {| hostStateVar := host'; deviceStateVar := deviceStateVar vars |} in
        if status =? CUDA_SUCCESS then (Ok tt, vars')
        else (Throw (CudaRuntimeError status), vars')
    end.

(** [std::fill(getHostStateVarBegin(), getHostStateVarEnd(), value)].  The
    two accessors are declared in [modelProperty.h], which is not among the
    sources: the range they bound starts at [m_HostStateVar], and the number
    [hostCount] of its elements is left open.  A range that ends beyond the
    array has no defined behaviour. *)
Definition fillHostStateVar (hostCount : nat) (value : scalar) (host : list scalar)
  : option (list scalar) :=
  if (hostCount <=? List.length host)%nat
  then Some (repeat value hostCount ++ skipn hostCount host)
  else None.

(** [Fixed::setValue] (lines 41-51): the state is the cached [m_Value] and
    the arrays. *)
Definition Fixed_setValue (CPU_ONLY : bool) (call : Memcpy) (hostCount : nat) (m_Size : Z)
           (value : scalar) (state : scalar * StateVars)
  : Result unit * (scalar * StateVars) :=
  let m_Value := value in
  match fillHostStateVar hostCount m_Value (hostStateVar (snd state)) with
  | None => (Throw Undefined, (m_Value, snd state))
  | Some host' =>
      let pushed :=
        pushToDevice CPU_ONLY call m_Size
                     {| hostStateVar := host';
                        deviceStateVar := deviceStateVar (snd state) |} in
      (fst pushed, (m_Value, snd pushed))
  end.

End ModelProperty.

Arguments hostStateVar {scalar} _.
Arguments deviceStateVar {scalar} _.
Arguments mkStateVars {scalar} _ _.
Arguments mkMemcpy {scalar} _ _.
Arguments memcpyStatus {scalar} _.
Arguments memcpyFailed {scalar} _ _.
Arguments cudaMemcpy {scalar} _ _ _ _.
Arguments pushToDevice {scalar} _ _ _ _.
Arguments pullFromDevice {scalar} _ _ _ _.
Arguments fillHostStateVar {scalar} _ _ _.
Arguments Fixed_setValue {scalar} _ _ _ _ _ _.

(** A copy that succeeds. *)
Definition goodMemcpy {scalar : Type} : Memcpy scalar :=
  {| memcpyStatus := 0; memcpyFailed := fun dst => dst |}.

(** A copy that fails with the status 30 and leaves nothing it can be
    relied on. *)
Definition badMemcpy {scalar : Type} : Memcpy scalar :=
  {| memcpyStatus := 30; memcpyFailed := fun _ => [] |}.

(* ================================================================== *)
(** * Machine integers: basic facts *)
(* ================================================================== *)

Lemma to_size_t_small (z : Z) : 0 <= z < 2 ^ 64 -> to_size_t z = z.
Proof. intros H. unfold to_size_t. apply Z.mod_small. exact H. Qed.

Lemma to_size_t_range (z : Z) : 0 <= to_size_t z < 2 ^ 64.
Proof. unfold to_size_t. apply Z.mod_pos_bound. lia. Qed.

Lemma to_uint_small (z : Z) : 0 <= z < 2 ^ 32 -> to_uint z = z.
Proof. intros H. unfold to_uint. apply Z.mod_small. exact H. Qed.

Lemma to_uint_range (z : Z) : 0 <= to_uint z < 2 ^ 32.
Proof. unfold to_uint. apply Z.mod_pos_bound. lia. Qed.

Lemma to_int_small (z : Z) : fitsInt z -> to_int z = z.
Proof.
  unfold fitsInt, to_int. intros H.
  rewrite Z.mod_small by lia. lia.
Qed.

Lemma size_t_min_spec (a b : Z) : size_t_min a b = Z.min a b.
Proof. unfold size_t_min. destruct (Z.ltb_spec b a); lia. Qed.

(** An accumulation whose exact sum fits [int] is exact. *)
Lemma accumulate_int_exact {A : Type} (f : A -> Z) (l : list A) :
  Forall (fun x => 0 <= f x) l ->
  sumZ f l < 2 ^ 31 ->
  accumulate_int (fun acc x => to_size_t (acc + f x)) l = sumZ f l.
Proof.
  unfold accumulate_int.
  assert (G : forall acc, 0 <= acc -> Forall (fun x => 0 <= f x) l ->
                          acc + sumZ f l < 2 ^ 31 ->
                          fold_left (fun acc x => to_int (to_size_t (to_size_t acc + f x))) l acc
                          = acc + sumZ f l).
  { induction l as [|x l IH]; intros acc Hacc Hpos Hsum; simpl in *.
    - lia.
    - inversion Hpos as [|? ? Hx Hl]; subst.
      assert (Hs : 0 <= sumZ f l).
      { clear - Hl. induction Hl; simpl; lia. }
      rewrite (to_size_t_small acc) by lia.
      rewrite (to_size_t_small (acc + f x)) by lia.
      rewrite to_int_small by (unfold fitsInt; lia).
      rewrite IH by (auto; lia). lia. }
  intros Hpos Hsum. rewrite G by (auto; lia). lia.
Qed.

Lemma sumZ_nonneg {A : Type} (f : A -> Z) (l : list A) :
  Forall (fun x => 0 <= f x) l -> 0 <= sumZ f l.
Proof. induction 1; simpl; lia. Qed.

Lemma sumZ_le {A : Type} (f g : A -> Z) (l : list A) :
  Forall (fun x => f x <= g x) l -> sumZ f l <= sumZ g l.
Proof. induction 1; simpl; lia. Qed.

Lemma sumZ_scale {A : Type} (c : Z) (f : A -> Z) (l : list A) :
  sumZ (fun x => c * f x) l = c * sumZ f l.
Proof. induction l; simpl; lia. Qed.

(* ================================================================== *)
(** * The architecture table *)
(* ================================================================== *)

Lemma arch_bounds (deviceProps : cudaDeviceProp) :
  let arch := fst (getDeviceArchitectureProperties deviceProps) in
  (warpAllocGran arch = 2 \/ warpAllocGran arch = 4)
  /\ (regAllocGran arch = 64 \/ regAllocGran arch = 256 \/ regAllocGran arch = 512)
  /\ (smemAllocGran arch = 128 \/ smemAllocGran arch = 256 \/ smemAllocGran arch = 512)
  /\ 0 < maxBlocksPerSM arch <= 32.
Proof.
  unfold getDeviceArchitectureProperties.
  repeat match goal with
         | |- context [if ?c then _ else _] => destruct c
         end; simpl; lia.
Qed.

(** C4, as the code has it: the lookup returns constants for every version.
    The majors 1, 2, 3, 5 and 6 have entries of their own, with variants by
    minor for 1 and 6; every other major, among them every major from 7 on,
    gets the constants 256, 4, 256, 32 of the last branch; and a warning is
    written exactly when the major is greater than 7. *)
Theorem C4_architecture_lookup (deviceProps : cudaDeviceProp) :
  exists (arch : ArchProps) (warnings : list Warning),
    getDeviceArchitectureProperties deviceProps = (arch, warnings)
    /\ (major deviceProps = 1 ->
        arch = {| smemAllocGran := 512; warpAllocGran := 2;
                  regAllocGran := (if minor deviceProps <? 2 then 256 else 512);
                  maxBlocksPerSM := 8 |})
    /\ (major deviceProps = 2 ->
        arch = {| smemAllocGran := 128; warpAllocGran := 2; regAllocGran := 64;
                  maxBlocksPerSM := 8 |})
    /\ (major deviceProps = 3 ->
        arch = {| smemAllocGran := 256; warpAllocGran := 4; regAllocGran := 256;
                  maxBlocksPerSM := 16 |})
    /\ (major deviceProps = 5 ->
        arch = {| smemAllocGran := 256; warpAllocGran := 4; regAllocGran := 256;
                  maxBlocksPerSM := 32 |})
    /\ (major deviceProps = 6 ->
        arch = {| smemAllocGran := 256;
                  warpAllocGran := (if minor deviceProps =? 0 then 2 else 4);
                  regAllocGran := 256; maxBlocksPerSM := 32 |})
    /\ (7 <= major deviceProps \/ major deviceProps = 4 \/ major deviceProps < 1 ->
        arch = fallbackArchProps)
    /\ (warnings <> [] <-> 7 < major deviceProps).
Proof.
  unfold getDeviceArchitectureProperties, fallbackArchProps.
  destruct (Z.eqb_spec (major deviceProps) 1) as [E1|N1].
  { eexists; eexists; split; [reflexivity|].
    repeat split; try (intros; lia); try reflexivity; intros H; congruence. }
  destruct (Z.eqb_spec (major deviceProps) 2) as [E2|N2].
  { eexists; eexists; split; [reflexivity|].
    repeat split; try (intros; lia); try reflexivity; intros H; congruence. }
  destruct (Z.eqb_spec (major deviceProps) 3) as [E3|N3].
  { eexists; eexists; split; [reflexivity|].
    repeat split; try (intros; lia); try reflexivity; intros H; congruence. }
  destruct (Z.eqb_spec (major deviceProps) 5) as [E5|N5].
  { eexists; eexists; split; [reflexivity|].
    repeat split; try (intros; lia); try reflexivity; intros H; congruence. }
  destruct (Z.eqb_spec (major deviceProps) 6) as [E6|N6].
  { eexists; eexists; split; [reflexivity|].
    repeat split; try (intros; lia); try reflexivity; intros H; congruence. }
  eexists; eexists; split; [reflexivity|].
  repeat split; try (intros; lia); try reflexivity.
  - intros H. destruct (Z.gtb_spec (major deviceProps) 7); [lia | congruence].
  - intros H. destruct (Z.gtb_spec (major deviceProps) 7); [discriminate | lia].
Qed.

(** C4, as stated, fails at compute capability 7.0: the major is at least 7,
    the constants are those of the last branch, and no warning is written. *)
Lemma C4_no_warning_at_major_7 :
  7 <= major deviceSM70
  /\ fst (getDeviceArchitectureProperties deviceSM70) = fallbackArchProps
  /\ snd (getDeviceArchitectureProperties deviceSM70) = [].
Proof. repeat split. vm_compute. discriminate. Qed.

(* ================================================================== *)
(** * The workload sizer *)
(* ================================================================== *)

Lemma to_uint_idem (z : Z) : to_uint (to_uint z) = to_uint z.
Proof. apply to_uint_small, to_uint_range. Qed.

Lemma push_back_at (gs : GroupSizes) (k k' : Kernel) (v : Z) :
  push_back gs k v k' = gs k' ++ (if Kernel_eqb k k' then [to_uint v] else []).
Proof.
  unfold push_back, set. destruct (Kernel_eqb k k') eqn:E.
  - destruct k, k'; try discriminate E; reflexivity.
  - now rewrite app_nil_r.
Qed.

Section Sizer.

Variables pre post dyn : SynapseGroup -> Z.
Variables INDIVIDUAL SPARSE : Z.

Lemma calcNeuronGroup_at (gs : GroupSizes) (n : NeuronGroup) (k : Kernel) :
  calcNeuronGroup gs n k = gs k ++ neuronEntries k n.
Proof.
  unfold calcNeuronGroup, neuronEntries, neuronContributes.
  destruct (isSimRNGRequired n || isInitCodeRequired n);
    repeat rewrite push_back_at; destruct k; simpl;
    repeat rewrite app_nil_r; reflexivity.
Qed.

Lemma calcSynapseGroup_at (gs : GroupSizes) (s : SynapseGroup) (k : Kernel) :
  calcSynapseGroup pre post dyn INDIVIDUAL SPARSE gs s k
  = gs k ++ synapseEntries pre post dyn INDIVIDUAL SPARSE k s.
Proof.
  unfold calcSynapseGroup, synapseEntries, synapseContributes, hasLearnPostCode.
  destruct (negb (empty (getLearnPostCode s)));
    destruct (negb (Z.land (getMatrixType s) INDIVIDUAL =? 0));
    destruct (isWUVarInitRequired s);
    destruct (negb (Z.land (getMatrixType s) SPARSE =? 0));
    simpl; repeat rewrite push_back_at; destruct k; simpl;
    repeat rewrite app_nil_r; repeat rewrite to_uint_idem; reflexivity.
Qed.

Lemma fold_calcNeuronGroup_at (l : list NeuronGroup) (gs : GroupSizes) (k : Kernel) :
  fold_left calcNeuronGroup l gs k = gs k ++ flat_map (neuronEntries k) l.
Proof.
  revert gs. induction l as [|n l IH]; intros gs; simpl.
  - now rewrite app_nil_r.
  - rewrite IH, calcNeuronGroup_at, app_assoc. reflexivity.
Qed.

Lemma fold_calcSynapseGroup_at (l : list SynapseGroup) (gs : GroupSizes) (k : Kernel) :
  fold_left (calcSynapseGroup pre post dyn INDIVIDUAL SPARSE) l gs k
  = gs k ++ flat_map (synapseEntries pre post dyn INDIVIDUAL SPARSE k) l.
Proof.
  revert gs. induction l as [|s l IH]; intros gs; simpl.
  - now rewrite app_nil_r.
  - rewrite IH, calcSynapseGroup_at, app_assoc. reflexivity.
Qed.

(** The sequence of every kernel, entry by entry. *)
Lemma calcGroupSizes_at (model : NNmodel) (gs : GroupSizes) (k : Kernel) :
  calcGroupSizes pre post dyn INDIVIDUAL SPARSE model gs k
  = gs k
    ++ flat_map (neuronEntries k) (getLocalNeuronGroups model)
    ++ flat_map (synapseEntries pre post dyn INDIVIDUAL SPARSE k) (getLocalSynapseGroups model)
    ++ resetEntries model k.
Proof.
  unfold calcGroupSizes. rewrite !push_back_at.
  rewrite fold_calcSynapseGroup_at, fold_calcNeuronGroup_at.
  rewrite <- !app_assoc. repeat f_equal.
  destruct k; reflexivity.
Qed.

Lemma flat_map_always {A : Type} (f : A -> Z) (l : list A) :
  flat_map (fun x => [f x]) l = map f l.
Proof. induction l; simpl; congruence. Qed.

Lemma flat_map_cond {A : Type} (c : A -> bool) (f : A -> Z) (l : list A) :
  flat_map (fun x => if c x then [f x] else []) l = map f (filter c l).
Proof.
  induction l as [|x l IH]; simpl; [reflexivity|].
  destruct (c x); simpl; congruence.
Qed.

Lemma flat_map_none {A : Type} (l : list A) :
  flat_map (fun _ : A => @nil Z) l = [].
Proof. induction l; simpl; auto. Qed.

Lemma length_flat_map_cond {A : Type} (c : A -> bool) (f : A -> Z) (l : list A) :
  List.length (flat_map (fun x => if c x then [f x] else []) l) = List.length (filter c l).
Proof. rewrite flat_map_cond. apply length_map. Qed.

(** C8: every synapse group adds its presynaptic thread count to the
    sequence of the presynaptic kernel, whatever its code; it adds its
    postsynaptic thread count to the postsynaptic kernel and its
    synapse-dynamics thread count to the synapse-dynamics kernel exactly
    when its postsynaptic learning code is not empty, one condition for
    both.  Nothing else reaches these three sequences. *)
Theorem C8_synapse_contributions (model : NNmodel) :
  let groupSizes := calcGroupSizes pre post dyn INDIVIDUAL SPARSE model (fill []) in
  groupSizes KernelPresynapticUpdate
  = map (fun s => to_uint (pre s)) (getLocalSynapseGroups model)
  /\ groupSizes KernelPostsynapticUpdate
     = map (fun s => to_uint (post s)) (filter hasLearnPostCode (getLocalSynapseGroups model))
  /\ groupSizes KernelSynapseDynamicsUpdate
     = map (fun s => to_uint (dyn s)) (filter hasLearnPostCode (getLocalSynapseGroups model)).
Proof.
  cbv zeta. rewrite !calcGroupSizes_at. unfold fill. simpl.
  unfold neuronEntries, synapseEntries, synapseContributes, neuronContributes.
  rewrite !flat_map_none. simpl. rewrite !app_nil_r.
  rewrite flat_map_always, !flat_map_cond. auto.
Qed.

(** C9, as the code has it: every entry is an integer from 0 to 2^32 - 1;
    each of the six kernels fed by the groups has one entry for each group
    that contributes to it, so none when no group does; and the sequences
    of the two reset kernels always hold exactly one entry, the number of
    neuron populations and the number of projections that need a reset,
    which is 0 when there is none. *)
Theorem C9_group_sizes_shape (model : NNmodel) :
  let groupSizes := calcGroupSizes pre post dyn INDIVIDUAL SPARSE model (fill []) in
  (forall k, Forall (fun v => 0 <= v < 2 ^ 32) (groupSizes k))
  /\ Forall (fun k =>
               List.length (groupSizes k)
               = (List.length (filter (neuronContributes k) (getLocalNeuronGroups model))
                  + List.length (filter (synapseContributes INDIVIDUAL SPARSE k)
                                        (getLocalSynapseGroups model)))%nat)
            groupKernels
  /\ groupSizes KernelPreNeuronReset
     = [to_uint (Z.of_nat (List.length (getLocalNeuronGroups model)))]
  /\ groupSizes KernelPreSynapseReset
     = [to_uint (getNumPreSynapseResetRequiredGroups model)].
Proof.
  cbv zeta. split; [|split; [|split]].
  - intros k. rewrite calcGroupSizes_at. unfold fill. simpl.
    rewrite !Forall_app. repeat split.
    + apply Forall_flat_map, Forall_forall. intros n _.
      unfold neuronEntries. destruct (neuronContributes k n); repeat constructor;
        apply to_uint_range.
    + apply Forall_flat_map, Forall_forall. intros s _.
      unfold synapseEntries. destruct (synapseContributes INDIVIDUAL SPARSE k s);
        repeat constructor; apply to_uint_range.
    + unfold resetEntries. destruct k; repeat constructor; apply to_uint_range.
  - unfold groupKernels.
    repeat (apply Forall_cons; [| ]); try apply Forall_nil;
      rewrite calcGroupSizes_at; unfold fill; simpl;
      rewrite !length_app; unfold neuronEntries, synapseEntries;
      rewrite !length_flat_map_cond; simpl; lia.
  - rewrite calcGroupSizes_at. unfold fill, neuronEntries, synapseEntries. simpl.
    rewrite !flat_map_none. reflexivity.
  - rewrite calcGroupSizes_at. unfold fill, neuronEntries, synapseEntries. simpl.
    rewrite !flat_map_none. reflexivity.
Qed.

End Sizer.

(** C9, as stated, fails on the model without any group: no group
    contributes to the neuron-reset kernel, yet its sequence is not empty and
    its entry is 0, which is not positive; the same holds for the
    synapse-reset kernel. *)
Lemma C9_empty_model_has_zero_entries :
  exCalcGroupSizes emptyModel (fill []) KernelPreNeuronReset = [0]
  /\ exCalcGroupSizes emptyModel (fill []) KernelPreSynapseReset = [0].
Proof. split; reflexivity. Qed.

(* ================================================================== *)
(** * The required-block count *)
(* ================================================================== *)

Lemma ceilDivide_nonneg (n d : Z) : 0 <= n -> 0 < d -> 0 <= ceilDivide n d.
Proof. intros Hn Hd. unfold ceilDivide. apply Z.div_pos; lia. Qed.

(** The ceiling property: [ceilDivide n d] blocks of [d] threads cover [n]. *)
Lemma ceilDivide_covers (n d : Z) : 0 < d -> n <= d * ceilDivide n d.
Proof.
  intros Hd. unfold ceilDivide.
  pose proof (Z.div_mod (n + d - 1) d ltac:(lia)) as E.
  pose proof (Z.mod_pos_bound (n + d - 1) d Hd) as B.
  nia.
Qed.

Lemma ceilDivide_least (n d q : Z) : 0 < d -> n <= d * q -> ceilDivide n d <= q.
Proof.
  intros Hd Hq. unfold ceilDivide.
  assert ((n + d - 1) / d < q + 1); [|lia].
  apply Z.div_lt_upper_bound; nia.
Qed.

Lemma ceilDivide_antitone (n d1 d2 : Z) :
  0 <= n -> 0 < d1 <= d2 -> ceilDivide n d2 <= ceilDivide n d1.
Proof.
  intros Hn Hd. apply ceilDivide_least; [lia|].
  pose proof (ceilDivide_covers n d1 ltac:(lia)).
  pose proof (ceilDivide_nonneg n d1 Hn ltac:(lia)).
  nia.
Qed.

Lemma ceilDivide_scale (n d b : Z) :
  0 < d -> 1 <= b -> ceilDivide n d <= b * ceilDivide n (b * d).
Proof.
  intros Hd Hb. apply ceilDivide_least; [lia|].
  pose proof (ceilDivide_covers n (b * d) ltac:(nia)). nia.
Qed.

Lemma sumCeilDivide_nonneg (sizes : list Z) (d : Z) :
  Forall (fun s => 0 <= s) sizes -> 0 < d -> 0 <= sumCeilDivide sizes d.
Proof.
  intros Hs Hd. apply sumZ_nonneg.
  eapply Forall_impl; [|exact Hs]. intros s Hs0. now apply ceilDivide_nonneg.
Qed.

(** On unbounded integers the sum of the ceiling divisions does not grow
    with the block size. *)
Lemma sumCeilDivide_antitone (sizes : list Z) (d1 d2 : Z) :
  Forall (fun s => 0 <= s) sizes -> 0 < d1 <= d2 ->
  sumCeilDivide sizes d2 <= sumCeilDivide sizes d1.
Proof.
  intros Hs Hd. apply sumZ_le.
  eapply Forall_impl; [|exact Hs]. intros s Hs0. now apply ceilDivide_antitone.
Qed.

Lemma sumCeilDivide_scale (sizes : list Z) (d b : Z) :
  0 < d -> 1 <= b -> sumCeilDivide sizes d <= b * sumCeilDivide sizes (b * d).
Proof.
  intros Hd Hb. unfold sumCeilDivide. rewrite <- sumZ_scale.
  apply sumZ_le, Forall_forall. intros s _. now apply ceilDivide_scale.
Qed.

(** The count of lines 244-248 is the sum of the ceiling divisions as long
    as that sum is below 2^31. *)
Lemma calcReqBlocks_exact (sizes : list Z) (blockThreads : Z) :
  Forall (fun s => 0 <= s) sizes -> 0 < blockThreads ->
  sumCeilDivide sizes blockThreads < 2 ^ 31 ->
  calcReqBlocks sizes blockThreads = sumCeilDivide sizes blockThreads.
Proof.
  intros Hs Hd Hsum. unfold calcReqBlocks, sumCeilDivide in *.
  rewrite accumulate_int_exact; auto.
  - apply to_size_t_small. split; [|lia].
    apply sumZ_nonneg. eapply Forall_impl; [|exact Hs].
    intros s Hs0. now apply ceilDivide_nonneg.
  - eapply Forall_impl; [|exact Hs]. intros s Hs0. now apply ceilDivide_nonneg.
Qed.

(** Below 2^31 the count does not grow with the block size. *)
Lemma calcReqBlocks_antitone (sizes : list Z) (d1 d2 : Z) :
  Forall (fun s => 0 <= s) sizes -> 0 < d1 <= d2 ->
  sumCeilDivide sizes d1 < 2 ^ 31 ->
  calcReqBlocks sizes d2 <= calcReqBlocks sizes d1.
Proof.
  intros Hs Hd Hsum.
  pose proof (sumCeilDivide_antitone sizes d1 d2 Hs Hd).
  rewrite !calcReqBlocks_exact by (auto; lia). lia.
Qed.

(** C6 at thirty-two populations of 4294967295 neurons: the sequence of the
    neuron-update kernel holds these sizes; at a block size of 32 the sum of
    the ceiling divisions is 2^32 while the count the optimiser computes is
    0; and at the larger block size 64 the computed count is 2^64 - 2^31, so
    it grew with the block size. *)
Theorem C6_required_blocks_wrap :
  let sizes := exCalcGroupSizes hugeModel (fill []) KernelNeuronUpdate in
  sizes = repeat 4294967295 32%nat
  /\ sumCeilDivide sizes 32 = 2 ^ 32
  /\ calcReqBlocks sizes 32 = 0
  /\ sumCeilDivide sizes 64 = 2 ^ 31
  /\ calcReqBlocks sizes 64 = 2 ^ 64 - 2 ^ 31.
Proof. cbv zeta. repeat split; vm_compute; reflexivity. Qed.

(* ================================================================== *)
(** * The per-multiprocessor block limit *)
(* ================================================================== *)

Lemma div_nonneg (a b : Z) : 0 <= a -> 0 <= b -> 0 <= a / b.
Proof.
  intros Ha Hb. destruct (Z.eq_dec b 0) as [->|N].
  - rewrite Z.div_0_r. lia.
  - apply Z.div_pos; lia.
Qed.

Lemma smBlockLimitNoSharedMem_nonneg (deviceProps : cudaDeviceProp) (arch : ArchProps)
      (reqNumRegs blockWarps limit : Z) :
  0 <= maxBlocksPerSM arch ->
  smBlockLimitNoSharedMem deviceProps arch reqNumRegs blockWarps = Some limit ->
  0 <= limit.
Proof.
  unfold smBlockLimitNoSharedMem. intros Hm H.
  assert (H0 : 0 <= to_size_t (maxThreadsPerMultiProcessor deviceProps)
                    / to_size_t (blockWarps * warpSize)).
  { apply div_nonneg; apply to_size_t_range. }
  destruct (major deviceProps =? 1).
  - match type of H with
    | (if ?c then _ else _) = _ => destruct c; [discriminate|]
    end.
    injection H as <-. rewrite !size_t_min_spec.
    match goal with
    | |- 0 <= Z.min _ (?a / ?b) =>
        assert (0 <= a / b) by (apply div_nonneg; apply to_size_t_range)
    end.
    lia.
  - injection H as <-. rewrite size_t_min_spec. lia.
Qed.

(** C7, as the code has it: at a candidate whose padded shared-memory
    estimate is not zero and exceeds the shared memory of a multiprocessor,
    the block limit with the shared-memory constraint is 0; it is never
    above the limit from the thread count, the block maximum and the
    registers, and it is strictly below that limit exactly when that limit
    is positive. *)
Theorem C7_shared_memory_limit (deviceProps : cudaDeviceProp)
        (reqNumRegs A B blockWarps limitWithout : Z) :
  let arch := fst (getDeviceArchitectureProperties deviceProps) in
  let reqSharedMemBytes :=
    estimateSharedMem A B (smemAllocGran arch) (to_size_t (blockWarps * warpSize)) in
  0 <= sharedMemPerMultiprocessor deviceProps ->
  reqSharedMemBytes <> 0 ->
  sharedMemPerMultiprocessor deviceProps < reqSharedMemBytes ->
  smBlockLimitNoSharedMem deviceProps arch reqNumRegs blockWarps = Some limitWithout ->
  exists limitWith : Z,
    candidateLimit deviceProps arch reqNumRegs A B blockWarps = Some limitWith
    /\ limitWith = 0
    /\ limitWith <= limitWithout
    /\ (limitWith < limitWithout <-> 0 < limitWithout).
Proof.
  cbv zeta. intros Hs Hnz Hgt Hl.
  pose proof (arch_bounds deviceProps) as (_ & _ & _ & Hmb). cbv zeta in Hmb.
  assert (Hpos : 0 <= limitWithout).
  { eapply smBlockLimitNoSharedMem_nonneg; [|exact Hl]. lia. }
  exists 0. split; [|lia].
  unfold candidateLimit, smBlockLimit. rewrite Hl.
  unfold applySharedMemLimit.
  destruct (Z.eqb_spec (estimateSharedMem A B
              (smemAllocGran (fst (getDeviceArchitectureProperties deviceProps)))
              (to_size_t (blockWarps * warpSize))) 0) as [E|_]; [contradiction|].
  simpl. rewrite Z.div_small by lia.
  rewrite size_t_min_spec. f_equal. lia.
Qed.

(** C7 at work: compute capability 1.0, 8 registers, 64 bytes of shared
    memory for each thread, 9 warps; the limit without the shared memory
    is 2 and the limit with it is 0. *)
Lemma C7_shared_memory_limit_witness :
  exists limitWith : Z,
    candidateLimit deviceSM10 (fst (getDeviceArchitectureProperties deviceSM10)) 8 64 0 9
    = Some limitWith
    /\ limitWith = 0
    /\ limitWith <= 2
    /\ (limitWith < 2 <-> 0 < 2).
Proof.
  apply (C7_shared_memory_limit deviceSM10 8 64 0 9 2); evaluate.
Defined.

(** C7, as stated, fails on a device of compute capability 1.0 for a kernel
    with 32 registers whose shared memory is 2048 bytes at 32 threads and
    4096 bytes at 64: at the candidate of 9 warps, one of the candidates of
    the device, the padded estimate of 18432 bytes exceeds the 16384 bytes
    of a multiprocessor, and the limit is 0 with the shared-memory
    constraint and 0 without it, so it is not strictly less. *)
Lemma C7_limit_not_strictly_less :
  let arch := fst (getDeviceArchitectureProperties deviceSM10) in
  let A := reqSharedMemBytesA 2048 4096 in
  let B := reqSharedMemBytesB 2048 4096 in
  maxBlockWarps deviceSM10 = 16
  /\ estimateSharedMem A B (smemAllocGran arch) (to_size_t (9 * warpSize)) = 18432
  /\ sharedMemPerMultiprocessor deviceSM10 = 16384
  /\ smBlockLimitNoSharedMem deviceSM10 arch 32 9 = Some 0
  /\ candidateLimit deviceSM10 arch 32 A B 9 = Some 0.
Proof. cbv zeta. repeat split; evaluate. Qed.

Lemma padSize_bounds (x g : Z) : 0 < g -> x <= padSize x g < x + g.
Proof.
  intros Hg. unfold padSize.
  pose proof (ceilDivide_covers x g Hg).
  unfold ceilDivide in *.
  pose proof (Z.mul_div_le (x + g - 1) g Hg). nia.
Qed.

(** Every candidate of a device in range has a block limit, from 0 to 32,
    as soon as a kernel uses a register where registers are allocated per
    block. *)
Lemma candidateLimit_defined (deviceProps : cudaDeviceProp) (reqNumRegs A B blockWarps : Z) :
  let arch := fst (getDeviceArchitectureProperties deviceProps) in
  deviceInRange deviceProps ->
  (major deviceProps = 1 -> 0 < reqNumRegs < 2 ^ 31) ->
  1 <= blockWarps < maxBlockWarps deviceProps ->
  exists limit, candidateLimit deviceProps arch reqNumRegs A B blockWarps = Some limit
                /\ 0 <= limit <= 32.
Proof.
  cbv zeta. intros (Htb & Htm & Hmp & Hrb & Hsm & Hcap) Hregs Hbw.
  pose proof (arch_bounds deviceProps) as (Hwg & Hrg & Hsg & Hmb). cbv zeta in *.
  set (arch := fst (getDeviceArchitectureProperties deviceProps)) in *.
  assert (Hmw : maxBlockWarps deviceProps < 2 ^ 26).
  { unfold maxBlockWarps, warpSize. rewrite to_size_t_small by lia.
    apply Z.div_lt_upper_bound; lia. }
  unfold candidateLimit, smBlockLimit.
  assert (Happly : forall req l, 0 <= req -> 0 <= l <= 32 ->
                                 0 <= applySharedMemLimit deviceProps req l <= 32).
  { intros req l Hreq Hl. unfold applySharedMemLimit.
    destruct (negb (req =? 0)); [|lia].
    rewrite size_t_min_spec.
    pose proof (div_nonneg (sharedMemPerMultiprocessor deviceProps) req ltac:(lia) Hreq).
    lia. }
  assert (Hest : 0 <= estimateSharedMem A B (smemAllocGran arch)
                        (to_size_t (blockWarps * warpSize))).
  { unfold estimateSharedMem. apply to_size_t_range. }
  assert (Ht : 0 <= to_size_t (maxThreadsPerMultiProcessor deviceProps)
                    / to_size_t (blockWarps * warpSize)).
  { apply div_nonneg; apply to_size_t_range. }
  unfold smBlockLimitNoSharedMem. unfold warpSize in *.
  destruct (Z.eqb_spec (major deviceProps) 1) as [E|N].
  - specialize (Hregs E).
    assert (Hp1 : blockWarps <= padSize blockWarps (warpAllocGran arch) < blockWarps + 4).
    { pose proof (padSize_bounds blockWarps (warpAllocGran arch) ltac:(lia)). lia. }
    rewrite (to_size_t_small (padSize blockWarps (warpAllocGran arch))) by lia.
    set (pw := padSize blockWarps (warpAllocGran arch)) in *.
    assert (Hprod : 0 < pw * reqNumRegs < 2 ^ 58) by nia.
    rewrite (to_size_t_small (pw * reqNumRegs)) by lia.
    rewrite (to_size_t_small (pw * reqNumRegs * 32)) by lia.
    pose proof (padSize_bounds (pw * reqNumRegs * 32) (regAllocGran arch) ltac:(lia)) as Hp2.
    rewrite (to_size_t_small (padSize (pw * reqNumRegs * 32) (regAllocGran arch))) by lia.
    destruct (Z.eqb_spec (padSize (pw * reqNumRegs * 32) (regAllocGran arch)) 0) as [Z0|NZ];
      [lia|].
    eexists. split; [reflexivity|].
    apply Happly; [exact Hest|].
    rewrite !size_t_min_spec.
    match goal with
    | |- 0 <= Z.min _ (?a / ?b) <= 32 =>
        assert (0 <= a / b) by (apply div_nonneg; [apply to_size_t_range | lia])
    end.
    lia.
  - eexists. split; [reflexivity|].
    apply Happly; [exact Hest|].
    rewrite size_t_min_spec. lia.
Qed.

(* ================================================================== *)
(** * The search over the candidates *)
(* ================================================================== *)

Lemma candidateLog_S (b : Z) (n : nat) :
  candidateLog b (S n) = b * warpSize :: candidateLog (b + 1) n.
Proof.
  unfold candidateLog. simpl. f_equal; [f_equal; lia|].
  rewrite <- seq_shift, map_map. apply map_ext. intros i. f_equal. lia.
Qed.

Lemma candidateLog_from_1 (n : nat) :
  candidateLog 1 n = map (fun i => Z.of_nat i * warpSize) (seq 1 n).
Proof.
  unfold candidateLog. rewrite <- seq_shift, map_map.
  apply map_ext. intros i. f_equal. lia.
Qed.

Section Search.

Variable deviceProps : cudaDeviceProp.
Variable sizes : list Z.
Variables reqNumRegs A B : Z.

Local Abbreviation arch := (fst (getDeviceArchitectureProperties deviceProps)).

Hypothesis device_ok : deviceInRange deviceProps.
Hypothesis sizes_ok : Forall (fun s => 0 <= s) sizes.
Hypothesis regs_ok : major deviceProps = 1 -> 0 < reqNumRegs < 2 ^ 31.

Lemma maxBlockWarps_small : maxBlockWarps deviceProps < 2 ^ 26.
Proof.
  destruct device_ok as (Htb & _).
  unfold maxBlockWarps, warpSize. rewrite to_size_t_small by lia.
  apply Z.div_lt_upper_bound; lia.
Qed.

Lemma blockThreads_exact (blockWarps : Z) :
  1 <= blockWarps < maxBlockWarps deviceProps ->
  to_size_t (blockWarps * warpSize) = blockWarps * warpSize.
Proof.
  intros H. pose proof maxBlockWarps_small.
  apply to_size_t_small. unfold warpSize. lia.
Qed.

Lemma concurrentBlocks_exact (limit : Z) :
  0 <= limit <= 32 ->
  concurrentBlocks deviceProps limit = limit * multiProcessorCount deviceProps.
Proof.
  intros H. destruct device_ok as (_ & _ & Hmp & _).
  unfold concurrentBlocks.
  rewrite (to_size_t_small (multiProcessorCount deviceProps)) by lia.
  apply to_size_t_small. nia.
Qed.

(** Up to a candidate at which the whole workload fits on the device, the
    count of required blocks is computed without loss. *)
Lemma calcReqBlocks_before_fit (b0 l0 b : Z) :
  1 <= b0 < maxBlockWarps deviceProps ->
  0 <= l0 <= 32 ->
  sumCeilDivide sizes (b0 * warpSize) <= l0 * multiProcessorCount deviceProps ->
  1 <= b <= b0 ->
  calcReqBlocks sizes (b * warpSize) = sumCeilDivide sizes (b * warpSize).
Proof.
  intros Hb0 Hl0 Hfit Hb.
  destruct device_ok as (_ & _ & Hmp & _ & _ & Hcap).
  apply calcReqBlocks_exact; [exact sizes_ok | unfold warpSize; lia |].
  pose proof (sumCeilDivide_antitone sizes warpSize (b * warpSize) sizes_ok
                ltac:(unfold warpSize; lia)) as H1.
  pose proof (sumCeilDivide_scale sizes warpSize b0 ltac:(unfold warpSize; lia)
                ltac:(lia)) as H2.
  pose proof (sumCeilDivide_nonneg sizes (b0 * warpSize) sizes_ok
                ltac:(unfold warpSize; lia)) as H3.
  unfold warpSize in *. nia.
Qed.

(** The loop from a candidate [b] on, when the first candidate at which the
    workload fits is [b0]: it stops there. *)
Lemma searchLoop_stops (b0 l0 : Z) :
  1 <= b0 < maxBlockWarps deviceProps ->
  candidateLimit deviceProps arch reqNumRegs A B b0 = Some l0 ->
  sumCeilDivide sizes (b0 * warpSize) <= l0 * multiProcessorCount deviceProps ->
  (forall b l, 1 <= b < b0 ->
               candidateLimit deviceProps arch reqNumRegs A B b = Some l ->
               l * multiProcessorCount deviceProps < sumCeilDivide sizes (b * warpSize)) ->
  forall (n : nat) (b : Z) (fuel : nat) (st : Search),
    1 <= b -> b + Z.of_nat n = b0 -> (n < fuel)%nat ->
    searchLoop deviceProps arch sizes reqNumRegs A B fuel b st
    = Some {| chosenBlockSize := b0 * warpSize;
              record := (true, occupancy deviceProps b0 l0);
              examined := examined st ++ candidateLog b (S n) |}.
Proof.
  intros Hb0 Hl0 Hfit Hbefore.
  assert (Hl0r : 0 <= l0 <= 32).
  { destruct (candidateLimit_defined deviceProps reqNumRegs A B b0 device_ok regs_ok Hb0)
      as (l & El & Hl). fold arch in El. congruence. }
  induction n as [|n IH]; intros b fuel st Hb Hsum Hfuel;
    (destruct fuel as [|fuel]; [lia|]); simpl.
  - assert (b = b0) by lia. subst b.
    unfold searchBody. rewrite Hl0.
    rewrite blockThreads_exact by lia.
    rewrite (calcReqBlocks_before_fit b0 l0 b0) by (auto; lia).
    rewrite concurrentBlocks_exact by lia.
    destruct (Z.leb_spec (sumCeilDivide sizes (b0 * warpSize))
                         (l0 * multiProcessorCount deviceProps)); [|lia].
    unfold candidateLog. simpl. repeat f_equal. lia.
  - assert (Hbr : 1 <= b < b0) by lia.
    destruct (candidateLimit_defined deviceProps reqNumRegs A B b device_ok regs_ok
                ltac:(lia)) as (l & El & Hl).
    fold arch in El.
    unfold searchBody. rewrite El.
    rewrite blockThreads_exact by lia.
    rewrite (calcReqBlocks_before_fit b0 l0 b) by (auto; lia).
    rewrite concurrentBlocks_exact by lia.
    pose proof (Hbefore b l Hbr El) as Hlt.
    destruct (Z.leb_spec (sumCeilDivide sizes (b * warpSize))
                         (l * multiProcessorCount deviceProps)); [lia|].
    pose proof maxBlockWarps_small.
    rewrite (to_size_t_small (b + 1)) by lia.
    destruct (occupancy deviceProps b l >? snd (record st));
      rewrite IH by (simpl; lia); simpl;
      rewrite (candidateLog_S b (S n)), <- app_assoc; reflexivity.
Qed.

End Search.

(** C2: for a kernel of the map, on a device whose fields are in range,
    let [b0] be the first candidate warp count at which the sum over the
    group sizes of the ceiling divisions by the block size is at most the
    block limit times the number of multiprocessors.  Then the search
    chooses the block size of [b0], marks the record as small with the
    occupancy of that candidate, and examines the candidates up to [b0] and
    none after it.  With [b0 = 1] this is the case of the smallest
    candidate. *)
Theorem C2_small_workload_shortcut
        (deviceProps : cudaDeviceProp) (groupSizes : GroupSizes)
        (krnlAttr : nat -> KernelArray cudaFuncAttributes) (k : Kernel)
        (blockSize0 : Z) (entry : bool * Z) (b0 l0 : Z) :
  let arch := fst (getDeviceArchitectureProperties deviceProps) in
  let reqNumRegs := to_size_t (numRegs (krnlAttr 0%nat k)) in
  let A := reqSharedMemBytesA (sharedSizeBytes (krnlAttr 0%nat k))
                              (sharedSizeBytes (krnlAttr 1%nat k)) in
  let B := reqSharedMemBytesB (sharedSizeBytes (krnlAttr 0%nat k))
                              (sharedSizeBytes (krnlAttr 1%nat k)) in
  deviceInRange deviceProps ->
  Forall (fun s => 0 <= s) (groupSizes k) ->
  (major deviceProps = 1 -> 0 < numRegs (krnlAttr 0%nat k) < 2 ^ 31) ->
  1 <= b0 < maxBlockWarps deviceProps ->
  candidateLimit deviceProps arch reqNumRegs A B b0 = Some l0 ->
  sumCeilDivide (groupSizes k) (b0 * warpSize) <= l0 * multiProcessorCount deviceProps ->
  (forall b l, 1 <= b < b0 ->
               candidateLimit deviceProps arch reqNumRegs A B b = Some l ->
               l * multiProcessorCount deviceProps
               < sumCeilDivide (groupSizes k) (b * warpSize)) ->
  optimiseKernel deviceProps arch groupSizes krnlAttr k blockSize0 entry
  = Some {| chosenBlockSize := b0 * warpSize;
            record := (true, occupancy deviceProps b0 l0);
            examined := map (fun i => Z.of_nat i * warpSize) (seq 1 (Z.to_nat b0)) |}.
Proof.
  cbv zeta. intros Hdev Hsizes Hregs Hb0 Hl0 Hfit Hbefore.
  unfold optimiseKernel, searchKernel.
  assert (Hregs' : major deviceProps = 1 ->
                   0 < to_size_t (numRegs (krnlAttr 0%nat k)) < 2 ^ 31).
  { intros E. specialize (Hregs E). rewrite to_size_t_small; lia. }
  rewrite (searchLoop_stops deviceProps (groupSizes k) _ _ _ Hdev Hsizes Hregs'
             b0 l0 Hb0 Hl0 Hfit Hbefore (Z.to_nat (b0 - 1)) 1) by lia.
  simpl examined. rewrite candidateLog_from_1.
  replace (S (Z.to_nat (b0 - 1))) with (Z.to_nat b0) by lia.
  reflexivity.
Qed.


(** C2 at work: compute capability 6.1, one population of 10000 neurons;
    the 313 blocks of one warp do not fit the 160 the device holds, the 157
    blocks of two warps do, and 64 threads are chosen. *)
Lemma C2_small_workload_shortcut_witness :
  optimiseKernel deviceSM61 (fst (getDeviceArchitectureProperties deviceSM61))
                 (exCalcGroupSizes smallModel (fill []))
                 (fun _ _ => {| numRegs := 32; sharedSizeBytes := 0 |})
                 KernelNeuronUpdate 0 (false, 0)
  = Some {| chosenBlockSize := 2 * warpSize;
            record := (true, occupancy deviceSM61 2 32);
            examined := map (fun i => Z.of_nat i * warpSize) (seq 1 (Z.to_nat 2)) |}.
Proof.
  apply (C2_small_workload_shortcut
           deviceSM61 (exCalcGroupSizes smallModel (fill []))
           (fun _ _ => {| numRegs := 32; sharedSizeBytes := 0 |})
           KernelNeuronUpdate 0 (false, 0) 2 32).
  - unfold deviceInRange. repeat split; evaluate.
  - vm_compute. repeat constructor. intros H; discriminate H.
  - intros H. vm_compute in H. discriminate H.
  - split; evaluate.
  - evaluate.
  - evaluate.
  - intros b l Hb Hl. assert (b = 1) by lia. subst b.
    vm_compute in Hl. injection Hl as <-. evaluate.
Defined.

(** When the workload already fits at one warp, the search chooses 32
    threads and examines no other candidate. *)
Lemma small_workload_at_one_warp
      (deviceProps : cudaDeviceProp) (groupSizes : GroupSizes)
      (krnlAttr : nat -> KernelArray cudaFuncAttributes) (k : Kernel)
      (blockSize0 : Z) (entry : bool * Z) (l0 : Z) :
  let arch := fst (getDeviceArchitectureProperties deviceProps) in
  let reqNumRegs := to_size_t (numRegs (krnlAttr 0%nat k)) in
  let A := reqSharedMemBytesA (sharedSizeBytes (krnlAttr 0%nat k))
                              (sharedSizeBytes (krnlAttr 1%nat k)) in
  let B := reqSharedMemBytesB (sharedSizeBytes (krnlAttr 0%nat k))
                              (sharedSizeBytes (krnlAttr 1%nat k)) in
  deviceInRange deviceProps ->
  Forall (fun s => 0 <= s) (groupSizes k) ->
  (major deviceProps = 1 -> 0 < numRegs (krnlAttr 0%nat k) < 2 ^ 31) ->
  1 < maxBlockWarps deviceProps ->
  candidateLimit deviceProps arch reqNumRegs A B 1 = Some l0 ->
  sumCeilDivide (groupSizes k) warpSize <= l0 * multiProcessorCount deviceProps ->
  optimiseKernel deviceProps arch groupSizes krnlAttr k blockSize0 entry
  = Some {| chosenBlockSize := warpSize;
            record := (true, occupancy deviceProps 1 l0);
            examined := [warpSize] |}.
Proof.
  cbv zeta. intros Hdev Hsizes Hregs Hmax Hl0 Hfit.
  unfold optimiseKernel, searchKernel.
  assert (Hregs' : major deviceProps = 1 ->
                   0 < to_size_t (numRegs (krnlAttr 0%nat k)) < 2 ^ 31).
  { intros E. specialize (Hregs E). rewrite to_size_t_small; lia. }
  rewrite (searchLoop_stops deviceProps (groupSizes k) _ _ _ Hdev Hsizes Hregs'
             1 l0 ltac:(lia) Hl0 ltac:(rewrite Z.mul_1_l; exact Hfit)
             ltac:(intros; lia) 0%nat 1) by lia.
  reflexivity.
Qed.

(** The scenario of the spec: compute capability 6.1, one kernel whose
    groups are [1000], no shared memory at either probe and 32 registers.
    With the five multiprocessors of the example device the 32 blocks of
    32 threads fit at once, so 32 threads are chosen and marked small. *)
Example scenario_sm61_groups_1000 :
  optimiseKernel deviceSM61 (fst (getDeviceArchitectureProperties deviceSM61))
                 (fun _ => [1000])
                 (fun _ _ => {| numRegs := 32; sharedSizeBytes := 0 |})
                 KernelNeuronUpdate 0 (false, 0)
  = Some {| chosenBlockSize := 32; record := (true, 160); examined := [32] |}.
Proof. vm_compute. reflexivity. Qed.

(** A workload too large for any candidate: the search examines all 31
    candidates and keeps the first one of the highest occupancy, not marked
    small. *)
Example scenario_large_workload :
  option_map (fun s => (chosenBlockSize s, record s, List.length (examined s)))
             (optimiseKernel deviceSM61 (fst (getDeviceArchitectureProperties deviceSM61))
                             (fun _ => [100000000])
                             (fun _ _ => {| numRegs := 32; sharedSizeBytes := 0 |})
                             KernelNeuronUpdate 0 (false, 0))
  = Some (64, (false, 320), 31%nat).
Proof. vm_compute. reflexivity. Qed.

(* ================================================================== *)
(** * Runs of the optimiser in a world *)
(* ================================================================== *)

Lemma CHECK_CU_ERRORS_run (status : Z) (w : World) :
  CHECK_CU_ERRORS status w
  = if status =? 0 then (Ok tt, w) else (Throw (CudaDriverError status), w).
Proof. unfold CHECK_CU_ERRORS, CUDA_SUCCESS. destruct (status =? 0); reflexivity. Qed.

Lemma CHECK_CUDA_ERRORS_run (status : Z) (w : World) :
  CHECK_CUDA_ERRORS status w
  = if status =? 0 then (Ok tt, w) else (Throw (CudaRuntimeError status), w).
Proof. unfold CHECK_CUDA_ERRORS, CUDA_SUCCESS. destruct (status =? 0); reflexivity. Qed.

Lemma worldFree_ret {A : Type} (a : A) : worldFree (ret a).
Proof. intros w w'. reflexivity. Qed.

Lemma worldFree_throw {A : Type} (e : Error) : worldFree (@throw A e).
Proof. intros w w'. reflexivity. Qed.

Lemma worldFree_modify (f : World -> World) : worldFree (modify f).
Proof. intros w w'. reflexivity. Qed.

Lemma worldFree_bind {A B : Type} (c : M A) (k : A -> M B) :
  worldFree c -> (forall a, worldFree (k a)) -> worldFree (bind c k).
Proof.
  intros Hc Hk w w'. unfold bind. specialize (Hc w w').
  destruct (c w) as [[a|e] w1], (c w') as [[a'|e'] w1']; simpl in Hc;
    try discriminate Hc; inversion Hc; subst; [apply Hk | reflexivity].
Qed.

Lemma worldFree_CHECK_CU_ERRORS (status : Z) : worldFree (CHECK_CU_ERRORS status).
Proof. intros w w'. rewrite !CHECK_CU_ERRORS_run. destruct (status =? 0); reflexivity. Qed.

Lemma worldFree_CHECK_CUDA_ERRORS (status : Z) : worldFree (CHECK_CUDA_ERRORS status).
Proof. intros w w'. rewrite !CHECK_CUDA_ERRORS_run. destruct (status =? 0); reflexivity. Qed.

Lemma worldFree_foldM {A S : Type} (body : S -> A -> M S) (l : list A) :
  (forall s x, worldFree (body s x)) -> forall s, worldFree (foldM body l s).
Proof.
  intros Hb. induction l as [|x l IH]; intros s; simpl.
  - apply worldFree_ret.
  - apply worldFree_bind; auto.
Qed.

#[local] Hint Resolve worldFree_ret worldFree_throw worldFree_modify
  worldFree_CHECK_CU_ERRORS worldFree_CHECK_CUDA_ERRORS : world.

(** A loop whose body keeps a part of the world keeps it. *)
Lemma foldM_frame {A S X : Type} (f : World -> X) (body : S -> A -> M S) :
  (forall s x w, f (snd (body s x w)) = f w) ->
  forall l s w, f (snd (foldM body l s w)) = f w.
Proof.
  intros Hb. induction l as [|x l IH]; intros s w; simpl; [reflexivity|].
  unfold bind. specialize (Hb s x w).
  destruct (body s x w) as [[s'|e] w1]; simpl in *.
  - rewrite IH. exact Hb.
  - exact Hb.
Qed.

Section Runs.

Variables pre post dyn : SynapseGroup -> Z.
Variables INDIVIDUAL SPARSE : Z.
Variable drv : Driver.

Local Abbreviation optimize := (optimizeBlockSize pre post dyn INDIVIDUAL SPARSE drv).

Lemma cudaGetDeviceCount_run (w : World) :
  cudaGetDeviceCount_status drv = 0 ->
  cudaGetDeviceCount drv w = (Ok (Z.of_nat (List.length (devices drv))), w).
Proof.
  intros H. unfold cudaGetDeviceCount, bind.
  rewrite CHECK_CUDA_ERRORS_run, H. reflexivity.
Qed.

Lemma cudaGetDeviceProperties_run (i : nat) (p : cudaDeviceProp) (w : World) :
  cudaGetDeviceProperties_status drv (Z.of_nat i) = 0 ->
  nth_error (devices drv) i = Some p ->
  cudaGetDeviceProperties drv (Z.of_nat i) w = (Ok p, w).
Proof.
  intros Hs Hp. unfold cudaGetDeviceProperties.
  destruct (Z.ltb_spec (Z.of_nat i) 0); [lia|].
  rewrite Nat2Z.id, Hp. unfold bind.
  rewrite CHECK_CUDA_ERRORS_run, Hs. reflexivity.
Qed.

Lemma cudaGetDeviceProperties_world (d : Z) (w : World) :
  snd (cudaGetDeviceProperties drv d w) = w.
Proof.
  unfold cudaGetDeviceProperties.
  destruct (d <? 0); [reflexivity|].
  destruct (nth_error (devices drv) (Z.to_nat d)); [|reflexivity].
  unfold bind. rewrite CHECK_CUDA_ERRORS_run.
  destruct (cudaGetDeviceProperties_status drv d =? 0); reflexivity.
Qed.

Lemma worldFree_cudaGetDeviceProperties (d : Z) : worldFree (cudaGetDeviceProperties drv d).
Proof.
  unfold cudaGetDeviceProperties.
  destruct (d <? 0); auto with world.
  destruct (nth_error (devices drv) (Z.to_nat d)); auto with world.
  apply worldFree_bind; auto with world.
Qed.

Lemma worldFree_profileModule (d : Z) (r : nat) (p : Profile) (m : string) :
  worldFree (profileModule drv d r p m).
Proof.
  unfold profileModule.
  repeat (apply worldFree_bind; [|intros ?]); auto with world.
  destruct (negb (system_nvcc drv d r m =? 0)); auto with world.
Qed.

Lemma worldFree_profileRepetition (d : Z) (model : NNmodel) (p : Profile) (r : nat) :
  worldFree (profileRepetition drv d model p r).
Proof.
  unfold profileRepetition.
  do 3 (apply worldFree_bind; [auto with world | intros _]).
  apply worldFree_foldM. intros. apply worldFree_profileModule.
Qed.

(** The outcome of a pass does not depend on the world it starts in. *)
Lemma worldFree_optimizeBlockSize (d : Z) (model : NNmodel) :
  worldFree (optimize d model).
Proof.
  unfold optimizeBlockSize.
  do 3 (apply worldFree_bind; [auto with world | intros _]).
  apply worldFree_bind;
    [apply worldFree_foldM; intros; apply worldFree_profileRepetition | intros p].
  do 2 (apply worldFree_bind; [auto with world | intros _]).
  apply worldFree_bind; [apply worldFree_cudaGetDeviceProperties | intros deviceProps].
  match goal with
  | |- worldFree (match ?o with _ => _ end) => destruct o
  end; auto with world.
Qed.

Lemma profileModule_liveContexts (d : Z) (r : nat) (p : Profile) (m : string) (w : World) :
  liveContexts (snd (profileModule drv d r p m w)) = liveContexts w.
Proof.
  unfold profileModule, bind, modify. simpl.
  destruct (negb (system_nvcc drv d r m =? 0)); simpl; [reflexivity|].
  rewrite CHECK_CU_ERRORS_run.
  destruct (cuModuleLoad drv d r m =? 0); simpl; [|reflexivity].
  rewrite CHECK_CU_ERRORS_run.
  destruct (cuModuleUnload drv d r m =? 0); reflexivity.
Qed.

Lemma profileModule_generated (d : Z) (r : nat) (p : Profile) (m : string) (w : World) :
  generated (snd (profileModule drv d r p m w)) = generated w.
Proof.
  unfold profileModule, bind, modify. simpl.
  destruct (negb (system_nvcc drv d r m =? 0)); simpl; [reflexivity|].
  rewrite CHECK_CU_ERRORS_run.
  destruct (cuModuleLoad drv d r m =? 0); simpl; [|reflexivity].
  rewrite CHECK_CU_ERRORS_run.
  destruct (cuModuleUnload drv d r m =? 0); reflexivity.
Qed.

Lemma profileRepetition_liveContexts (d : Z) (model : NNmodel) (p : Profile) (r : nat)
      (w : World) :
  liveContexts (snd (profileRepetition drv d model p r w)) = liveContexts w.
Proof.
  unfold profileRepetition, bind, modify. simpl.
  rewrite CHECK_CU_ERRORS_run.
  destruct (cuCtxSetCurrent drv d r =? 0); simpl; [|reflexivity].
  rewrite (foldM_frame liveContexts); [reflexivity|].
  intros. apply profileModule_liveContexts.
Qed.

Lemma profileRepetition_generated (d : Z) (model : NNmodel) (p : Profile) (r : nat)
      (w : World) :
  generated (snd (profileRepetition drv d model p r w))
  = generated w ++ [(d, map (fill (repBlockSizes r)) allKernels)].
Proof.
  unfold profileRepetition, bind, modify. simpl.
  rewrite CHECK_CU_ERRORS_run.
  destruct (cuCtxSetCurrent drv d r =? 0); simpl; [|reflexivity].
  rewrite (foldM_frame generated); [reflexivity|].
  intros. apply profileModule_generated.
Qed.

(** The world in which the profiling loop of a pass starts. *)
Lemma optimizeBlockSize_run (d : Z) (model : NNmodel) (w : World) :
  optimize d model w
  = if negb (cuDeviceGet drv d =? 0) then (Throw (CudaDriverError (cuDeviceGet drv d)), w)
    else if negb (cuCtxCreate drv d =? 0)
    then (Throw (CudaDriverError (cuCtxCreate drv d)), w)
    else
      match foldM (profileRepetition drv d model) [0%nat; 1%nat]
                  (uninitialised drv, fill None)
                  {| liveContexts := d :: liveContexts w;
                     currentContext := Some d;
                     loadedModules := loadedModules w;
                     generated := generated w;
                     compiled := compiled w |} with
      | (Throw e, w2) => (Throw e, w2)
      | (Ok p, w2) =>
          if negb (cuCtxDestroy drv d =? 0)
          then (Throw (CudaDriverError (cuCtxDestroy drv d)), w2)
          else
            let w3 := {| liveContexts := removeZ d (liveContexts w2);
                         currentContext := None;
                         loadedModules := loadedModules w2;
                         generated := generated w2;
                         compiled := compiled w2 |} in
            match cudaGetDeviceProperties drv d w3 with
            | (Throw e, w4) => (Throw e, w4)
            | (Ok deviceProps, w4) =>
                match optimiseKernels
                        deviceProps (fst (getDeviceArchitectureProperties deviceProps))
                        (calcGroupSizes pre post dyn INDIVIDUAL SPARSE model (fill []))
                        (fst p) allKernels (snd p) (fill 0) with
                | None => (Throw Undefined, w4)
                | Some out => (Ok out, w4)
                end
            end
      end.
Proof.
  unfold optimizeBlockSize.
  unfold bind at 1. rewrite CHECK_CU_ERRORS_run.
  destruct (cuDeviceGet drv d =? 0); cbn [negb]; [|reflexivity].
  unfold bind at 1. rewrite CHECK_CU_ERRORS_run.
  destruct (cuCtxCreate drv d =? 0); cbn [negb]; [|reflexivity].
  unfold bind at 1. unfold modify at 1.
  unfold bind at 1.
  match goal with
  | |- match ?f with _ => _ end = _ => destruct f as [[p|e] w2]
  end; [|reflexivity].
  unfold bind at 1. rewrite CHECK_CU_ERRORS_run.
  destruct (cuCtxDestroy drv d =? 0); cbn [negb]; [|reflexivity].
  unfold bind at 1. unfold modify at 1.
  unfold bind at 1. cbv zeta.
  match goal with
  | |- match ?f with _ => _ end = _ => destruct f as [[deviceProps|e] w4]
  end; [|reflexivity].
  match goal with
  | |- match ?f with _ => _ end _ = _ => destruct f
  end; reflexivity.
Qed.

(** The two repetitions of a pass that both complete ran the code generator
    with every block size at 32 and then with every block size at 64. *)
Lemma profileLoop_generated (d : Z) (model : NNmodel) (s p : Profile) (w : World) :
  fst (foldM (profileRepetition drv d model) [0%nat; 1%nat] s w) = Ok p ->
  generated (snd (foldM (profileRepetition drv d model) [0%nat; 1%nat] s w))
  = generated w ++ probesOf d.
Proof.
  simpl. unfold bind.
  pose proof (profileRepetition_generated d model s 0%nat w) as G0.
  destruct (profileRepetition drv d model s 0%nat w) as [[p0|e0] w1]; simpl in *;
    [|discriminate].
  pose proof (profileRepetition_generated d model p0 1%nat w1) as G1.
  destruct (profileRepetition drv d model p0 1%nat w1) as [[p1|e1] w2]; simpl in *;
    [|discriminate].
  intros _. rewrite G1, G0, <- app_assoc. reflexivity.
Qed.

(** A pass that returns ran the code generator twice, with every block
    size at 32 and then with every block size at 64, and left the contexts
    as they were, its own removed. *)
Lemma optimizeBlockSize_returns (d : Z) (model : NNmodel) (w : World)
      (out : KernelOptimisationOutput * KernelBlockSize) :
  fst (optimize d model w) = Ok out ->
  generated (snd (optimize d model w)) = generated w ++ probesOf d
  /\ liveContexts (snd (optimize d model w)) = removeZ d (d :: liveContexts w).
Proof.
  rewrite optimizeBlockSize_run.
  destruct (negb (cuDeviceGet drv d =? 0)); [discriminate|].
  destruct (negb (cuCtxCreate drv d =? 0)); [discriminate|].
  match goal with
  | |- context [foldM ?b ?l ?s ?w1] =>
      pose proof (foldM_frame liveContexts b (profileRepetition_liveContexts d model)
                              l s w1) as Hlive;
      pose proof (fun p => profileLoop_generated d model s p w1) as Hgen;
      destruct (foldM b l s w1) as [[p|e] w2]
  end; [|discriminate].
  specialize (Hgen p eq_refl). simpl in Hlive, Hgen.
  destruct (negb (cuCtxDestroy drv d =? 0)); [discriminate|]. cbv zeta.
  match goal with
  | |- context [cudaGetDeviceProperties drv d ?w3] =>
      pose proof (cudaGetDeviceProperties_world d w3) as Hw;
      destruct (cudaGetDeviceProperties drv d w3) as [[deviceProps|e] w4]
  end; [|discriminate].
  simpl in Hw. subst w4.
  destruct (optimiseKernels _ _ _ _ _ _ _); [|discriminate].
  intros _. simpl. rewrite Hlive, Hgen. simpl.
  split; reflexivity.
Qed.

(** A pass that throws the build failure leaves its context in the world. *)
Lemma optimizeBlockSize_build_failure (d : Z) (model : NNmodel) (w : World) :
  fst (optimize d model w) = Throw BuildFailure ->
  liveContexts (snd (optimize d model w)) = d :: liveContexts w.
Proof.
  rewrite optimizeBlockSize_run.
  destruct (negb (cuDeviceGet drv d =? 0)); [discriminate|].
  destruct (negb (cuCtxCreate drv d =? 0)); [discriminate|].
  match goal with
  | |- context [foldM ?b ?l ?s ?w1] =>
      pose proof (foldM_frame liveContexts b (profileRepetition_liveContexts d model)
                              l s w1) as Hlive;
      destruct (foldM b l s w1) as [[p|e] w2]
  end; simpl in Hlive.
  - destruct (negb (cuCtxDestroy drv d =? 0)); [discriminate|]. cbv zeta.
    match goal with
    | |- context [cudaGetDeviceProperties drv d ?w3] =>
        pose proof (cudaGetDeviceProperties_world d w3) as Hw;
        destruct (cudaGetDeviceProperties drv d w3) as [[deviceProps|e] w4] eqn:E
    end.
    + destruct (optimiseKernels _ _ _ _ _ _ _); discriminate.
    + simpl. intros He. exfalso.
      unfold cudaGetDeviceProperties in E.
      destruct (d <? 0); [inversion E; subst; discriminate|].
      destruct (nth_error (devices drv) (Z.to_nat d)); [|inversion E; subst; discriminate].
      unfold bind in E. rewrite CHECK_CUDA_ERRORS_run in E.
      destruct (cudaGetDeviceProperties_status drv d =? 0);
        inversion E; subst; discriminate.
  - intros _. exact Hlive.
Qed.

End Runs.

(** C10 on a pass whose compiler exits with status 1: the pass throws the
    build failure after one run of the code generator and one run of the
    compiler, and the context it created, that of device 0, is still
    there, while the same pass with a compiler that succeeds returns and
    leaves no context. *)
Theorem C10_context_not_released_on_build_failure :
  let failing := exOptimizeBlockSize (failingNvccDriver [deviceSM61]) 0 smallModel emptyWorld in
  let passing := exOptimizeBlockSize (goodDriver [deviceSM61]) 0 smallModel emptyWorld in
  fst failing = Throw BuildFailure
  /\ liveContexts (snd failing) = [0]
  /\ compiled (snd failing) = ["runner"%string]
  /\ (exists out, fst passing = Ok out)
  /\ liveContexts (snd passing) = [].
Proof.
  cbv zeta. split; [|split; [|split; [|split]]].
  - vm_compute. reflexivity.
  - vm_compute. reflexivity.
  - vm_compute. reflexivity.
  - destruct (exOptimizeBlockSize (goodDriver [deviceSM61]) 0 smallModel emptyWorld)
      as [[out|e] w] eqn:E.
    + exists out. reflexivity.
    + exfalso.
      assert (H : match fst (exOptimizeBlockSize (goodDriver [deviceSM61]) 0 smallModel
                                                 emptyWorld) with
                  | Ok _ => true
                  | Throw _ => false
                  end = true) by (vm_compute; reflexivity).
      rewrite E in H. discriminate H.
  - vm_compute. reflexivity.
Qed.

(* ================================================================== *)
(** * The affine model of the shared memory *)
(* ================================================================== *)

Lemma reqSharedMemBytesA_range (s1 s2 : Z) :
  0 <= reqSharedMemBytesA s1 s2 /\ reqSharedMemBytesA s1 s2 * 32 < 2 ^ 64.
Proof.
  unfold reqSharedMemBytesA.
  change (to_size_t (repBlockSizes 1 - repBlockSizes 0)) with 32.
  pose proof (to_size_t_range (s2 - s1)) as R.
  pose proof (Z.mul_div_le (to_size_t (s2 - s1)) 32 ltac:(lia)).
  split; [apply Z.div_pos; lia | lia].
Qed.

(** C5, as the code has it: the two probe block sizes are 32 and 64; slope
    and intercept are computed on unsigned 64-bit integers, the slope as
    [((s2 - s1) mod 2^64) / (64 - 32)] and the intercept as
    [(s1 - slope * 32) mod 2^64], so that the fitted line meets the first
    sample modulo 2^64; they are the exact integers [(s2 - s1) / (64 - 32)]
    and [s1 - slope * 32] whenever [s1 <= s2] and [slope * 32 <= s1]; and
    the search reads the register count of the first sample only: another
    register count in the second sample leaves its outcome unchanged.  A
    pass that returns ran the code generator twice, with every block size
    at 32 and then with every block size at 64. *)
Theorem C5_affine_fit
        (deviceProps : cudaDeviceProp) (arch : ArchProps) (groupSizes : GroupSizes)
        (krnlAttr krnlAttr' : nat -> KernelArray cudaFuncAttributes) (k : Kernel)
        (blockSize0 : Z) (entry : bool * Z) :
  let s1 := sharedSizeBytes (krnlAttr 0%nat k) in
  let s2 := sharedSizeBytes (krnlAttr 1%nat k) in
  let slope := reqSharedMemBytesA s1 s2 in
  let intercept := reqSharedMemBytesB s1 s2 in
  0 <= s1 < 2 ^ 64 ->
  0 <= s2 < 2 ^ 64 ->
  krnlAttr' 0%nat k = krnlAttr 0%nat k ->
  sharedSizeBytes (krnlAttr' 1%nat k) = s2 ->
  repBlockSizes 0 = 32 /\ repBlockSizes 1 = 64
  /\ slope = ((s2 - s1) mod 2 ^ 64) / (repBlockSizes 1 - repBlockSizes 0)
  /\ intercept = (s1 - slope * repBlockSizes 0) mod 2 ^ 64
  /\ (slope * repBlockSizes 0 + intercept) mod 2 ^ 64 = s1
  /\ (s1 <= s2 -> slope * repBlockSizes 0 <= s1 ->
      slope = (s2 - s1) / (repBlockSizes 1 - repBlockSizes 0)
      /\ intercept = s1 - slope * repBlockSizes 0)
  /\ optimiseKernel deviceProps arch groupSizes krnlAttr' k blockSize0 entry
     = optimiseKernel deviceProps arch groupSizes krnlAttr k blockSize0 entry
  /\ (forall pre post dyn INDIVIDUAL SPARSE drv deviceID model w out,
         fst (optimizeBlockSize pre post dyn INDIVIDUAL SPARSE drv deviceID model w) = Ok out ->
         generated (snd (optimizeBlockSize pre post dyn INDIVIDUAL SPARSE drv deviceID model w))
         = generated w ++ probesOf deviceID).
Proof.
  cbv zeta. intros Hs1 Hs2 E0 E1.
  set (s1 := sharedSizeBytes (krnlAttr 0%nat k)) in *.
  set (s2 := sharedSizeBytes (krnlAttr 1%nat k)) in *.
  pose proof (reqSharedMemBytesA_range s1 s2) as (HA0 & HA1).
  assert (EA : reqSharedMemBytesA s1 s2 = ((s2 - s1) mod 2 ^ 64) / 32) by reflexivity.
  assert (EB : reqSharedMemBytesB s1 s2
               = (s1 - reqSharedMemBytesA s1 s2 * 32) mod 2 ^ 64).
  { unfold reqSharedMemBytesB.
    change (repBlockSizes 0) with 32.
    rewrite (to_size_t_small (reqSharedMemBytesA s1 s2 * 32)) by lia.
    reflexivity. }
  change (repBlockSizes 0) with 32. change (repBlockSizes 1) with 64.
  change (64 - 32) with 32.
  split; [reflexivity|]. split; [reflexivity|]. split; [exact EA|].
  split; [exact EB|]. split; [|split; [|split]].
  - rewrite EB. rewrite Zplus_mod_idemp_r.
    replace (reqSharedMemBytesA s1 s2 * 32 + (s1 - reqSharedMemBytesA s1 s2 * 32))
      with s1 by lia.
    apply Z.mod_small. lia.
  - intros Hle Hfit. split.
    + rewrite EA. rewrite Z.mod_small by lia. reflexivity.
    + rewrite EB. apply Z.mod_small. lia.
  - unfold optimiseKernel. fold s1 s2. rewrite E0, E1. reflexivity.
  - intros pre post dyn INDIVIDUAL SPARSE drv deviceID model w out Hout.
    eapply optimizeBlockSize_returns. exact Hout.
Qed.

(** C5 at work: samples of 132 and 260 bytes give the slope 4 and the
    intercept 4; the second sample may report 40 or 99 registers. *)
Lemma C5_affine_fit_witness :
  let krnlAttr : nat -> KernelArray cudaFuncAttributes :=
    fun r _ => match r with
               | O => {| numRegs := 32; sharedSizeBytes := 132 |}
               | _ => {| numRegs := 40; sharedSizeBytes := 260 |}
               end in
  let krnlAttr' : nat -> KernelArray cudaFuncAttributes :=
    fun r _ => match r with
               | O => {| numRegs := 32; sharedSizeBytes := 132 |}
               | _ => {| numRegs := 99; sharedSizeBytes := 260 |}
               end in
  let arch := fst (getDeviceArchitectureProperties deviceSM61) in
  let groupSizes := exCalcGroupSizes smallModel (fill []) in
  let slope := reqSharedMemBytesA 132 260 in
  let intercept := reqSharedMemBytesB 132 260 in
  repBlockSizes 0 = 32 /\ repBlockSizes 1 = 64
  /\ slope = ((260 - 132) mod 2 ^ 64) / (repBlockSizes 1 - repBlockSizes 0)
  /\ intercept = (132 - slope * repBlockSizes 0) mod 2 ^ 64
  /\ (slope * repBlockSizes 0 + intercept) mod 2 ^ 64 = 132
  /\ (132 <= 260 -> slope * repBlockSizes 0 <= 132 ->
      slope = (260 - 132) / (repBlockSizes 1 - repBlockSizes 0)
      /\ intercept = 132 - slope * repBlockSizes 0)
  /\ optimiseKernel deviceSM61 arch groupSizes krnlAttr' KernelNeuronUpdate 0 (false, 0)
     = optimiseKernel deviceSM61 arch groupSizes krnlAttr KernelNeuronUpdate 0 (false, 0)
  /\ (forall pre post dyn INDIVIDUAL SPARSE drv deviceID model w out,
         fst (optimizeBlockSize pre post dyn INDIVIDUAL SPARSE drv deviceID model w) = Ok out ->
         generated (snd (optimizeBlockSize pre post dyn INDIVIDUAL SPARSE drv deviceID model w))
         = generated w ++ probesOf deviceID).
Proof.
  cbv zeta.
  apply (C5_affine_fit
           deviceSM61 (fst (getDeviceArchitectureProperties deviceSM61))
           (exCalcGroupSizes smallModel (fill []))
           (fun r _ => match r with
                       | O => {| numRegs := 32; sharedSizeBytes := 132 |}
                       | _ => {| numRegs := 40; sharedSizeBytes := 260 |}
                       end)
           (fun r _ => match r with
                       | O => {| numRegs := 32; sharedSizeBytes := 132 |}
                       | _ => {| numRegs := 99; sharedSizeBytes := 260 |}
                       end)
           KernelNeuronUpdate 0 (false, 0)).
  - split; evaluate.
  - split; evaluate.
  - reflexivity.
  - reflexivity.
Defined.

(** C5, as stated, fails for a kernel whose shared memory is 4096 bytes at
    32 threads and 16384 bytes at 64: the slope is 384, the exact integer
    [4096 - 384 * 32] is -8192, and the intercept the optimiser holds is
    2^64 - 8192. *)
Lemma C5_intercept_wraps :
  reqSharedMemBytesA 4096 16384 = (16384 - 4096) / (64 - 32)
  /\ reqSharedMemBytesA 4096 16384 = 384
  /\ 4096 - 384 * 32 = - 8192
  /\ reqSharedMemBytesB 4096 16384 = 2 ^ 64 - 8192.
Proof. repeat split. Qed.

(* ================================================================== *)
(** * The device with the most global memory *)
(* ================================================================== *)

Lemma nth_error_snoc {A : Type} (l : list A) (x y : A) (j : nat) :
  nth_error (l ++ [x]) j = Some y ->
  nth_error l j = Some y \/ (j = List.length l /\ y = x).
Proof.
  intros H. destruct (Nat.lt_ge_cases j (List.length l)) as [Hlt|Hge].
  - left. rewrite nth_error_app1 in H by exact Hlt. exact H.
  - right. rewrite nth_error_app2 in H by exact Hge.
    destruct (j - List.length l)%nat as [|k] eqn:E; simpl in H.
    + inversion H. split; [lia | reflexivity].
    + destruct k; discriminate H.
Qed.

Lemma nth_error_snoc_last {A : Type} (l : list A) (x : A) :
  nth_error (l ++ [x]) (List.length l) = Some x.
Proof. rewrite nth_error_app2 by lia. rewrite Nat.sub_diag. reflexivity. Qed.

Lemma nth_error_snoc_old {A : Type} (l : list A) (x y : A) (j : nat) :
  nth_error l j = Some y -> nth_error (l ++ [x]) j = Some y.
Proof.
  intros H. rewrite nth_error_app1; [exact H|].
  apply nth_error_Some. congruence.
Qed.

Lemma ordinals_of_nat (n : nat) : ordinals (Z.of_nat n) = map Z.of_nat (seq 0 n).
Proof. unfold ordinals. rewrite Nat2Z.id. reflexivity. Qed.

Section MostMemory.

Variable drv : Driver.
Hypothesis props_ok : forall d, cudaGetDeviceProperties_status drv d = 0.

Lemma mostMemoryStep_inv (seen : list cudaDeviceProp) (p : cudaDeviceProp)
      (best : Z * Z) (w : World) :
  nth_error (devices drv) (List.length seen) = Some p ->
  mostMemoryInv seen best ->
  exists best', mostMemoryStep drv best (Z.of_nat (List.length seen)) w = (Ok best', w)
                /\ mostMemoryInv (seen ++ [p]) best'.
Proof.
  intros Hp (H0 & Hmax & Hbest).
  unfold mostMemoryStep, bind.
  rewrite (cudaGetDeviceProperties_run drv _ p w (props_ok _) Hp).
  destruct (Z.gtb_spec (totalGlobalMem p) (fst best)) as [Hgt|Hle].
  - eexists. split; [reflexivity|]. unfold mostMemoryInv. simpl.
    split; [lia|]. split.
    + intros j q Hq. apply nth_error_snoc in Hq as [Hq|[_ ->]]; [|lia].
      specialize (Hmax j q Hq). lia.
    + right. exists (List.length seen), p.
      split; [reflexivity|]. split; [apply nth_error_snoc_last|].
      split; [reflexivity|]. split; [lia|].
      intros j q Hj Hq. apply nth_error_snoc in Hq as [Hq|[-> _]]; [|lia].
      specialize (Hmax j q Hq). lia.
  - exists best. split; [reflexivity|]. unfold mostMemoryInv.
    split; [exact H0|]. split.
    + intros j q Hq. apply nth_error_snoc in Hq as [Hq|[_ ->]]; [|lia].
      exact (Hmax j q Hq).
    + destruct Hbest as [Hnone|(i & q & Hi & Hq & Hm & Hpos & Hfirst)]; [left; exact Hnone|].
      right. exists i, q. split; [exact Hi|].
      split; [apply nth_error_snoc_old; exact Hq|].
      split; [exact Hm|]. split; [exact Hpos|].
      intros j q' Hj Hq'. apply nth_error_snoc in Hq' as [Hq'|[-> _]].
      * exact (Hfirst j q' Hj Hq').
      * exfalso. assert (i < List.length seen)%nat by (apply nth_error_Some; congruence).
        lia.
Qed.

Lemma mostMemory_scan (rest seen : list cudaDeviceProp) (best : Z * Z) (w : World) :
  devices drv = seen ++ rest ->
  mostMemoryInv seen best ->
  exists best',
    foldM (mostMemoryStep drv)
          (map Z.of_nat (seq (List.length seen) (List.length rest))) best w
    = (Ok best', w)
    /\ mostMemoryInv (seen ++ rest) best'.
Proof.
  revert seen best. induction rest as [|p rest IH]; intros seen best Hsplit Hinv; simpl.
  - exists best. rewrite app_nil_r. split; [reflexivity | exact Hinv].
  - assert (Hp : nth_error (devices drv) (List.length seen) = Some p).
    { rewrite Hsplit, nth_error_app2 by lia. rewrite Nat.sub_diag. reflexivity. }
    destruct (mostMemoryStep_inv seen p best w Hp Hinv) as (best1 & E1 & Hinv1).
    unfold bind. rewrite E1.
    specialize (IH (seen ++ [p]) best1).
    rewrite length_app in IH. simpl in IH.
    replace (List.length seen + 1)%nat with (S (List.length seen)) in IH by lia.
    rewrite <- app_assoc in IH. simpl in IH.
    exact (IH Hsplit Hinv1).
Qed.

End MostMemory.

(** C3, as the code has it: when the runtime calls succeed, the selection
    throws the missing-device error exactly when no device is visible; and
    when some visible device reports global memory, it returns the ordinal
    of a visible device, one with the largest total global memory and the
    first of those, every earlier device having strictly less, and
    [createBackend] without automatic choice goes on with the pass of the
    optimiser over that device. *)
Theorem C3_most_global_memory
        (pre post dyn : SynapseGroup -> Z) (INDIVIDUAL SPARSE : Z) (drv : Driver)
        (model : NNmodel) (localHostID : Z) (w : World) :
  cudaGetDeviceCount_status drv = 0 ->
  (forall d, cudaGetDeviceProperties_status drv d = 0) ->
  (fst (chooseDeviceWithMostGlobalMemory drv w) = Throw NoDeviceFound <-> devices drv = [])
  /\ (Exists (fun p => 0 < totalGlobalMem p) (devices drv) ->
      exists (i : nat) (p : cudaDeviceProp),
        chooseDeviceWithMostGlobalMemory drv w = (Ok (Z.of_nat i), w)
        /\ nth_error (devices drv) i = Some p
        /\ (forall j q, nth_error (devices drv) j = Some q ->
                        totalGlobalMem q <= totalGlobalMem p)
        /\ (forall j q, (j < i)%nat -> nth_error (devices drv) j = Some q ->
                        totalGlobalMem q < totalGlobalMem p)
        /\ createBackend pre post dyn INDIVIDUAL SPARSE drv model localHostID false w
           = (out <- optimizeBlockSize pre post dyn INDIVIDUAL SPARSE drv (Z.of_nat i) model ;;
              ret {| backendBlockSize := snd out;
                     backendLocalHostID := localHostID;
                     backendDeviceID := Z.of_nat i |}) w).
Proof.
  intros Hcount Hprops.
  assert (Hinit : mostMemoryInv [] (0, -1)).
  { unfold mostMemoryInv. simpl. split; [lia|]. split.
    - intros [|j] q Hq; discriminate Hq.
    - left. split; reflexivity. }
  destruct (mostMemory_scan drv Hprops (devices drv) [] (0, -1) w eq_refl Hinit)
    as (best & Escan & Hinv).
  simpl in Escan, Hinv.
  assert (Erun : devices drv <> [] ->
                 chooseDeviceWithMostGlobalMemory drv w = (Ok (snd best), w)).
  { intros Hne. unfold chooseDeviceWithMostGlobalMemory, bind.
    rewrite (cudaGetDeviceCount_run drv w Hcount).
    destruct (Z.eqb_spec (Z.of_nat (List.length (devices drv))) 0) as [E|_].
    - destruct (devices drv); [contradiction | discriminate E].
    - unfold ret at 1. rewrite ordinals_of_nat, Escan. reflexivity. }
  split.
  - split.
    + intros Hthrow. destruct (devices drv) as [|p l] eqn:E; [reflexivity|].
      rewrite Erun in Hthrow by discriminate. discriminate Hthrow.
    + intros Hnil. unfold chooseDeviceWithMostGlobalMemory, bind.
      rewrite (cudaGetDeviceCount_run drv w Hcount), Hnil. reflexivity.
  - intros Hex.
    assert (Hne : devices drv <> []) by (intros E; rewrite E in Hex; inversion Hex).
    destruct Hinv as (H0 & Hmax & [[_ Hzero]|(i & p & Hi & Hp & Hm & Hpos & Hfirst)]).
    + exfalso. apply Exists_exists in Hex as (q & Hin & Hq).
      apply In_nth_error in Hin as (j & Hj). specialize (Hmax j q Hj). lia.
    + exists i, p. rewrite (Erun Hne), Hi.
      split; [reflexivity|]. split; [exact Hp|].
      split; [intros j q Hq; specialize (Hmax j q Hq); lia|].
      split; [intros j q Hj Hq; specialize (Hfirst j q Hj Hq); lia|].
      unfold createBackend. unfold bind at 1. rewrite (Erun Hne), Hi. reflexivity.
Qed.

(** C3 at work: four visible devices, one of them without memory. *)
Lemma C3_most_global_memory_witness :
  let drv := goodDriver exMemoryDevices in
  (fst (chooseDeviceWithMostGlobalMemory drv emptyWorld) = Throw NoDeviceFound
   <-> devices drv = [])
  /\ (Exists (fun p => 0 < totalGlobalMem p) (devices drv) ->
      exists (i : nat) (p : cudaDeviceProp),
        chooseDeviceWithMostGlobalMemory drv emptyWorld = (Ok (Z.of_nat i), emptyWorld)
        /\ nth_error (devices drv) i = Some p
        /\ (forall j q, nth_error (devices drv) j = Some q ->
                        totalGlobalMem q <= totalGlobalMem p)
        /\ (forall j q, (j < i)%nat -> nth_error (devices drv) j = Some q ->
                        totalGlobalMem q < totalGlobalMem p)
        /\ exCreateBackend drv smallModel 0 false emptyWorld
           = (out <- exOptimizeBlockSize drv (Z.of_nat i) smallModel ;;
              ret {| backendBlockSize := snd out;
                     backendLocalHostID := 0;
                     backendDeviceID := Z.of_nat i |}) emptyWorld).
Proof.
  cbv zeta.
  apply (C3_most_global_memory
           threadsPerSource threadsPerSource threadsPerSource 64 4
           (goodDriver exMemoryDevices) smallModel 0 emptyWorld).
  - reflexivity.
  - intros d. reflexivity.
Defined.

(** Of the four devices of the example the second and the fourth have the
    largest global memory; the second is chosen. *)
Example chooseDeviceWithMostGlobalMemory_example :
  chooseDeviceWithMostGlobalMemory (goodDriver exMemoryDevices) emptyWorld
  = (Ok 1, emptyWorld).
Proof. reflexivity. Qed.

(** C3, as stated, fails when the one visible device reports no global
    memory: the list of devices is not empty, the selection does not fail,
    and what it returns is -1, the ordinal of no device. *)
Lemma C3_no_memory_device_gives_no_ordinal :
  List.length (devices (goodDriver [deviceNoMemory])) = 1%nat
  /\ chooseDeviceWithMostGlobalMemory (goodDriver [deviceNoMemory]) emptyWorld
     = (Ok (-1), emptyWorld).
Proof. split; reflexivity. Qed.

(* ================================================================== *)
(** * The optimal device *)
(* ================================================================== *)

Lemma lexLt_trans (a b c : Z * Z * Z) : lexLt a b -> lexLt b c -> lexLt a c.
Proof.
  destruct a as [[a1 a2] a3], b as [[b1 b2] b3], c as [[c1 c2] c3].
  unfold lexLt. lia.
Qed.

Lemma lexLe_lexLt_trans (a b c : Z * Z * Z) : lexLe a b -> lexLt b c -> lexLt a c.
Proof. intros [H| ->] Hbc; [eapply lexLt_trans; eauto | exact Hbc]. Qed.

Lemma lexLe_total (a b : Z * Z * Z) : ~ lexLt b a -> lexLe a b.
Proof.
  destruct a as [[a1 a2] a3], b as [[b1 b2] b3].
  unfold lexLe, lexLt. intros H.
  destruct (Z.eq_dec a1 b1) as [->|N1]; [|left; lia].
  destruct (Z.eq_dec a2 b2) as [->|N2]; [|left; lia].
  destruct (Z.eq_dec a3 b3) as [->|N3]; [right; reflexivity | left; lia].
Qed.

(** The comparison of [chooseOptimalDevice] is the strict order of the
    ranks, turned round. *)
Lemma betterDevice_spec (a b : Device) :
  betterDevice a b = true <-> lexLt (rankOf b) (rankOf a).
Proof.
  destruct a as [[[a0 a1] a2] a3], b as [[[b0 b1] b2] b3].
  unfold betterDevice, rankOf, lexLt, get0, get1, get2. simpl.
  destruct (Z.gtb_spec a2 b2); [split; [lia | reflexivity]|].
  destruct (Z.eqb_spec a2 b2); [|split; [discriminate | lia]].
  destruct (Z.gtb_spec a1 b1); [split; [lia | reflexivity]|].
  destruct (Z.eqb_spec a1 b1); [|split; [discriminate | lia]].
  destruct (Z.gtb_spec a0 b0); split; try discriminate; try reflexivity; lia.
Qed.

Section MinElement.

Context {A : Type}.
Variable comp : A -> A -> bool.
Variable key : A -> Z * Z * Z.
Hypothesis comp_spec : forall a b, comp a b = true <-> lexLt (key b) (key a).

(** [std::min_element] with such a comparison returns the first of the
    elements of the largest key. *)
Lemma min_element_from_spec (l pre : list A) (best : nat) (smallest : A) :
  nth_error pre best = Some smallest ->
  (forall j y, nth_error pre j = Some y -> lexLe (key y) (key smallest)) ->
  (forall j y, (j < best)%nat -> nth_error pre j = Some y -> lexLt (key y) (key smallest)) ->
  let r := min_element_from comp best smallest (List.length pre) l in
  nth_error (pre ++ l) (fst r) = Some (snd r)
  /\ (forall j y, nth_error (pre ++ l) j = Some y -> lexLe (key y) (key (snd r)))
  /\ (forall j y, (j < fst r)%nat -> nth_error (pre ++ l) j = Some y ->
                  lexLt (key y) (key (snd r))).
Proof.
  revert pre best smallest.
  induction l as [|x l IH]; intros pre best smallest Hbest Hmax Hfirst; simpl.
  - rewrite app_nil_r. auto.
  - replace (pre ++ x :: l) with ((pre ++ [x]) ++ l) by (rewrite <- app_assoc; reflexivity).
    replace (S (List.length pre)) with (List.length (pre ++ [x]))
      by (rewrite length_app; simpl; lia).
    destruct (comp x smallest) eqn:E.
    + apply comp_spec in E.
      apply IH.
      * apply nth_error_snoc_last.
      * intros j y Hy. apply nth_error_snoc in Hy as [Hy|[_ ->]].
        -- left. eapply lexLe_lexLt_trans; [exact (Hmax j y Hy) | exact E].
        -- right. reflexivity.
      * intros j y Hj Hy. apply nth_error_snoc in Hy as [Hy|[-> _]]; [|lia].
        eapply lexLe_lexLt_trans; [exact (Hmax j y Hy) | exact E].
    + assert (Hx : lexLe (key x) (key smallest)).
      { apply lexLe_total. intros Hlt. apply comp_spec in Hlt. congruence. }
      apply IH.
      * apply nth_error_snoc_old. exact Hbest.
      * intros j y Hy. apply nth_error_snoc in Hy as [Hy|[_ ->]];
          [exact (Hmax j y Hy) | exact Hx].
      * intros j y Hj Hy. apply nth_error_snoc in Hy as [Hy|[-> _]].
        -- exact (Hfirst j y Hj Hy).
        -- exfalso. assert (best < List.length pre)%nat by (apply nth_error_Some; congruence).
           lia.
Qed.

Lemma min_element_spec (l : list A) :
  l <> [] ->
  exists i x,
    min_element comp l = Some (i, x)
    /\ nth_error l i = Some x
    /\ (forall j y, nth_error l j = Some y -> lexLe (key y) (key x))
    /\ (forall j y, (j < i)%nat -> nth_error l j = Some y -> lexLt (key y) (key x)).
Proof.
  destruct l as [|x0 l]; [congruence|]. intros _. simpl.
  pose proof (min_element_from_spec l [x0] 0%nat x0 eq_refl) as H.
  simpl in H.
  destruct (min_element_from comp 0 x0 1 l) as [i x]. simpl in H.
  exists i, x. split; [reflexivity|].
  apply H.
  - intros [|[|j]] y Hy; simpl in Hy; try discriminate Hy.
    inversion Hy. right. reflexivity.
  - intros j y Hj. lia.
Qed.

End MinElement.

Lemma entries_sum_bound (f : bool * Z -> Z) (kernels : KernelOptimisationOutput)
      (ks : list Kernel) :
  (forall e, 0 <= f e <= 1) ->
  0 <= sumZ f (flat_map (fun k => match kernels k with Some e => [e] | None => [] end) ks)
  <= Z.of_nat (List.length ks).
Proof.
  intros Hf. induction ks as [|k ks IH]; simpl; [lia|].
  destruct (kernels k) as [e|]; simpl; [specialize (Hf e)|]; lia.
Qed.

(** The count of small kernels is computed without loss. *)
Lemma numSmallModelKernels_exact (kernels : KernelOptimisationOutput) :
  numSmallModelKernels kernels = countSmall kernels.
Proof.
  unfold numSmallModelKernels, countSmall.
  pose proof (entries_sum_bound (fun e => if fst e then 1 else 0) kernels allKernels) as B.
  fold (entries kernels) in B. simpl List.length in B.
  assert (Hf : forall e : bool * Z, 0 <= (if fst e then 1 else 0) <= 1).
  { intros [[] ?]; simpl; lia. }
  specialize (B Hf).
  rewrite (accumulate_int_exact (fun e : bool * Z => if fst e then 1 else 0)).
  - apply to_size_t_small. lia.
  - apply Forall_forall. intros e _. apply Hf.
  - lia.
Qed.

(** The total occupancy is the sum of the occupancies as long as that sum
    is below 2^31. *)
Lemma totalOccupancy_exact (kernels : KernelOptimisationOutput) :
  Forall (fun e : bool * Z => 0 <= snd e) (entries kernels) ->
  sumOccupancy kernels < 2 ^ 31 ->
  totalOccupancy kernels = sumOccupancy kernels.
Proof.
  intros Hpos Hsum. unfold totalOccupancy, sumOccupancy in *.
  rewrite (accumulate_int_exact (fun e : bool * Z => snd e)); auto.
  apply to_size_t_small. split; [apply sumZ_nonneg; exact Hpos | lia].
Qed.

Section Ranking.

Variables pre post dyn : SynapseGroup -> Z.
Variables INDIVIDUAL SPARSE : Z.
Variable drv : Driver.
Variable model : NNmodel.
Variable outs : nat -> KernelOptimisationOutput * KernelBlockSize.

Hypothesis props_ok : forall d, cudaGetDeviceProperties_status drv d = 0.
Hypothesis passes_ok :
  forall j p, nth_error (devices drv) j = Some p ->
              fst (optimizeBlockSize pre post dyn INDIVIDUAL SPARSE drv (Z.of_nat j) model
                                     emptyWorld)
              = Ok (outs j).

Lemma rankDevice_run (j : nat) (p : cudaDeviceProp) (ranked : list Device) (w : World) :
  nth_error (devices drv) j = Some p ->
  exists w',
    rankDevice pre post dyn INDIVIDUAL SPARSE drv model ranked (Z.of_nat j) w
    = (Ok (ranked ++ [rankedDevice (devices drv) outs j]), w').
Proof.
  intros Hp. unfold rankDevice. unfold bind at 1.
  rewrite (cudaGetDeviceProperties_run drv j p w (props_ok _) Hp).
  unfold bind at 1.
  pose proof (worldFree_optimizeBlockSize pre post dyn INDIVIDUAL SPARSE drv
                (Z.of_nat j) model w emptyWorld) as Hfree.
  rewrite (passes_ok j p Hp) in Hfree.
  destruct (optimizeBlockSize pre post dyn INDIVIDUAL SPARSE drv (Z.of_nat j) model w)
    as [[out|e] w'] eqn:E; simpl in Hfree; [|discriminate Hfree].
  inversion Hfree; subst out.
  exists w'. unfold ret, rankedDevice.
  rewrite (nth_error_nth _ _ _ Hp). reflexivity.
Qed.

Lemma rankDevices_run (n i : nat) (ranked : list Device) (w : World) :
  (i + n = List.length (devices drv))%nat ->
  exists w',
    foldM (rankDevice pre post dyn INDIVIDUAL SPARSE drv model)
          (map Z.of_nat (seq i n)) ranked w
    = (Ok (ranked ++ map (rankedDevice (devices drv) outs) (seq i n)), w').
Proof.
  revert i ranked w. induction n as [|n IH]; intros i ranked w Hlen; simpl.
  - exists w. rewrite app_nil_r. reflexivity.
  - assert (Hi : (i < List.length (devices drv))%nat) by lia.
    destruct (nth_error (devices drv) i) as [p|] eqn:Hp;
      [|apply nth_error_None in Hp; lia].
    destruct (rankDevice_run i p ranked w Hp) as (w1 & E1).
    unfold bind. rewrite E1.
    destruct (IH (S i) (ranked ++ [rankedDevice (devices drv) outs i]) w1 ltac:(lia))
      as (w2 & E2).
    exists w2. rewrite E2, <- app_assoc. reflexivity.
Qed.

End Ranking.

(* ================================================================== *)
(** * Bounds on what a pass records *)
(* ================================================================== *)

Lemma applySharedMemLimit_range (deviceProps : cudaDeviceProp) (req l : Z) :
  0 <= sharedMemPerMultiprocessor deviceProps -> 0 <= req -> 0 <= l <= 32 ->
  0 <= applySharedMemLimit deviceProps req l <= 32.
Proof.
  intros Hs Hreq Hl. unfold applySharedMemLimit.
  destruct (negb (req =? 0)); [|lia].
  rewrite size_t_min_spec.
  pose proof (div_nonneg (sharedMemPerMultiprocessor deviceProps) req Hs Hreq). lia.
Qed.

Lemma smBlockLimitNoSharedMem_le (deviceProps : cudaDeviceProp) (arch : ArchProps)
      (reqNumRegs blockWarps limit : Z) :
  smBlockLimitNoSharedMem deviceProps arch reqNumRegs blockWarps = Some limit ->
  limit <= maxBlocksPerSM arch.
Proof.
  unfold smBlockLimitNoSharedMem. intros H.
  destruct (major deviceProps =? 1).
  - match type of H with
    | (if ?c then _ else _) = _ => destruct c; [discriminate|]
    end.
    injection H as <-. rewrite !size_t_min_spec. lia.
  - injection H as <-. rewrite size_t_min_spec. lia.
Qed.

Lemma candidateLimit_range (deviceProps : cudaDeviceProp) (reqNumRegs A B blockWarps limit : Z) :
  deviceInRange deviceProps ->
  candidateLimit deviceProps (fst (getDeviceArchitectureProperties deviceProps))
                 reqNumRegs A B blockWarps = Some limit ->
  0 <= limit <= 32.
Proof.
  intros (_ & _ & _ & _ & Hsm & _) H.
  pose proof (arch_bounds deviceProps) as (_ & _ & _ & Hmb). cbv zeta in Hmb.
  unfold candidateLimit, smBlockLimit in H.
  destruct (smBlockLimitNoSharedMem _ _ _ _) as [l|] eqn:E; [|discriminate].
  injection H as <-.
  pose proof (smBlockLimitNoSharedMem_le _ _ _ _ _ E) as Hle.
  assert (Hge : 0 <= l).
  { eapply smBlockLimitNoSharedMem_nonneg; [|exact E]. lia. }
  apply applySharedMemLimit_range; [lia | | lia].
  unfold estimateSharedMem. apply to_size_t_range.
Qed.

Lemma occupancy_bound (deviceProps : cudaDeviceProp) (blockWarps limit : Z) :
  deviceInRange deviceProps ->
  1 <= blockWarps < maxBlockWarps deviceProps ->
  0 <= limit <= 32 ->
  0 <= occupancy deviceProps blockWarps limit <= occupancyBound deviceProps.
Proof.
  intros Hdev Hb Hl.
  pose proof (maxBlockWarps_small deviceProps Hdev) as Hmw.
  destruct Hdev as (_ & _ & Hmp & _).
  unfold occupancy, occupancyBound.
  assert (H1 : 0 <= blockWarps * limit <= maxBlockWarps deviceProps * 32) by nia.
  assert (H2 : 0 <= blockWarps * limit * multiProcessorCount deviceProps
               <= maxBlockWarps deviceProps * 32 * multiProcessorCount deviceProps).
  { split; [apply Z.mul_nonneg_nonneg; lia | apply Z.mul_le_mono_nonneg_r; lia]. }
  assert (H3 : maxBlockWarps deviceProps * 32 * multiProcessorCount deviceProps
               <= 2 ^ 26 * 32 * 2 ^ 31).
  { apply Z.mul_le_mono_nonneg; lia. }
  rewrite (to_size_t_small (blockWarps * limit)) by lia.
  rewrite (to_size_t_small (multiProcessorCount deviceProps)) by lia.
  rewrite to_size_t_small by lia.
  lia.
Qed.

Section SearchBound.

Variable deviceProps : cudaDeviceProp.
Variable sizes : list Z.
Variables reqNumRegs A B : Z.
Hypothesis device_ok : deviceInRange deviceProps.

Local Abbreviation arch := (fst (getDeviceArchitectureProperties deviceProps)).

(** The search keeps the recorded occupancy within the bound of the device. *)
Lemma searchLoop_bound (fuel : nat) :
  forall (b : Z) (st st' : Search),
    1 <= b ->
    (fuel <= Z.to_nat (maxBlockWarps deviceProps - b))%nat ->
    0 <= snd (record st) <= occupancyBound deviceProps ->
    searchLoop deviceProps arch sizes reqNumRegs A B fuel b st = Some st' ->
    0 <= snd (record st') <= occupancyBound deviceProps.
Proof.
  induction fuel as [|fuel IH]; intros b st st' Hb Hfuel Hst H; simpl in H.
  - injection H as <-. exact Hst.
  - assert (Hbr : 1 <= b < maxBlockWarps deviceProps) by lia.
    pose proof (maxBlockWarps_small deviceProps device_ok) as Hmw.
    unfold searchBody in H.
    destruct (candidateLimit deviceProps arch reqNumRegs A B b) as [l|] eqn:El;
      [|discriminate].
    pose proof (candidateLimit_range _ _ _ _ _ _ device_ok El) as Hl.
    pose proof (occupancy_bound deviceProps b l device_ok Hbr Hl) as Hocc.
    destruct (calcReqBlocks sizes (to_size_t (b * warpSize))
              <=? concurrentBlocks deviceProps l).
    + injection H as <-. simpl. exact Hocc.
    + rewrite (to_size_t_small (b + 1)) in H by lia.
      destruct (occupancy deviceProps b l >? snd (record st));
        (eapply IH; [| |  | exact H]; [lia | lia | simpl; auto]).
Qed.

End SearchBound.

Lemma set_same {X : Type} (a : KernelArray X) (k : Kernel) (v : X) : set a k v k = v.
Proof. unfold set. destruct k; reflexivity. Qed.

Lemma set_at {X : Type} (a : KernelArray X) (k k' : Kernel) (v : X) :
  set a k v k' = v \/ set a k v k' = a k'.
Proof. unfold set. destruct (Kernel_eqb k k'); auto. Qed.

(** The searches over the kernels keep every entry within the bound. *)
Lemma optimiseKernels_bound (deviceProps : cudaDeviceProp) (groupSizes : GroupSizes)
      (krnlAttr : nat -> KernelArray cudaFuncAttributes) (ks : list Kernel) :
  deviceInRange deviceProps ->
  forall (kernels : KernelOptimisationOutput) (blockSize : KernelBlockSize)
         (out : KernelOptimisationOutput * KernelBlockSize),
    (forall k, entryBounded (occupancyBound deviceProps) (kernels k)) ->
    optimiseKernels deviceProps (fst (getDeviceArchitectureProperties deviceProps))
                    groupSizes krnlAttr ks kernels blockSize = Some out ->
    forall k, entryBounded (occupancyBound deviceProps) (fst out k).
Proof.
  intros Hdev. induction ks as [|k0 ks IH]; intros kernels blockSize out Hk H; simpl in H.
  - injection H as <-. exact Hk.
  - destruct (kernels k0) as [entry|] eqn:E0; [|eapply IH; eauto].
    destruct (optimiseKernel _ _ _ _ _ _ _) as [s|] eqn:Es; [|discriminate].
    eapply IH; [|exact H].
    intros k. destruct (set_at kernels k0 k (Some (record s))) as [-> | ->]; [|apply Hk].
    simpl. unfold optimiseKernel, searchKernel in Es.
    eapply searchLoop_bound; [exact Hdev | | | | exact Es]; [lia | lia |].
    simpl. specialize (Hk k0). rewrite E0 in Hk. exact Hk.
Qed.

Lemma foldM_invariant {A S : Type} (P : S -> Prop) (body : S -> A -> M S) :
  (forall s x w s' w', P s -> body s x w = (Ok s', w') -> P s') ->
  forall l s w s' w', P s -> foldM body l s w = (Ok s', w') -> P s'.
Proof.
  intros Hb. induction l as [|x l IH]; intros s w s' w' Hs H; simpl in H.
  - inversion H; subst. exact Hs.
  - unfold bind in H. destruct (body s x w) as [[s1|e] w1] eqn:E; [|discriminate].
    eapply IH; [|exact H]. eapply Hb; eauto.
Qed.

Section ProfileEntries.

Variables pre post dyn : SynapseGroup -> Z.
Variables INDIVIDUAL SPARSE : Z.
Variable drv : Driver.

Lemma emplace_fresh (kernels : KernelOptimisationOutput) (k : Kernel) :
  (forall k', kernels k' = None \/ kernels k' = Some (false, 0)) ->
  forall k', emplace kernels k k' = None \/ emplace kernels k k' = Some (false, 0).
Proof.
  intros H k'. unfold emplace.
  destruct (kernels k); [apply H|].
  destruct (set_at kernels k k' (Some (false, 0))) as [-> | ->]; [right; reflexivity | apply H].
Qed.

Lemma queryKernels_fresh (d : Z) (r : nat) (m : string) (p : Profile) :
  freshEntries p -> freshEntries (queryKernels drv d r m p).
Proof.
  unfold queryKernels. generalize allKernels. intros ks. revert p.
  induction ks as [|k ks IH]; intros p Hp; simpl; [exact Hp|].
  apply IH. destruct (cuModuleGetFunction drv d r m k =? CUDA_SUCCESS); [|exact Hp].
  unfold freshEntries. simpl. apply emplace_fresh. exact Hp.
Qed.

Lemma profileModule_value (d : Z) (r : nat) (p p' : Profile) (m : string) (w w' : World) :
  profileModule drv d r p m w = (Ok p', w') -> p' = queryKernels drv d r m p.
Proof.
  unfold profileModule, bind, modify. simpl.
  destruct (negb (system_nvcc drv d r m =? 0)); simpl; [discriminate|].
  rewrite CHECK_CU_ERRORS_run.
  destruct (cuModuleLoad drv d r m =? 0); simpl; [|discriminate].
  rewrite CHECK_CU_ERRORS_run.
  destruct (cuModuleUnload drv d r m =? 0); simpl; [|discriminate].
  unfold ret. intros H. inversion H. reflexivity.
Qed.

Lemma profileRepetition_fresh (d : Z) (model : NNmodel) (p p' : Profile) (r : nat)
      (w w' : World) :
  freshEntries p ->
  profileRepetition drv d model p r w = (Ok p', w') ->
  freshEntries p'.
Proof.
  intros Hp. unfold profileRepetition, bind, modify. simpl.
  rewrite CHECK_CU_ERRORS_run.
  destruct (cuCtxSetCurrent drv d r =? 0); simpl; [|discriminate].
  apply foldM_invariant; [|exact Hp].
  intros s x w1 s' w1' Hs H. apply profileModule_value in H. subst s'.
  apply queryKernels_fresh. exact Hs.
Qed.

(** The entries of a pass that returns are within the bound of its device. *)
Lemma optimizeBlockSize_bound (j : nat) (deviceProps : cudaDeviceProp) (model : NNmodel)
      (w : World) (out : KernelOptimisationOutput * KernelBlockSize) :
  cudaGetDeviceProperties_status drv (Z.of_nat j) = 0 ->
  nth_error (devices drv) j = Some deviceProps ->
  deviceInRange deviceProps ->
  0 <= occupancyBound deviceProps ->
  fst (optimizeBlockSize pre post dyn INDIVIDUAL SPARSE drv (Z.of_nat j) model w) = Ok out ->
  forall k, entryBounded (occupancyBound deviceProps) (fst out k).
Proof.
  intros Hs Hp Hdev Hb. rewrite optimizeBlockSize_run.
  destruct (negb (cuDeviceGet drv (Z.of_nat j) =? 0)); [discriminate|].
  destruct (negb (cuCtxCreate drv (Z.of_nat j) =? 0)); [discriminate|].
  match goal with
  | |- context [foldM ?b ?l ?s ?w1] =>
      pose proof (fun s' w' (H : foldM b l s w1 = (Ok s', w')) =>
                    foldM_invariant freshEntries b
                      (fun s0 x w0 s1 w0' Hs0 H0 =>
                         profileRepetition_fresh (Z.of_nat j) model s0 s1 x w0 w0' Hs0 H0)
                      l s w1 s' w' (fun k => or_introl eq_refl) H) as Hfresh;
      destruct (foldM b l s w1) as [[p|e] w2]
  end; [|discriminate].
  specialize (Hfresh p w2 eq_refl).
  destruct (negb (cuCtxDestroy drv (Z.of_nat j) =? 0)); [discriminate|]. cbv zeta.
  rewrite (cudaGetDeviceProperties_run drv j deviceProps _ Hs Hp).
  destruct (optimiseKernels _ _ _ _ _ _ _) as [out'|] eqn:E; [|discriminate].
  simpl. intros H. inversion H; subst out'.
  eapply optimiseKernels_bound; [exact Hdev | | exact E].
  intros k. destruct (Hfresh k) as [-> | ->]; simpl; lia.
Qed.

End ProfileEntries.

Lemma entries_bounded (bound : Z) (kernels : KernelOptimisationOutput) :
  (forall k, entryBounded bound (kernels k)) ->
  Forall (fun e : bool * Z => 0 <= snd e <= bound) (entries kernels).
Proof.
  intros H. unfold entries. apply Forall_flat_map, Forall_forall. intros k _.
  specialize (H k). destruct (kernels k); simpl in *; auto.
Qed.

Lemma sumZ_bounded {X : Type} (f : X -> Z) (bound : Z) (l : list X) :
  Forall (fun x => 0 <= f x <= bound) l ->
  0 <= sumZ f l <= Z.of_nat (List.length l) * bound.
Proof. induction 1; simpl List.length; simpl sumZ; lia. Qed.

Lemma entries_length (kernels : KernelOptimisationOutput) :
  (List.length (entries kernels) <= 8)%nat.
Proof.
  unfold entries.
  assert (G : forall ks,
             (List.length (flat_map (fun k => match kernels k with
                                              | Some e => [e]
                                              | None => []
                                              end) ks) <= List.length ks)%nat).
  { induction ks as [|k ks IH]; simpl; [lia|].
    destruct (kernels k); simpl; lia. }
  apply (G allKernels).
Qed.

(** The total occupancy of a pass within the bound is exact on a device
    that can be ranked. *)
Lemma totalOccupancy_of_bounded (bound : Z) (kernels : KernelOptimisationOutput) :
  0 <= bound -> 8 * bound < 2 ^ 31 ->
  (forall k, entryBounded bound (kernels k)) ->
  totalOccupancy kernels = sumOccupancy kernels.
Proof.
  intros Hb H8 Hk.
  pose proof (entries_bounded bound kernels Hk) as HF.
  pose proof (sumZ_bounded (fun e : bool * Z => snd e) bound _ HF) as HS.
  pose proof (entries_length kernels) as HL.
  apply totalOccupancy_exact.
  - eapply Forall_impl; [|exact HF]. intros e He. simpl in He. lia.
  - unfold sumOccupancy. nia.
Qed.

Lemma nth_error_map_seq {X : Type} (f : nat -> X) (n j : nat) (y : X) :
  nth_error (map f (seq 0 n)) j = Some y -> (j < n)%nat /\ y = f j.
Proof.
  intros H.
  assert (Hj : (j < n)%nat).
  { assert (Hl : (j < List.length (map f (seq 0 n)))%nat)
      by (apply nth_error_Some; congruence).
    rewrite length_map, length_seq in Hl. exact Hl. }
  split; [exact Hj|].
  rewrite nth_error_map, (nth_error_nth' _ 0%nat) in H
    by (rewrite length_seq; exact Hj).
  rewrite seq_nth in H by exact Hj. simpl in H. inversion H. reflexivity.
Qed.

Lemma nth_error_map_seq_at {X : Type} (f : nat -> X) (n j : nat) :
  (j < n)%nat -> nth_error (map f (seq 0 n)) j = Some (f j).
Proof.
  intros Hj. rewrite nth_error_map, (nth_error_nth' _ 0%nat)
    by (rewrite length_seq; exact Hj).
  rewrite seq_nth by exact Hj. reflexivity.
Qed.

Lemma occupancyBound_nonneg (deviceProps : cudaDeviceProp) :
  deviceInRange deviceProps -> 0 <= occupancyBound deviceProps.
Proof.
  intros (Htb & _ & Hmp & _). unfold occupancyBound, maxBlockWarps, warpSize.
  rewrite to_size_t_small by lia.
  pose proof (Z.div_pos (maxThreadsPerBlock deviceProps) 32 ltac:(lia) ltac:(lia)).
  nia.
Qed.

(** The rank the selection compares is the rank of the statement: the
    count of small kernels, the sum of the occupancies and major * 10 + minor. *)
Lemma rankedDevice_rank
      (pre post dyn : SynapseGroup -> Z) (INDIVIDUAL SPARSE : Z) (drv : Driver)
      (model : NNmodel) (outs : nat -> KernelOptimisationOutput * KernelBlockSize)
      (j : nat) (q : cudaDeviceProp) :
  cudaGetDeviceProperties_status drv (Z.of_nat j) = 0 ->
  nth_error (devices drv) j = Some q ->
  deviceRankable q ->
  fst (optimizeBlockSize pre post dyn INDIVIDUAL SPARSE drv (Z.of_nat j) model emptyWorld)
  = Ok (outs j) ->
  rankOf (rankedDevice (devices drv) outs j)
  = (countSmall (fst (outs j)), sumOccupancy (fst (outs j)), major q * 10 + minor q).
Proof.
  intros Hs Hq (Hdev & H8 & Hv1 & Hv2) Hout.
  unfold rankOf, rankedDevice. cbv zeta. simpl.
  rewrite (nth_error_nth _ _ _ Hq).
  rewrite numSmallModelKernels_exact.
  rewrite (to_int_small (major q * 10)) by exact Hv1.
  rewrite to_int_small by exact Hv2.
  rewrite (totalOccupancy_of_bounded (occupancyBound q)); [reflexivity | | exact H8 |].
  - apply occupancyBound_nonneg. exact Hdev.
  - eapply optimizeBlockSize_bound; eauto.
    apply occupancyBound_nonneg. exact Hdev.
Qed.

(** C1: with automatic choice, when the runtime calls succeed, every
    visible device can be ranked without loss and the pass of the optimiser
    over every device returns, the selection returns the ordinal of a
    visible device whose rank (count of small kernels, then sum of the
    occupancies of the kernels, then major * 10 + minor) is the largest in
    the lexicographic order and which is the first with that rank: no
    device has a greater rank and every earlier device has a strictly
    smaller one.  The block sizes returned, and those of the backend, are
    the ones the pass over that device produced. *)
Theorem C1_optimal_device
        (pre post dyn : SynapseGroup -> Z) (INDIVIDUAL SPARSE : Z) (drv : Driver)
        (model : NNmodel) (localHostID : Z)
        (outs : nat -> KernelOptimisationOutput * KernelBlockSize) (w : World) :
  let rank := fun (j : nat) (p : cudaDeviceProp) =>
                (countSmall (fst (outs j)), sumOccupancy (fst (outs j)),
                 major p * 10 + minor p) in
  cudaGetDeviceCount_status drv = 0 ->
  (forall d, cudaGetDeviceProperties_status drv d = 0) ->
  devices drv <> [] ->
  Z.of_nat (List.length (devices drv)) < 2 ^ 31 ->
  Forall deviceRankable (devices drv) ->
  (forall j p, nth_error (devices drv) j = Some p ->
               fst (optimizeBlockSize pre post dyn INDIVIDUAL SPARSE drv (Z.of_nat j) model
                                      emptyWorld)
               = Ok (outs j)) ->
  exists (i : nat) (p : cudaDeviceProp) (w' : World),
    chooseOptimalDevice pre post dyn INDIVIDUAL SPARSE drv model w
    = (Ok (Z.of_nat i, snd (outs i)), w')
    /\ createBackend pre post dyn INDIVIDUAL SPARSE drv model localHostID true w
       = (Ok {| backendBlockSize := snd (outs i);
                backendLocalHostID := localHostID;
                backendDeviceID := Z.of_nat i |}, w')
    /\ nth_error (devices drv) i = Some p
    /\ (forall j q, nth_error (devices drv) j = Some q -> lexLe (rank j q) (rank i p))
    /\ (forall j q, (j < i)%nat -> nth_error (devices drv) j = Some q ->
                    lexLt (rank j q) (rank i p)).
Proof.
  cbv zeta. intros Hcount Hprops Hne Hlen Hrank Hpass.
  set (n := List.length (devices drv)) in *.
  assert (Hn : n <> 0%nat).
  { unfold n. destruct (devices drv); [congruence | discriminate]. }
  destruct (rankDevices_run pre post dyn INDIVIDUAL SPARSE drv model outs Hprops Hpass
              n 0%nat [] w ltac:(reflexivity)) as (w' & Efold).
  simpl app in Efold.
  set (ranked := map (rankedDevice (devices drv) outs) (seq 0 n)) in *.
  assert (Hranked : ranked <> []).
  { unfold ranked. destruct n; [congruence | discriminate]. }
  destruct (min_element_spec betterDevice rankOf betterDevice_spec ranked Hranked)
    as (i & x & Emin & Hx & Hmax & Hfirst).
  apply nth_error_map_seq in Hx as Hix. destruct Hix as (Hi & Ex).
  destruct (nth_error (devices drv) i) as [p|] eqn:Hp;
    [|apply nth_error_None in Hp; fold n in Hp; lia].
  assert (Echoose : chooseOptimalDevice pre post dyn INDIVIDUAL SPARSE drv model w
                    = (Ok (Z.of_nat i, snd (outs i)), w')).
  { unfold chooseOptimalDevice. unfold bind at 1.
    rewrite (cudaGetDeviceCount_run drv w Hcount). fold n.
    unfold bind at 1.
    destruct (Z.eqb_spec (Z.of_nat n) 0) as [E|_]; [lia|].
    unfold ret at 1. unfold bind at 1.
    rewrite ordinals_of_nat, Efold, Emin.
    rewrite to_int_small by (unfold fitsInt; lia).
    subst x. reflexivity. }
  assert (Hkey : forall j q, nth_error (devices drv) j = Some q ->
                             rankOf (rankedDevice (devices drv) outs j)
                             = (countSmall (fst (outs j)), sumOccupancy (fst (outs j)),
                                major q * 10 + minor q)).
  { intros j q Hq.
    apply (rankedDevice_rank pre post dyn INDIVIDUAL SPARSE drv model outs j q);
      [apply Hprops | exact Hq | | exact (Hpass j q Hq)].
    rewrite Forall_forall in Hrank. apply Hrank.
    eapply nth_error_In. exact Hq. }
  assert (Hat : forall j q, nth_error (devices drv) j = Some q ->
                            nth_error ranked j = Some (rankedDevice (devices drv) outs j)).
  { intros j q Hq. unfold ranked. apply nth_error_map_seq_at.
    apply nth_error_Some. fold n in Hq |- *. congruence. }
  exists i, p, w'.
  split; [exact Echoose|]. split.
  { unfold createBackend. unfold bind. rewrite Echoose. reflexivity. }
  split; [exact Hp|].
  rewrite <- (Hkey i p Hp), <- Ex. split.
  - intros j q Hq. rewrite <- (Hkey j q Hq). exact (Hmax j _ (Hat j q Hq)).
  - intros j q Hj Hq. rewrite <- (Hkey j q Hq). exact (Hfirst j _ Hj (Hat j q Hq)).
Qed.

(** C1 at work: three visible devices and one population of 10000
    neurons. *)
Lemma C1_optimal_device_witness :
  let drv := goodDriver exDevices in
  let outs := exOuts drv smallModel in
  let rank := fun (j : nat) (p : cudaDeviceProp) =>
                (countSmall (fst (outs j)), sumOccupancy (fst (outs j)),
                 major p * 10 + minor p) in
  exists (i : nat) (p : cudaDeviceProp) (w' : World),
    exChooseOptimalDevice drv smallModel emptyWorld = (Ok (Z.of_nat i, snd (outs i)), w')
    /\ exCreateBackend drv smallModel 0 true emptyWorld
       = (Ok {| backendBlockSize := snd (outs i);
                backendLocalHostID := 0;
                backendDeviceID := Z.of_nat i |}, w')
    /\ nth_error (devices drv) i = Some p
    /\ (forall j q, nth_error (devices drv) j = Some q -> lexLe (rank j q) (rank i p))
    /\ (forall j q, (j < i)%nat -> nth_error (devices drv) j = Some q ->
                    lexLt (rank j q) (rank i p)).
Proof.
  cbv zeta.
  apply (C1_optimal_device threadsPerSource threadsPerSource threadsPerSource 64 4
                           (goodDriver exDevices) smallModel 0
                           (exOuts (goodDriver exDevices) smallModel) emptyWorld).
  - reflexivity.
  - intros d. reflexivity.
  - intros H. discriminate H.
  - evaluate.
  - unfold exDevices. repeat (apply Forall_cons || apply Forall_nil);
      unfold deviceRankable, deviceInRange, fitsInt; repeat split; evaluate.
  - intros j p H.
    destruct j as [|[|[|j]]]; simpl in H;
      [ | | | destruct j; discriminate H];
      unfold exOuts, exOptimizeBlockSize;
      match goal with
      | |- fst ?run = _ => destruct (fst run) eqn:E; [reflexivity|]
      end;
      exfalso; vm_compute in E; discriminate E.
Defined.

(** Of the three devices of the example the first two have one small
    kernel each and the third none; the second has the larger occupancy and
    is chosen. *)
Example chooseOptimalDevice_example :
  match fst (exChooseOptimalDevice (goodDriver exDevices) smallModel emptyWorld) with
  | Ok (d, _) => Some d
  | Throw _ => None
  end = Some 1
  /\ map (fun j => rankOf (rankedDevice exDevices
                                        (exOuts (goodDriver exDevices) smallModel) j))
         [0%nat; 1%nat; 2%nat]
     = [(1, 320, 61); (1, 2560, 70); (0, 128, 10)].
Proof. split; vm_compute; reflexivity. Qed.

(* ================================================================== *)
(** * The block-size assignment of a pass *)
(* ================================================================== *)

Lemma Kernel_eqb_eq (a b : Kernel) : Kernel_eqb a b = true <-> a = b.
Proof. destruct a, b; simpl; split; intros H; try reflexivity; discriminate H. Qed.

Lemma set_other {X : Type} (a : KernelArray X) (k k' : Kernel) (v : X) :
  k <> k' -> set a k v k' = a k'.
Proof.
  intros N. unfold set. destruct (Kernel_eqb k k') eqn:E; [|reflexivity].
  apply Kernel_eqb_eq in E. contradiction.
Qed.

Lemma Kernel_eq_dec (a b : Kernel) : {a = b} + {a <> b}.
Proof. decide equality. Defined.

Lemma allKernels_NoDup : NoDup allKernels.
Proof.
  unfold allKernels.
  repeat (apply NoDup_cons; [simpl; intuition discriminate|]). apply NoDup_nil.
Qed.

Lemma allKernels_complete (k : Kernel) : In k allKernels.
Proof. destruct k; simpl; auto 10. Qed.

(** What the loop over the kernels leaves for each kernel: a kernel of the
    map gets the outcome of its own search, and any other kernel keeps its
    block size and stays out of the map. *)
Lemma optimiseKernels_at (deviceProps : cudaDeviceProp) (arch : ArchProps)
      (groupSizes : GroupSizes) (krnlAttr : nat -> KernelArray cudaFuncAttributes)
      (ks : list Kernel) :
  NoDup ks ->
  forall (kernels : KernelOptimisationOutput) (blockSize : KernelBlockSize)
         (out : KernelOptimisationOutput * KernelBlockSize),
    optimiseKernels deviceProps arch groupSizes krnlAttr ks kernels blockSize = Some out ->
    forall k,
      (In k ks ->
       match kernels k with
       | Some entry =>
           exists s, optimiseKernel deviceProps arch groupSizes krnlAttr k (blockSize k) entry
                     = Some s
                     /\ fst out k = Some (record s)
                     /\ snd out k = chosenBlockSize s
       | None => fst out k = None /\ snd out k = blockSize k
       end)
      /\ (~ In k ks -> fst out k = kernels k /\ snd out k = blockSize k).
Proof.
  induction 1 as [|k0 ks Hnotin Hnodup IH]; intros kernels blockSize out H k; simpl in H.
  - injection H as <-. simpl. split; [contradiction | auto].
  - destruct (kernels k0) as [entry|] eqn:E0.
    + destruct (optimiseKernel deviceProps arch groupSizes krnlAttr k0 (blockSize k0) entry)
        as [s|] eqn:Es; [|discriminate].
      specialize (IH _ _ _ H).
      destruct (Kernel_eq_dec k0 k) as [<-|N].
      * destruct (IH k0) as (_ & Hout). specialize (Hout Hnotin).
        rewrite !set_same in Hout. split; [|simpl; tauto].
        intros _. rewrite E0. exists s. tauto.
      * destruct (IH k) as (Hin & Hout).
        rewrite !(set_other _ k0 k) in Hin, Hout by exact N.
        split; simpl; intros Hk; [apply Hin | apply Hout]; tauto.
    + specialize (IH _ _ _ H).
      destruct (Kernel_eq_dec k0 k) as [<-|N].
      * destruct (IH k0) as (_ & Hout). specialize (Hout Hnotin).
        split; [|simpl; tauto]. intros _. rewrite E0. rewrite E0 in Hout. exact Hout.
      * destruct (IH k) as (Hin & Hout).
        split; simpl; intros Hk; [apply Hin | apply Hout]; tauto.
Qed.

(** In the assignment of a pass, a kernel that was not found keeps the
    block size 0 and a kernel that was found has the block size and the
    record of its search. *)
Lemma optimiseKernels_assignment (deviceProps : cudaDeviceProp) (arch : ArchProps)
      (groupSizes : GroupSizes) (krnlAttr : nat -> KernelArray cudaFuncAttributes)
      (kernels : KernelOptimisationOutput)
      (out : KernelOptimisationOutput * KernelBlockSize) (k : Kernel) :
  optimiseKernels deviceProps arch groupSizes krnlAttr allKernels kernels (fill 0) = Some out ->
  match kernels k with
  | Some entry =>
      exists s, optimiseKernel deviceProps arch groupSizes krnlAttr k 0 entry = Some s
                /\ fst out k = Some (record s)
                /\ snd out k = chosenBlockSize s
  | None => fst out k = None /\ snd out k = 0
  end.
Proof.
  intros H.
  destruct (optimiseKernels_at deviceProps arch groupSizes krnlAttr allKernels
              allKernels_NoDup kernels (fill 0) out H k) as (Hin & _).
  exact (Hin (allKernels_complete k)).
Qed.

(* ================================================================== *)
(** * More on the workload sizer *)
(* ================================================================== *)

(** X1: the sequence of the neuron-update kernel lists the sizes of the
    neuron groups in their order; the sequence of the initialisation kernel
    lists first the sizes of the neuron groups that need a random number
    generator or initialisation code and then, for each synapse group with
    individual weights to initialise and no sparse connectivity, the product
    of the sizes of its source and target groups, taken modulo 2^32; the
    sequence of the sparse initialisation kernel lists the source sizes of
    the synapse groups with individual weights to initialise and sparse
    connectivity. *)
Theorem X1_initialise_sequences
        (pre post dyn : SynapseGroup -> Z) (INDIVIDUAL SPARSE : Z) (model : NNmodel) :
  let groupSizes := calcGroupSizes pre post dyn INDIVIDUAL SPARSE model (fill []) in
  groupSizes KernelNeuronUpdate
  = map (fun n => to_uint (getNumNeurons n)) (getLocalNeuronGroups model)
  /\ groupSizes KernelInitialize
     = map (fun n => to_uint (getNumNeurons n))
           (filter (fun n => isSimRNGRequired n || isInitCodeRequired n)
                   (getLocalNeuronGroups model))
       ++ map (fun s => (getNumNeurons (getSrcNeuronGroup s)
                         * getNumNeurons (getTrgNeuronGroup s)) mod 2 ^ 32)
              (filter (synapseContributes INDIVIDUAL SPARSE KernelInitialize)
                      (getLocalSynapseGroups model))
  /\ groupSizes KernelInitializeSparse
     = map (fun s => to_uint (getNumNeurons (getSrcNeuronGroup s)))
           (filter (synapseContributes INDIVIDUAL SPARSE KernelInitializeSparse)
                   (getLocalSynapseGroups model)).
Proof.
  cbv zeta. rewrite !calcGroupSizes_at. unfold fill. simpl.
  unfold neuronEntries, synapseEntries, neuronContributes.
  rewrite !flat_map_none, !app_nil_r. simpl.
  rewrite flat_map_always, !flat_map_cond. auto.
Qed.

(** Two groups of 65536 neurons joined by a dense projection with individual
    weights give the initialisation kernel an entry of 0. *)
Example dense_product_wraps :
  let g := population 65536 in
  let s := {| getLearnPostCode := EmptyString; getMatrixType := 65;
              isWUVarInitRequired := true; getSrcNeuronGroup := g;
              getTrgNeuronGroup := g; isPreSynapseResetRequired := false |} in
  exCalcGroupSizes {| getLocalNeuronGroups := [g; g]; getLocalSynapseGroups := [s] |}
                   (fill []) KernelInitialize
  = [0].
Proof. reflexivity. Qed.

(* ================================================================== *)
(** * More on the required blocks and the block limit *)
(* ================================================================== *)

Lemma ceilDivide_le_2_27 (s d : Z) : 0 <= s < 2 ^ 32 -> 32 <= d -> ceilDivide s d <= 2 ^ 27.
Proof.
  intros Hs Hd. apply ceilDivide_least; [lia|]. nia.
Qed.

(** X2: for group sizes that fit [unsigned int] and block sizes from 32 on,
    the count of required blocks is the sum of the ceiling divisions, and
    does not grow with the block size, whenever the category has at most 15
    groups or the sum at the smaller block size is below 2^31. *)
Theorem X2_required_blocks_exact (sizes : list Z) (blockThreads1 blockThreads2 : Z) :
  Forall (fun s => 0 <= s < 2 ^ 32) sizes ->
  32 <= blockThreads1 <= blockThreads2 ->
  (List.length sizes <= 15)%nat \/ sumCeilDivide sizes blockThreads1 < 2 ^ 31 ->
  calcReqBlocks sizes blockThreads1 = sumCeilDivide sizes blockThreads1
  /\ calcReqBlocks sizes blockThreads2 = sumCeilDivide sizes blockThreads2
  /\ calcReqBlocks sizes blockThreads2 <= calcReqBlocks sizes blockThreads1.
Proof.
  intros Hs Hd Hsmall.
  assert (Hpos : Forall (fun s => 0 <= s) sizes).
  { eapply Forall_impl; [|exact Hs]. intros s H. cbv beta in H. lia. }
  assert (Hsum : sumCeilDivide sizes blockThreads1 < 2 ^ 31).
  { destruct Hsmall as [Hlen|H]; [|exact H].
    assert (G : sumCeilDivide sizes blockThreads1 <= Z.of_nat (List.length sizes) * 2 ^ 27).
    { clear Hlen Hpos. unfold sumCeilDivide.
      induction Hs as [|s l Hs0 Hl IH]; simpl List.length; simpl sumZ; [lia|].
      pose proof (ceilDivide_le_2_27 s blockThreads1 Hs0 ltac:(lia)). lia. }
    lia. }
  pose proof (sumCeilDivide_antitone sizes blockThreads1 blockThreads2 Hpos ltac:(lia)) as Hanti.
  rewrite !calcReqBlocks_exact by (auto; lia).
  auto.
Qed.

(** X2 at work: one population of 1000 neurons at 32 and 64 threads. *)
Lemma X2_required_blocks_exact_witness :
  calcReqBlocks [1000] 32 = sumCeilDivide [1000] 32
  /\ calcReqBlocks [1000] 64 = sumCeilDivide [1000] 64
  /\ calcReqBlocks [1000] 64 <= calcReqBlocks [1000] 32.
Proof.
  apply (X2_required_blocks_exact [1000] 32 64).
  - repeat constructor; evaluate.
  - split; evaluate.
  - left. simpl. lia.
Defined.

Lemma maxBlockWarps_range (deviceProps : cudaDeviceProp) :
  0 <= maxBlockWarps deviceProps < 2 ^ 59.
Proof.
  unfold maxBlockWarps, warpSize.
  pose proof (to_size_t_range (maxThreadsPerBlock deviceProps)) as R.
  split; [apply Z.div_pos; lia | apply Z.div_lt_upper_bound; lia].
Qed.

Lemma candidate_threads (deviceProps : cudaDeviceProp) (b : Z) :
  1 <= b < maxBlockWarps deviceProps ->
  to_size_t (b * warpSize) = b * warpSize /\ to_size_t (b + 1) = b + 1.
Proof.
  intros Hb. pose proof (maxBlockWarps_range deviceProps).
  unfold warpSize. split; apply to_size_t_small; lia.
Qed.

Lemma smBlockLimitNoSharedMem_spec (deviceProps : cudaDeviceProp) (arch : ArchProps)
      (reqNumRegs blockWarps limit : Z) :
  smBlockLimitNoSharedMem deviceProps arch reqNumRegs blockWarps = Some limit ->
  limit <= to_size_t (maxThreadsPerMultiProcessor deviceProps) / to_size_t (blockWarps * warpSize)
  /\ limit <= maxBlocksPerSM arch
  /\ (major deviceProps = 1 ->
      paddedNumRegPerBlock arch reqNumRegs blockWarps <> 0
      /\ limit <= to_size_t (regsPerBlock deviceProps)
                  / paddedNumRegPerBlock arch reqNumRegs blockWarps).
Proof.
  unfold smBlockLimitNoSharedMem, paddedNumRegPerBlock. intros H.
  destruct (Z.eqb_spec (major deviceProps) 1) as [E|N].
  - match type of H with
    | (if ?c =? 0 then _ else _) = _ => destruct (Z.eqb_spec c 0) as [Z0|NZ]; [discriminate|]
    end.
    injection H as <-. rewrite !size_t_min_spec.
    split; [lia|]. split; [lia|]. intros _. split; [exact NZ | lia].
  - injection H as <-. rewrite size_t_min_spec.
    split; [lia|]. split; [lia|]. intros E. contradiction.
Qed.

(** X3: the block limit of a candidate never asks a multiprocessor for more
    than it has: the blocks are at most [maxBlocksPerSM], their threads at
    most [maxThreadsPerMultiProcessor], their padded shared memory at most
    [sharedMemPerMultiprocessor] and, where registers are allocated per
    block, their padded registers at most [regsPerBlock]. *)
Theorem X3_block_limit_within_resources
        (deviceProps : cudaDeviceProp) (arch : ArchProps)
        (reqNumRegs A B blockWarps limit : Z) :
  0 <= maxBlocksPerSM arch ->
  0 <= maxThreadsPerMultiProcessor deviceProps < 2 ^ 31 ->
  0 <= regsPerBlock deviceProps < 2 ^ 31 ->
  0 <= sharedMemPerMultiprocessor deviceProps ->
  1 <= blockWarps < maxBlockWarps deviceProps ->
  candidateLimit deviceProps arch reqNumRegs A B blockWarps = Some limit ->
  0 <= limit <= maxBlocksPerSM arch
  /\ limit * (blockWarps * warpSize) <= maxThreadsPerMultiProcessor deviceProps
  /\ limit * estimateSharedMem A B (smemAllocGran arch) (blockWarps * warpSize)
     <= sharedMemPerMultiprocessor deviceProps
  /\ (major deviceProps = 1 ->
      limit * paddedNumRegPerBlock arch reqNumRegs blockWarps <= regsPerBlock deviceProps).
Proof.
  intros Hmb Htm Hrb Hsm Hb H.
  destruct (candidate_threads deviceProps blockWarps Hb) as (Ebt & _).
  unfold candidateLimit, smBlockLimit in H. rewrite Ebt in H.
  destruct (smBlockLimitNoSharedMem deviceProps arch reqNumRegs blockWarps) as [l|] eqn:El;
    [|discriminate].
  injection H as <-.
  pose proof (smBlockLimitNoSharedMem_nonneg _ _ _ _ _ Hmb El) as Hl0.
  destruct (smBlockLimitNoSharedMem_spec _ _ _ _ _ El) as (Ht & Hm & Hr).
  rewrite Ebt in Ht.
  rewrite (to_size_t_small (maxThreadsPerMultiProcessor deviceProps)) in Ht by lia.
  set (req := estimateSharedMem A B (smemAllocGran arch) (blockWarps * warpSize)) in *.
  assert (Hreq : 0 <= req) by (unfold req, estimateSharedMem; apply to_size_t_range).
  assert (Hbt : 0 < blockWarps * warpSize) by (unfold warpSize; lia).
  pose proof (Z.mul_div_le (maxThreadsPerMultiProcessor deviceProps)
                           (blockWarps * warpSize) Hbt) as Hdiv.
  unfold applySharedMemLimit.
  destruct (Z.eqb_spec req 0) as [E0|N0]; simpl.
  - split; [lia|]. split; [nia|]. split; [rewrite E0; lia|].
    intros E. destruct (Hr E) as (Hnz & Hle).
    rewrite (to_size_t_small (regsPerBlock deviceProps)) in Hle by lia.
    assert (Hp : 0 < paddedNumRegPerBlock arch reqNumRegs blockWarps).
    { unfold paddedNumRegPerBlock in *.
      match goal with |- 0 < to_size_t ?x => pose proof (to_size_t_range x) end. lia. }
    pose proof (Z.mul_div_le (regsPerBlock deviceProps) _ Hp). nia.
  - rewrite size_t_min_spec.
    pose proof (div_nonneg (sharedMemPerMultiprocessor deviceProps) req Hsm Hreq) as Hd0.
    pose proof (Z.mul_div_le (sharedMemPerMultiprocessor deviceProps) req ltac:(lia)) as Hsd.
    split; [lia|]. split; [nia|]. split; [nia|].
    intros E. destruct (Hr E) as (Hnz & Hle).
    rewrite (to_size_t_small (regsPerBlock deviceProps)) in Hle by lia.
    assert (Hp : 0 < paddedNumRegPerBlock arch reqNumRegs blockWarps).
    { unfold paddedNumRegPerBlock in *.
      match goal with |- 0 < to_size_t ?x => pose proof (to_size_t_range x) end. lia. }
    pose proof (Z.mul_div_le (regsPerBlock deviceProps) _ Hp). nia.
Qed.

(** X3 at work: compute capability 1.0, 8 registers, 64 bytes of shared
    memory for each thread, 2 warps. *)
Lemma X3_block_limit_within_resources_witness :
  let arch := fst (getDeviceArchitectureProperties deviceSM10) in
  0 <= 4 <= maxBlocksPerSM arch
  /\ 4 * (2 * warpSize) <= maxThreadsPerMultiProcessor deviceSM10
  /\ 4 * estimateSharedMem 64 0 (smemAllocGran arch) (2 * warpSize)
     <= sharedMemPerMultiprocessor deviceSM10
  /\ (major deviceSM10 = 1 ->
      4 * paddedNumRegPerBlock arch 8 2 <= regsPerBlock deviceSM10).
Proof.
  cbv zeta.
  apply (X3_block_limit_within_resources
           deviceSM10 (fst (getDeviceArchitectureProperties deviceSM10)) 8 64 0 2 4).
  - evaluate.
  - split; evaluate.
  - split; evaluate.
  - evaluate.
  - split; evaluate.
  - evaluate.
Defined.

(* ================================================================== *)
(** * The outcome of the search *)
(* ================================================================== *)

Section SearchOutcome.

Variable deviceProps : cudaDeviceProp.
Variable arch : ArchProps.
Variable sizes : list Z.
Variables reqNumRegs A B : Z.

Local Abbreviation fits := (fitsAt deviceProps arch sizes reqNumRegs A B).
Local Abbreviation occ := (occupancyAt deviceProps arch reqNumRegs A B).
Local Abbreviation loop := (searchLoop deviceProps arch sizes reqNumRegs A B).

Lemma searchBody_cases (b : Z) (st : Search) :
  1 <= b < maxBlockWarps deviceProps ->
  candidateLimit deviceProps arch reqNumRegs A B b <> None ->
  searchBody deviceProps arch sizes reqNumRegs A B b st
  = Some (if fits b then
            inl {| chosenBlockSize := b * warpSize;
                   record := (true, occ b);
                   examined := examined st ++ [b * warpSize] |}
          else if occ b >? snd (record st) then
            inr {| chosenBlockSize := b * warpSize;
                   record := (fst (record st), occ b);
                   examined := examined st ++ [b * warpSize] |}
          else
            inr {| chosenBlockSize := chosenBlockSize st;
                   record := record st;
                   examined := examined st ++ [b * warpSize] |}).
Proof.
  intros Hb Hdef. destruct (candidate_threads deviceProps b Hb) as (Ebt & _).
  unfold searchBody, fitsAt, occupancyAt. rewrite Ebt.
  destruct (candidateLimit deviceProps arch reqNumRegs A B b) as [l|]; [|contradiction].
  destruct (calcReqBlocks sizes (b * warpSize) <=? concurrentBlocks deviceProps l);
    [reflexivity|].
  destruct (occupancy deviceProps b l >? snd (record st)); reflexivity.
Qed.

(** The loop from the candidate [b] on: it stops at the first candidate at
    which the workload fits, or it runs through all of them and keeps the
    first candidate whose occupancy is above every occupancy before it. *)
Lemma searchLoop_outcome (fuel : nat) :
  forall (b : Z) (st : Search),
    1 <= b ->
    (fuel <= Z.to_nat (maxBlockWarps deviceProps - b))%nat ->
    (forall c, b <= c < b + Z.of_nat fuel ->
               candidateLimit deviceProps arch reqNumRegs A B c <> None) ->
    exists st',
      loop fuel b st = Some st'
      /\ ((exists c,
              b <= c < b + Z.of_nat fuel
              /\ fits c = true
              /\ (forall b', b <= b' < c -> fits b' = false)
              /\ chosenBlockSize st' = c * warpSize
              /\ record st' = (true, occ c)
              /\ examined st' = examined st ++ candidateLog b (Z.to_nat (c - b + 1)))
          \/ ((forall b', b <= b' < b + Z.of_nat fuel ->
                          fits b' = false /\ occ b' <= snd (record st'))
              /\ fst (record st') = fst (record st)
              /\ examined st' = examined st ++ candidateLog b fuel
              /\ ((chosenBlockSize st' = chosenBlockSize st
                   /\ snd (record st') = snd (record st))
                  \/ exists c,
                      b <= c < b + Z.of_nat fuel
                      /\ chosenBlockSize st' = c * warpSize
                      /\ snd (record st') = occ c
                      /\ snd (record st) < occ c
                      /\ forall b', b <= b' < c -> occ b' < occ c))).
Proof.
  induction fuel as [|fuel IH]; intros b st Hb Hfuel Hdef.
  - exists st. split; [reflexivity|]. right.
    split; [intros b' Hb'; lia|]. split; [reflexivity|].
    split; [unfold candidateLog; simpl; rewrite app_nil_r; reflexivity|].
    left. split; reflexivity.
  - assert (Hbr : 1 <= b < maxBlockWarps deviceProps) by lia.
    destruct (candidate_threads deviceProps b Hbr) as (_ & Eb1).
    simpl loop.
    rewrite (searchBody_cases b st Hbr (Hdef b ltac:(lia))).
    destruct (fits b) eqn:Efit.
    + eexists. split; [reflexivity|]. left. exists b.
      split; [lia|]. split; [exact Efit|]. split; [intros b' Hb'; lia|].
      simpl. replace (b - b + 1) with 1 by lia.
      repeat split. unfold candidateLog. simpl. repeat f_equal. lia.
    + rewrite Eb1.
      destruct (Z.gtb_spec (occ b) (snd (record st))) as [Hgt|Hle].
      * destruct (IH (b + 1)
                     {| chosenBlockSize := b * warpSize;
                        record := (fst (record st), occ b);
                        examined := examined st ++ [b * warpSize] |}
                     ltac:(lia) ltac:(lia)
                     ltac:(intros c Hc; apply Hdef; lia))
          as (st' & Erun & Hout).
        exists st'. split; [exact Erun|]. simpl in Hout.
        destruct Hout as [(c & Hc & Hfc & Hbefore & Hch & Hrec & Hlog)
                         |(Hall & Hfst & Hlog & Hbest)].
        -- left. exists c. split; [lia|]. split; [exact Hfc|].
           split.
           { intros b' Hb'. destruct (Z.eq_dec b' b) as [->|N]; [exact Efit|].
             apply Hbefore. lia. }
           split; [exact Hch|]. split; [exact Hrec|].
           rewrite Hlog, <- app_assoc. f_equal.
           replace (Z.to_nat (c - b + 1)) with (S (Z.to_nat (c - (b + 1) + 1))) by lia.
           rewrite candidateLog_S. reflexivity.
        -- right.
           assert (Hmono : occ b <= snd (record st')).
           { destruct Hbest as [(_ & E)|(c & _ & _ & E & Hlt & _)]; lia. }
           split.
           { intros b' Hb'. destruct (Z.eq_dec b' b) as [->|N]; [split; [exact Efit | exact Hmono]|].
             apply Hall. lia. }
           split; [exact Hfst|].
           split; [rewrite Hlog, <- app_assoc, candidateLog_S; reflexivity|].
           right. destruct Hbest as [(Ech & Esnd)|(c & Hc & Ech & Esnd & Hlt & Hfirst)].
           ++ exists b. split; [lia|]. split; [exact Ech|]. split; [exact Esnd|].
              split; [lia|]. intros b' Hb'. lia.
           ++ exists c. split; [lia|]. split; [exact Ech|]. split; [exact Esnd|].
              split; [lia|].
              intros b' Hb'. destruct (Z.eq_dec b' b) as [->|N]; [exact Hlt|].
              apply Hfirst. lia.
      * destruct (IH (b + 1)
                     {| chosenBlockSize := chosenBlockSize st;
                        record := record st;
                        examined := examined st ++ [b * warpSize] |}
                     ltac:(lia) ltac:(lia)
                     ltac:(intros c Hc; apply Hdef; lia))
          as (st' & Erun & Hout).
        exists st'. split; [exact Erun|]. simpl in Hout.
        destruct Hout as [(c & Hc & Hfc & Hbefore & Hch & Hrec & Hlog)
                         |(Hall & Hfst & Hlog & Hbest)].
        -- left. exists c. split; [lia|]. split; [exact Hfc|].
           split.
           { intros b' Hb'. destruct (Z.eq_dec b' b) as [->|N]; [exact Efit|].
             apply Hbefore. lia. }
           split; [exact Hch|]. split; [exact Hrec|].
           rewrite Hlog, <- app_assoc. f_equal.
           replace (Z.to_nat (c - b + 1)) with (S (Z.to_nat (c - (b + 1) + 1))) by lia.
           rewrite candidateLog_S. reflexivity.
        -- right.
           assert (Hmono : snd (record st) <= snd (record st')).
           { destruct Hbest as [(_ & E)|(c & _ & _ & E & Hlt & _)]; lia. }
           split.
           { intros b' Hb'. destruct (Z.eq_dec b' b) as [->|N]; [split; [exact Efit | lia]|].
             apply Hall. lia. }
           split; [exact Hfst|].
           split; [rewrite Hlog, <- app_assoc, candidateLog_S; reflexivity|].
           destruct Hbest as [(Ech & Esnd)|(c & Hc & Ech & Esnd & Hlt & Hfirst)].
           ++ left. split; assumption.
           ++ right. exists c. split; [lia|]. split; [exact Ech|]. split; [exact Esnd|].
              split; [exact Hlt|].
              intros b' Hb'. destruct (Z.eq_dec b' b) as [->|N]; [lia|].
              apply Hfirst. lia.
Qed.

(** Whatever the search returns, the block size it leaves is the one it
    found or that of a candidate. *)
Lemma searchLoop_shape (blockSize0 : Z) (fuel : nat) :
  forall (b : Z) (st st' : Search),
    1 <= b ->
    (fuel <= Z.to_nat (maxBlockWarps deviceProps - b))%nat ->
    candidateBlockSize deviceProps blockSize0 (chosenBlockSize st) ->
    loop fuel b st = Some st' ->
    candidateBlockSize deviceProps blockSize0 (chosenBlockSize st').
Proof.
  induction fuel as [|fuel IH]; intros b st st' Hb Hfuel Hst H; simpl in H.
  - injection H as <-. exact Hst.
  - assert (Hbr : 1 <= b < maxBlockWarps deviceProps) by lia.
    destruct (candidate_threads deviceProps b Hbr) as (Ebt & Eb1).
    unfold searchBody in H. rewrite Ebt, Eb1 in H.
    assert (Hcand : candidateBlockSize deviceProps blockSize0 (b * warpSize)).
    { right. exists b. split; [exact Hbr | reflexivity]. }
    destruct (candidateLimit deviceProps arch reqNumRegs A B b) as [l|]; [|discriminate].
    destruct (calcReqBlocks sizes (b * warpSize) <=? concurrentBlocks deviceProps l).
    + injection H as <-. exact Hcand.
    + destruct (occupancy deviceProps b l >? snd (record st));
        (eapply IH; [| | | exact H]; [lia | lia | simpl; assumption]).
Qed.

End SearchOutcome.

Lemma candidates_checked (P : Z -> bool) (n : nat) :
  forallb (fun i => P (Z.of_nat i)) (seq 1 n) = true ->
  forall b, 1 <= b < 1 + Z.of_nat n -> P b = true.
Proof.
  intros H b Hb. rewrite forallb_forall in H.
  specialize (H (Z.to_nat b)). rewrite Z2Nat.id in H by lia.
  apply H. apply in_seq. lia.
Qed.

Lemma search_defined (deviceProps : cudaDeviceProp) (reqNumRegs A B : Z) :
  deviceInRange deviceProps ->
  (major deviceProps = 1 -> 0 < reqNumRegs < 2 ^ 31) ->
  forall c, 1 <= c < maxBlockWarps deviceProps ->
            candidateLimit deviceProps (fst (getDeviceArchitectureProperties deviceProps))
                           reqNumRegs A B c <> None.
Proof.
  intros Hdev Hregs c Hc.
  destruct (candidateLimit_defined deviceProps reqNumRegs A B c Hdev Hregs Hc) as (l & E & _).
  rewrite E. discriminate.
Qed.

Lemma regs_in_range (deviceProps : cudaDeviceProp) (regs : Z) :
  (major deviceProps = 1 -> 0 < regs < 2 ^ 31) ->
  major deviceProps = 1 -> 0 < to_size_t regs < 2 ^ 31.
Proof. intros H E. specialize (H E). rewrite to_size_t_small; lia. Qed.





(* ================================================================== *)
(** * What the profiling loop of a pass holds *)
(* ================================================================== *)

Section Profiling.

Variables pre post dyn : SynapseGroup -> Z.
Variables INDIVIDUAL SPARSE : Z.
Variable drv : Driver.

Local Abbreviation optimize := (optimizeBlockSize pre post dyn INDIVIDUAL SPARSE drv).
Local Abbreviation emplaced :=
  (fun e : option (bool * Z) => match e with Some e' => Some e' | None => Some (false, 0) end).

Lemma Kernel_eqb_refl (k : Kernel) : Kernel_eqb k k = true.
Proof. apply Kernel_eqb_eq. reflexivity. Qed.

Lemma Kernel_eqb_neq (a b : Kernel) : a <> b -> Kernel_eqb a b = false.
Proof.
  intros N. destruct (Kernel_eqb a b) eqn:E; [|reflexivity].
  apply Kernel_eqb_eq in E. contradiction.
Qed.

Lemma emplace_at (kernels : KernelOptimisationOutput) (k0 k : Kernel) :
  emplace kernels k0 k = if Kernel_eqb k k0 then emplaced (kernels k) else kernels k.
Proof.
  unfold emplace. destruct (Kernel_eq_dec k0 k) as [<-|N].
  - rewrite Kernel_eqb_refl. destruct (kernels k0) eqn:E; [rewrite E; reflexivity|].
    apply set_same.
  - rewrite Kernel_eqb_neq by congruence.
    destruct (kernels k0); [reflexivity|]. apply set_other. exact N.
Qed.

Lemma setAttr_at (krnlAttr : nat -> KernelArray cudaFuncAttributes) (r r' : nat)
      (k0 k : Kernel) (attr : cudaFuncAttributes) :
  setAttr krnlAttr r k0 attr r' k
  = if Nat.eqb r r' && Kernel_eqb k k0 then attr else krnlAttr r' k.
Proof.
  unfold setAttr. destruct (Nat.eqb r r'); [|reflexivity]. simpl.
  destruct (Kernel_eq_dec k0 k) as [<-|N].
  - rewrite Kernel_eqb_refl. apply set_same.
  - rewrite Kernel_eqb_neq by congruence. apply set_other. exact N.
Qed.

(** The kernels of one module: a kernel the module holds gets the module's
    attributes in the row of the repetition and an entry in the map. *)
Lemma queryKernels_at (d : Z) (r : nat) (m : string) (p : Profile) (r' : nat) (k : Kernel) :
  fst (queryKernels drv d r m p) r' k
  = (if holdsKernel drv d r k m && Nat.eqb r r'
     then cudaFuncGetAttributes drv d r m k else fst p r' k)
  /\ snd (queryKernels drv d r m p) k
     = (if holdsKernel drv d r k m then emplaced (snd p k) else snd p k).
Proof.
  unfold queryKernels.
  assert (G : forall ks p,
             let q := fold_left
                        (fun (p : Profile) (k : Kernel) =>
                           if cuModuleGetFunction drv d r m k =? CUDA_SUCCESS
                           then (setAttr (fst p) r k (cudaFuncGetAttributes drv d r m k),
                                 emplace (snd p) k)
                           else p) ks p in
             fst q r' k
             = (if existsb (Kernel_eqb k) ks && holdsKernel drv d r k m && Nat.eqb r r'
                then cudaFuncGetAttributes drv d r m k else fst p r' k)
             /\ snd q k
                = (if existsb (Kernel_eqb k) ks && holdsKernel drv d r k m
                   then emplaced (snd p k) else snd p k)).
  { induction ks as [|k0 ks IH]; intros q0; cbv zeta; [split; reflexivity|].
    cbn [fold_left existsb]. cbv zeta in IH.
    match goal with
    | |- context [fold_left _ ks ?p1] => destruct (IH p1) as (IH1 & IH2)
    end.
    rewrite IH1, IH2. clear IH1 IH2 IH.
    unfold holdsKernel.
    destruct (Kernel_eq_dec k0 k) as [<-|N].
    - rewrite Kernel_eqb_refl.
      destruct (cuModuleGetFunction drv d r m k0 =? CUDA_SUCCESS) eqn:Eh;
        cbn [fst snd orb andb].
      + rewrite setAttr_at, emplace_at, Kernel_eqb_refl.
        destruct (existsb (Kernel_eqb k0) ks), (Nat.eqb r r'), (snd q0 k0);
          split; reflexivity.
      + rewrite !andb_false_r. split; reflexivity.
    - rewrite (Kernel_eqb_neq k k0) by congruence. cbn [orb].
      destruct (cuModuleGetFunction drv d r m k0 =? CUDA_SUCCESS);
        cbn [fst snd]; [|split; reflexivity].
      rewrite setAttr_at, emplace_at, (Kernel_eqb_neq k k0) by congruence.
      rewrite andb_false_r. split; reflexivity. }
  destruct (G allKernels p) as (G1 & G2). cbv zeta in G1, G2.
  assert (Hin : existsb (Kernel_eqb k) allKernels = true) by (destruct k; reflexivity).
  rewrite Hin in G1, G2. split; [exact G1 | exact G2].
Qed.

(** The modules of one repetition that all build, load and unload. *)
Lemma profileModules_at (d : Z) (r : nat) (ms : list string) :
  forall (p p' : Profile) (w w' : World),
    foldM (profileModule drv d r) ms p w = (Ok p', w') ->
    forall r' k,
      fst p' r' k
      = (if Nat.eqb r r'
         then match lastWith (holdsKernel drv d r k) ms with
              | Some m => cudaFuncGetAttributes drv d r m k
              | None => fst p r' k
              end
         else fst p r' k)
      /\ snd p' k
         = (if existsb (holdsKernel drv d r k) ms then emplaced (snd p k) else snd p k).
Proof.
  induction ms as [|m ms IH]; intros p p' w w' H r' k.
  - simpl in H. inversion H; subst. simpl. destruct (Nat.eqb r r'); split; reflexivity.
  - cbn [foldM] in H. unfold bind in H.
    destruct (profileModule drv d r p m w) as [[p1|e] w1] eqn:E; [|discriminate H].
    apply profileModule_value in E. subst p1.
    destruct (IH _ _ _ _ H r' k) as (H1 & H2). rewrite H1, H2. clear H1 H2.
    destruct (queryKernels_at d r m p r' k) as (Q1 & Q2). rewrite Q1, Q2. clear Q1 Q2.
    cbn [lastWith existsb].
    destruct (lastWith (holdsKernel drv d r k) ms),
             (existsb (holdsKernel drv d r k) ms),
             (holdsKernel drv d r k m), (Nat.eqb r r'), (snd p k);
      split; reflexivity.
Qed.

Lemma profileRepetition_at (d : Z) (model : NNmodel) (r : nat) (p p' : Profile)
      (w w' : World) :
  profileRepetition drv d model p r w = (Ok p', w') ->
  forall r' k,
    fst p' r' k
    = (if Nat.eqb r r'
       then match lastWith (holdsKernel drv d r k) (modulesOf drv model d r) with
            | Some m => cudaFuncGetAttributes drv d r m k
            | None => fst p r' k
            end
       else fst p r' k)
    /\ snd p' k
       = (if existsb (holdsKernel drv d r k) (modulesOf drv model d r)
          then emplaced (snd p k) else snd p k).
Proof.
  unfold profileRepetition, bind, modify. simpl.
  rewrite CHECK_CU_ERRORS_run.
  destruct (cuCtxSetCurrent drv d r =? 0); simpl; [|discriminate].
  apply profileModules_at.
Qed.

(** The two repetitions of a pass, from the indeterminate attributes and
    the empty map. *)
Lemma profileLoop_at (d : Z) (model : NNmodel) (p : Profile) (w w' : World) :
  foldM (profileRepetition drv d model) [0%nat; 1%nat] (uninitialised drv, fill None) w
  = (Ok p, w') ->
  forall k,
    fst p 0%nat k = profiledAttr drv model d 0 k
    /\ fst p 1%nat k = profiledAttr drv model d 1 k
    /\ snd p k = (if kernelFound drv model d k then Some (false, 0) else None).
Proof.
  cbn [foldM]. unfold bind. intros H k.
  destruct (profileRepetition drv d model (uninitialised drv, fill None) 0%nat w)
    as [[p0|e0] w0] eqn:E0; [|discriminate H].
  destruct (profileRepetition drv d model p0 1%nat w0) as [[p1|e1] w1] eqn:E1;
    [|discriminate H].
  unfold ret in H. inversion H; subst p1 w1. clear H.
  pose proof (profileRepetition_at d model 0 _ _ _ _ E0) as H0.
  pose proof (profileRepetition_at d model 1 _ _ _ _ E1) as H1.
  destruct (H1 0%nat k) as (A10 & S1). destruct (H1 1%nat k) as (A11 & _).
  destruct (H0 0%nat k) as (A00 & S0). destruct (H0 1%nat k) as (A01 & _).
  cbn [Nat.eqb fst snd] in *.
  unfold profiledAttr, kernelFound.
  rewrite A10, A00, A11, A01, S1, S0. unfold fill.
  split; [reflexivity|]. split; [reflexivity|].
  destruct (existsb (holdsKernel drv d 0 k) (modulesOf drv model d 0)),
           (existsb (holdsKernel drv d 1 k) (modulesOf drv model d 1)); reflexivity.
Qed.

Lemma optimiseKernel_ext (deviceProps : cudaDeviceProp) (arch : ArchProps)
      (groupSizes : GroupSizes) (f g : nat -> KernelArray cudaFuncAttributes)
      (k : Kernel) (blockSize0 : Z) (entry : bool * Z) :
  f 0%nat k = g 0%nat k -> f 1%nat k = g 1%nat k ->
  optimiseKernel deviceProps arch groupSizes f k blockSize0 entry
  = optimiseKernel deviceProps arch groupSizes g k blockSize0 entry.
Proof. intros H0 H1. unfold optimiseKernel. rewrite H0, H1. reflexivity. Qed.

(** A pass that returns has profiled both repetitions, read the properties
    of its device and optimised the kernels of the map. *)
Lemma optimizeBlockSize_inversion (d : Z) (model : NNmodel) (w : World)
      (out : KernelOptimisationOutput * KernelBlockSize) :
  fst (optimize d model w) = Ok out ->
  exists deviceProps p,
    0 <= d
    /\ nth_error (devices drv) (Z.to_nat d) = Some deviceProps
    /\ (forall k,
           fst p 0%nat k = profiledAttr drv model d 0 k
           /\ fst p 1%nat k = profiledAttr drv model d 1 k
           /\ snd p k = (if kernelFound drv model d k then Some (false, 0) else None))
    /\ optimiseKernels deviceProps (fst (getDeviceArchitectureProperties deviceProps))
                       (calcGroupSizes pre post dyn INDIVIDUAL SPARSE model (fill []))
                       (fst p) allKernels (snd p) (fill 0) = Some out.
Proof.
  rewrite optimizeBlockSize_run.
  destruct (negb (cuDeviceGet drv d =? 0)); [discriminate|].
  destruct (negb (cuCtxCreate drv d =? 0)); [discriminate|].
  match goal with
  | |- context [foldM ?b ?l ?s ?w1] =>
      destruct (foldM b l s w1) as [[p|e] w2] eqn:Ep
  end; [|discriminate].
  destruct (negb (cuCtxDestroy drv d =? 0)); [discriminate|]. cbv zeta.
  match goal with
  | |- context [cudaGetDeviceProperties drv d ?w3] =>
      destruct (cudaGetDeviceProperties drv d w3) as [[deviceProps|e] w4] eqn:Ed
  end; [|discriminate].
  destruct (optimiseKernels _ _ _ _ _ _ _) as [out'|] eqn:Eo; [|discriminate].
  cbn [fst]. intros H. inversion H; subst out'. clear H.
  exists deviceProps, p.
  unfold cudaGetDeviceProperties in Ed.
  destruct (Z.ltb_spec d 0) as [|Hd]; [discriminate Ed|].
  destruct (nth_error (devices drv) (Z.to_nat d)) as [props|] eqn:En; [|discriminate Ed].
  unfold bind in Ed. rewrite CHECK_CUDA_ERRORS_run in Ed.
  destruct (cudaGetDeviceProperties_status drv d =? 0); [|discriminate Ed].
  unfold ret in Ed. inversion Ed; subst props w4.
  split; [exact Hd|]. split; [reflexivity|].
  split; [exact (profileLoop_at d model p _ _ Ep) | exact Eo].
Qed.

End Profiling.

(* ================================================================== *)
(** * What a pass returns *)
(* ================================================================== *)

Lemma optimiseKernel_defined (deviceProps : cudaDeviceProp) (groupSizes : GroupSizes)
      (krnlAttr : nat -> KernelArray cudaFuncAttributes) (k : Kernel)
      (blockSize0 : Z) (entry : bool * Z) :
  deviceInRange deviceProps ->
  (major deviceProps = 1 -> 0 < numRegs (krnlAttr 0%nat k) < 2 ^ 31) ->
  exists s, optimiseKernel deviceProps (fst (getDeviceArchitectureProperties deviceProps))
                           groupSizes krnlAttr k blockSize0 entry = Some s.
Proof.
  intros Hdev Hregs. unfold optimiseKernel, searchKernel.
  destruct (searchLoop_outcome
              deviceProps (fst (getDeviceArchitectureProperties deviceProps))
              (groupSizes k) (to_size_t (numRegs (krnlAttr 0%nat k)))
              (reqSharedMemBytesA (sharedSizeBytes (krnlAttr 0%nat k))
                                  (sharedSizeBytes (krnlAttr 1%nat k)))
              (reqSharedMemBytesB (sharedSizeBytes (krnlAttr 0%nat k))
                                  (sharedSizeBytes (krnlAttr 1%nat k)))
              (Z.to_nat (maxBlockWarps deviceProps - 1)) 1
              {| chosenBlockSize := blockSize0; record := entry; examined := [] |})
    as (s & Erun & _);
    [lia | lia
     | intros c Hc; apply search_defined;
       [exact Hdev | apply regs_in_range; exact Hregs | lia] | ].
  exists s. exact Erun.
Qed.

Lemma optimiseKernels_defined (deviceProps : cudaDeviceProp) (arch : ArchProps)
      (groupSizes : GroupSizes) (krnlAttr : nat -> KernelArray cudaFuncAttributes)
      (ks : list Kernel) :
  forall (kernels : KernelOptimisationOutput) (blockSize : KernelBlockSize),
    (forall k, kernels k <> None ->
               forall b e, exists s,
                   optimiseKernel deviceProps arch groupSizes krnlAttr k b e = Some s) ->
    exists out,
      optimiseKernels deviceProps arch groupSizes krnlAttr ks kernels blockSize = Some out.
Proof.
  induction ks as [|k0 ks IH]; intros kernels blockSize Hdef; simpl.
  - eexists. reflexivity.
  - destruct (kernels k0) as [entry|] eqn:E0; [|apply IH; exact Hdef].
    destruct (Hdef k0 ltac:(congruence) (blockSize k0) entry) as (s & Es).
    rewrite Es. apply IH. intros k Hk.
    apply Hdef. destruct (Kernel_eq_dec k0 k) as [<-|N]; [congruence|].
    rewrite set_other in Hk by exact N. exact Hk.
Qed.

Lemma removeString_head (m : string) : removeString m [m] = [].
Proof. unfold removeString. simpl. rewrite String.eqb_refl. reflexivity. Qed.

Section Pass.

Variables pre post dyn : SynapseGroup -> Z.
Variables INDIVIDUAL SPARSE : Z.
Variable drv : Driver.

Local Abbreviation optimize := (optimizeBlockSize pre post dyn INDIVIDUAL SPARSE drv).

Lemma profileModule_ok (d : Z) (r : nat) (p : Profile) (m : string) (w : World) :
  system_nvcc drv d r m = 0 ->
  cuModuleLoad drv d r m = CUDA_SUCCESS ->
  cuModuleUnload drv d r m = CUDA_SUCCESS ->
  profileModule drv d r p m w
  = (Ok (queryKernels drv d r m p),
     {| liveContexts := liveContexts w;
        currentContext := currentContext w;
        loadedModules := removeString m (m :: loadedModules w);
        generated := generated w;
        compiled := compiled w ++ [m] |}).
Proof.
  intros Hn Hl Hu. unfold profileModule, bind, modify. simpl.
  rewrite Hn. simpl. rewrite CHECK_CU_ERRORS_run, Hl. simpl.
  rewrite CHECK_CU_ERRORS_run, Hu. reflexivity.
Qed.

Lemma profileModules_ok (d : Z) (r : nat) (ms : list string) :
  (forall m, In m ms ->
             system_nvcc drv d r m = 0
             /\ cuModuleLoad drv d r m = CUDA_SUCCESS
             /\ cuModuleUnload drv d r m = CUDA_SUCCESS) ->
  forall p w, exists p' w',
      foldM (profileModule drv d r) ms p w = (Ok p', w')
      /\ compiled w' = compiled w ++ ms
      /\ currentContext w' = currentContext w.
Proof.
  induction ms as [|m ms IH]; intros Hms p w.
  - exists p, w. simpl. rewrite app_nil_r. auto.
  - destruct (Hms m (or_introl eq_refl)) as (Hn & Hl & Hu).
    cbn [foldM]. unfold bind. rewrite (profileModule_ok d r p m w Hn Hl Hu).
    edestruct (IH (fun m' H => Hms m' (or_intror H))) as (p' & w' & E & Hc & Hcur).
    exists p', w'. split; [exact E|]. rewrite Hc, Hcur. simpl.
    rewrite <- app_assoc. auto.
Qed.

Lemma profileRepetition_ok (d : Z) (model : NNmodel) (r : nat) (p : Profile) (w : World) :
  cuCtxSetCurrent drv d r = CUDA_SUCCESS ->
  (forall m, In m (modulesOf drv model d r) ->
             system_nvcc drv d r m = 0
             /\ cuModuleLoad drv d r m = CUDA_SUCCESS
             /\ cuModuleUnload drv d r m = CUDA_SUCCESS) ->
  exists p' w',
    profileRepetition drv d model p r w = (Ok p', w')
    /\ compiled w' = compiled w ++ modulesOf drv model d r
    /\ currentContext w' = Some d.
Proof.
  intros Hset Hms. unfold profileRepetition, bind, modify. simpl.
  rewrite CHECK_CU_ERRORS_run, Hset. simpl.
  match goal with
  | |- context [foldM _ _ p ?w1] =>
      destruct (profileModules_ok d r _ Hms p w1) as (p' & w' & E & Hc & Hcur)
  end.
  exists p', w'. split; [exact E|]. split; [exact Hc | exact Hcur].
Qed.

Lemma profileModule_unloads (d : Z) (r : nat) (p : Profile) (m : string) (w : World) :
  cuModuleUnload drv d r m = CUDA_SUCCESS ->
  loadedModules w = [] ->
  loadedModules (snd (profileModule drv d r p m w)) = [].
Proof.
  intros Hu Hw. unfold profileModule, bind, modify. simpl.
  destruct (negb (system_nvcc drv d r m =? 0)); simpl; [exact Hw|].
  rewrite CHECK_CU_ERRORS_run.
  destruct (cuModuleLoad drv d r m =? 0); simpl; [|exact Hw].
  rewrite CHECK_CU_ERRORS_run, Hu. simpl. rewrite Hw. apply removeString_head.
Qed.

Lemma profileModules_unload (d : Z) (r : nat) (ms : list string) :
  (forall m, In m ms -> cuModuleUnload drv d r m = CUDA_SUCCESS) ->
  forall p w, loadedModules w = [] ->
              loadedModules (snd (foldM (profileModule drv d r) ms p w)) = [].
Proof.
  induction ms as [|m ms IH]; intros Hms p w Hw; [exact Hw|].
  cbn [foldM]. unfold bind.
  pose proof (profileModule_unloads d r p m w (Hms m (or_introl eq_refl)) Hw) as H1.
  destruct (profileModule drv d r p m w) as [[p1|e] w1]; [|exact H1].
  apply IH; [intros m' H; apply Hms; right; exact H | exact H1].
Qed.

Lemma profileRepetition_unload (d : Z) (model : NNmodel) (r : nat) (p : Profile) (w : World) :
  (forall m, In m (modulesOf drv model d r) -> cuModuleUnload drv d r m = CUDA_SUCCESS) ->
  loadedModules w = [] ->
  loadedModules (snd (profileRepetition drv d model p r w)) = [].
Proof.
  intros Hms Hw. unfold profileRepetition, bind, modify. simpl.
  rewrite CHECK_CU_ERRORS_run.
  destruct (cuCtxSetCurrent drv d r =? 0); simpl; [|exact Hw].
  apply profileModules_unload; [exact Hms | exact Hw].
Qed.

(** X6: in a pass that returns, a kernel that no module of either
    repetition holds stays out of the map with the block size 0, and a
    kernel that some module holds has the record and the block size of its
    search on the device of the pass, run from the block size 0 and the entry
    (false, 0) with, for each repetition, the attributes of the last module
    of that repetition that holds the kernel, or the indeterminate initial
    contents of [krnlAttr] when no module of that repetition does. *)
Theorem X6_pass_uses_last_module_attributes
        (d : Z) (model : NNmodel) (w : World)
        (out : KernelOptimisationOutput * KernelBlockSize) :
  fst (optimize d model w) = Ok out ->
  exists deviceProps,
    0 <= d
    /\ nth_error (devices drv) (Z.to_nat d) = Some deviceProps
    /\ forall k,
        if kernelFound drv model d k
        then exists s,
            optimiseKernel deviceProps (fst (getDeviceArchitectureProperties deviceProps))
                           (calcGroupSizes pre post dyn INDIVIDUAL SPARSE model (fill []))
                           (profiledAttr drv model d) k 0 (false, 0) = Some s
            /\ fst out k = Some (record s)
            /\ snd out k = chosenBlockSize s
        else fst out k = None /\ snd out k = 0.
Proof.
  intros H.
  destruct (optimizeBlockSize_inversion pre post dyn INDIVIDUAL SPARSE drv d model w out H)
    as (props & p & Hd & Hn & Hp & Ho).
  exists props. split; [exact Hd|]. split; [exact Hn|]. intros k.
  pose proof (optimiseKernels_assignment _ _ _ _ _ _ k Ho) as Hk.
  destruct (Hp k) as (P0 & P1 & Ps). rewrite Ps in Hk.
  destruct (kernelFound drv model d k); [|exact Hk].
  destruct Hk as (s & Es & Hf & Hs). exists s.
  split; [|split; [exact Hf | exact Hs]].
  rewrite <- Es. symmetry. apply optimiseKernel_ext; assumption.
Qed.

(** X7: every block size a pass returns is 0 or that of a candidate: a
    multiple of the warp size, from one warp up, below the largest number
    of threads of a block of the device. *)
Theorem X7_block_sizes_are_candidates
        (d : Z) (model : NNmodel) (w : World)
        (out : KernelOptimisationOutput * KernelBlockSize) :
  fst (optimize d model w) = Ok out ->
  exists deviceProps,
    nth_error (devices drv) (Z.to_nat d) = Some deviceProps
    /\ forall k,
        snd out k = 0
        \/ exists b, 1 <= b < maxBlockWarps deviceProps
                     /\ snd out k = b * warpSize
                     /\ warpSize <= snd out k < to_size_t (maxThreadsPerBlock deviceProps).
Proof.
  intros H.
  destruct (optimizeBlockSize_inversion pre post dyn INDIVIDUAL SPARSE drv d model w out H)
    as (props & p & Hd & Hn & Hp & Ho).
  exists props. split; [exact Hn|]. intros k.
  pose proof (optimiseKernels_assignment _ _ _ _ _ _ k Ho) as Hk.
  destruct (snd p k) as [entry|]; [|left; apply Hk].
  destruct Hk as (s & Es & _ & Hs). rewrite Hs.
  unfold optimiseKernel, searchKernel in Es.
  eapply (searchLoop_shape props _ _ _ _ _ 0) in Es;
    [ | lia | lia | left; reflexivity].
  destruct Es as [E0|(b & Hb & Eb)]; [left; exact E0|].
  right. exists b. split; [exact Hb|]. split; [exact Eb|].
  rewrite Eb. unfold maxBlockWarps, warpSize in *.
  pose proof (Z.mul_div_le (to_size_t (maxThreadsPerBlock props)) 32 ltac:(lia)).
  lia.
Qed.


(** X9: a pass that starts with no module loaded leaves none loaded on any
    of its ways out, a return or a throw, as long as every call of
    [cuModuleUnload] on a module of the two repetitions succeeds. *)
Theorem X9_no_module_left_loaded (d : Z) (model : NNmodel) (w : World) :
  loadedModules w = [] ->
  (forall r m, In m (modulesOf drv model d r) -> cuModuleUnload drv d r m = CUDA_SUCCESS) ->
  loadedModules (snd (optimize d model w)) = [].
Proof.
  intros Hw Hu. rewrite optimizeBlockSize_run.
  destruct (negb (cuDeviceGet drv d =? 0)); [exact Hw|].
  destruct (negb (cuCtxCreate drv d =? 0)); [exact Hw|].
  match goal with
  | |- context [foldM ?b ?l ?s ?w1] =>
      assert (Hloop : loadedModules (snd (foldM b l s w1)) = []);
      [|destruct (foldM b l s w1) as [[p|e] w2]]
  end.
  { cbn [foldM]. unfold bind at 1.
    match goal with
    | |- context [profileRepetition drv d model ?s 0%nat ?w1] =>
        pose proof (profileRepetition_unload d model 0 s w1 (Hu 0%nat) Hw) as H0;
        destruct (profileRepetition drv d model s 0%nat w1) as [[p0|e0] w0]
    end; [|exact H0].
    simpl in H0. unfold bind.
    pose proof (profileRepetition_unload d model 1 p0 w0 (Hu 1%nat) H0) as H1.
    destruct (profileRepetition drv d model p0 1%nat w0) as [[p1|e1] w1]; exact H1. }
  - simpl in Hloop.
    destruct (negb (cuCtxDestroy drv d =? 0)); [exact Hloop|]. cbv zeta.
    match goal with
    | |- context [cudaGetDeviceProperties drv d ?w3] =>
        pose proof (cudaGetDeviceProperties_world drv d w3) as Hq;
        destruct (cudaGetDeviceProperties drv d w3) as [[deviceProps|e] w4]
    end; simpl in Hq; subst w4.
    + destruct (optimiseKernels _ _ _ _ _ _ _); exact Hloop.
    + exact Hloop.
  - exact Hloop.
Qed.

End Pass.

(** X6 at work: two modules on a device of compute capability 6.1.  The
    neuron update kernel is searched with the 40 registers of the second
    module, and the initialisation kernel, found in the second repetition
    only, with the indeterminate attributes of the first. *)
Lemma X6_pass_uses_last_module_attributes_witness :
  let drv := twoModuleDriver [deviceSM61] in
  let out := exOuts drv smallModel 0 in
  exists deviceProps,
    0 <= 0
    /\ nth_error (devices drv) (Z.to_nat 0) = Some deviceProps
    /\ forall k,
        if kernelFound drv smallModel 0 k
        then exists s,
            optimiseKernel deviceProps (fst (getDeviceArchitectureProperties deviceProps))
                           (calcGroupSizes threadsPerSource threadsPerSource threadsPerSource
                                           64 4 smallModel (fill []))
                           (profiledAttr drv smallModel 0) k 0 (false, 0) = Some s
            /\ fst out k = Some (record s)
            /\ snd out k = chosenBlockSize s
        else fst out k = None /\ snd out k = 0.
Proof.
  cbv zeta.
  apply (X6_pass_uses_last_module_attributes
           threadsPerSource threadsPerSource threadsPerSource 64 4
           (twoModuleDriver [deviceSM61]) 0 smallModel emptyWorld
           (exOuts (twoModuleDriver [deviceSM61]) smallModel 0)).
  unfold exOuts, exOptimizeBlockSize. change (Z.of_nat 0) with 0.
  match goal with
  | |- fst ?run = _ => destruct (fst run) eqn:E; [reflexivity|]
  end.
  exfalso. vm_compute in E. discriminate E.
Defined.

(** The attributes of the example: the last module wins, and the first
    repetition of the initialisation kernel is indeterminate. *)
Example profiledAttr_example :
  let drv := twoModuleDriver [deviceSM61] in
  numRegs (profiledAttr drv smallModel 0 0 KernelNeuronUpdate) = 40
  /\ profiledAttr drv smallModel 0 0 KernelInitialize = uninitialised drv 0%nat KernelInitialize
  /\ numRegs (profiledAttr drv smallModel 0 1 KernelInitialize) = 40
  /\ kernelFound drv smallModel 0 KernelInitialize = true
  /\ kernelFound drv smallModel 0 KernelPreNeuronReset = false.
Proof. cbv zeta. repeat split. Qed.

(** X7 at work on the same pass. *)
Lemma X7_block_sizes_are_candidates_witness :
  let drv := twoModuleDriver [deviceSM61] in
  let out := exOuts drv smallModel 0 in
  exists deviceProps,
    nth_error (devices drv) (Z.to_nat 0) = Some deviceProps
    /\ forall k,
        snd out k = 0
        \/ exists b, 1 <= b < maxBlockWarps deviceProps
                     /\ snd out k = b * warpSize
                     /\ warpSize <= snd out k < to_size_t (maxThreadsPerBlock deviceProps).
Proof.
  cbv zeta.
  apply (X7_block_sizes_are_candidates
           threadsPerSource threadsPerSource threadsPerSource 64 4
           (twoModuleDriver [deviceSM61]) 0 smallModel emptyWorld
           (exOuts (twoModuleDriver [deviceSM61]) smallModel 0)).
  unfold exOuts, exOptimizeBlockSize. change (Z.of_nat 0) with 0.
  match goal with
  | |- fst ?run = _ => destruct (fst run) eqn:E; [reflexivity|]
  end.
  exfalso. vm_compute in E. discriminate E.
Defined.


(** X9 at work: the compiler fails on the first module. *)
Lemma X9_no_module_left_loaded_witness :
  loadedModules (snd (exOptimizeBlockSize (failingNvccDriver [deviceSM61]) 0 smallModel
                                          emptyWorld)) = [].
Proof.
  apply (X9_no_module_left_loaded
           threadsPerSource threadsPerSource threadsPerSource 64 4
           (failingNvccDriver [deviceSM61]) 0 smallModel emptyWorld).
  - reflexivity.
  - intros r m _. reflexivity.
Defined.

(* ================================================================== *)
(** * What the selection does with the passes *)
(* ================================================================== *)

Lemma foldM_app {A S : Type} (body : S -> A -> M S) (l1 l2 : list A) :
  forall s w,
    foldM body (l1 ++ l2) s w
    = match foldM body l1 s w with
      | (Ok s1, w1) => foldM body l2 s1 w1
      | (Throw e, w1) => (Throw e, w1)
      end.
Proof.
  induction l1 as [|x l1 IH]; intros s w; simpl; [reflexivity|].
  unfold bind. destruct (body s x w) as [[s1|e] w1]; [apply IH | reflexivity].
Qed.

Lemma Forall2_nth_error_r {A B : Type} (R : A -> B -> Prop) (l1 : list A) (l2 : list B) :
  Forall2 R l1 l2 ->
  forall j y, nth_error l2 j = Some y -> exists x, nth_error l1 j = Some x /\ R x y.
Proof.
  induction 1 as [|x y l1 l2 Hxy _ IH]; intros [|j] z Hz; simpl in Hz; try discriminate Hz.
  - inversion Hz; subst. exists x. split; [reflexivity | exact Hxy].
  - exact (IH j z Hz).
Qed.

Lemma Forall2_nth_error_l {A B : Type} (R : A -> B -> Prop) (l1 : list A) (l2 : list B) :
  Forall2 R l1 l2 ->
  forall j x, nth_error l1 j = Some x -> exists y, nth_error l2 j = Some y /\ R x y.
Proof.
  induction 1 as [|x y l1 l2 Hxy _ IH]; intros [|j] z Hz; simpl in Hz; try discriminate Hz.
  - inversion Hz; subst. exists y. split; [reflexivity | exact Hxy].
  - exact (IH j z Hz).
Qed.

Lemma removeZ_head (d : Z) : removeZ d [d] = [].
Proof. unfold removeZ. simpl. rewrite Z.eqb_refl. reflexivity. Qed.

Section Selection.

Variables pre post dyn : SynapseGroup -> Z.
Variables INDIVIDUAL SPARSE : Z.
Variable drv : Driver.
Variable model : NNmodel.

Local Abbreviation optimize := (optimizeBlockSize pre post dyn INDIVIDUAL SPARSE drv).
Local Abbreviation choose := (chooseOptimalDevice pre post dyn INDIVIDUAL SPARSE drv model).
Local Abbreviation rank := (rankDevice pre post dyn INDIVIDUAL SPARSE drv model).
Local Abbreviation passed :=
  (fun (d : Z) (x : Device) =>
     exists out, fst (optimize d model emptyWorld) = Ok out /\ get3 x = snd out).

Lemma rankDevice_inversion (ranked ranked' : list Device) (d : Z) (w w' : World) :
  rank ranked d w = (Ok ranked', w') ->
  exists x,
    ranked' = ranked ++ [x]
    /\ passed d x
    /\ generated w' = generated w ++ probesOf d
    /\ liveContexts w' = removeZ d (d :: liveContexts w).
Proof.
  unfold rankDevice. unfold bind at 1.
  pose proof (cudaGetDeviceProperties_world drv d w) as Hw.
  destruct (cudaGetDeviceProperties drv d w) as [[props|e] w1]; [|discriminate].
  simpl in Hw. subst w1. unfold bind at 1.
  pose proof (worldFree_optimizeBlockSize pre post dyn INDIVIDUAL SPARSE drv
                d model w emptyWorld) as Hfree.
  pose proof (optimizeBlockSize_returns pre post dyn INDIVIDUAL SPARSE drv d model w) as Hret.
  destruct (optimize d model w) as [[out|e] w2]; [|discriminate].
  unfold ret. intros H. inversion H; subst ranked' w'. clear H.
  simpl in Hfree. destruct (Hret out eq_refl) as (Hg & Hl). simpl in Hg, Hl.
  eexists. split; [reflexivity|].
  split; [exists out; split; [symmetry; exact Hfree | reflexivity]|].
  split; [exact Hg | exact Hl].
Qed.

Lemma rankDevices_inversion (ds : list Z) :
  forall (ranked ranked' : list Device) (w w' : World),
    foldM rank ds ranked w = (Ok ranked', w') ->
    exists added,
      ranked' = ranked ++ added
      /\ Forall2 passed ds added
      /\ generated w' = generated w ++ flat_map probesOf ds
      /\ (liveContexts w = [] -> liveContexts w' = []).
Proof.
  induction ds as [|d ds IH]; intros ranked ranked' w w' H.
  - simpl in H. inversion H; subst. exists []. rewrite app_nil_r.
    split; [reflexivity|]. split; [constructor|]. simpl. rewrite app_nil_r. auto.
  - cbn [foldM] in H. unfold bind in H.
    destruct (rank ranked d w) as [[r1|e] w1] eqn:E; [|discriminate H].
    destruct (rankDevice_inversion _ _ _ _ _ E) as (x & -> & Hx & Hg1 & Hl1).
    destruct (IH _ _ _ _ H) as (added & -> & Hall & Hg & Hl).
    exists (x :: added). rewrite <- app_assoc.
    split; [reflexivity|]. split; [constructor; assumption|].
    split.
    + rewrite Hg, Hg1. cbn [flat_map]. rewrite <- !app_assoc. reflexivity.
    + intros Hw. apply Hl. rewrite Hl1, Hw. apply removeZ_head.
Qed.

Lemma choose_run (w : World) :
  choose w
  = if negb (cudaGetDeviceCount_status drv =? 0)
    then (Throw (CudaRuntimeError (cudaGetDeviceCount_status drv)), w)
    else if Z.of_nat (List.length (devices drv)) =? 0 then (Throw NoDeviceFound, w)
    else
      match foldM rank (ordinals (Z.of_nat (List.length (devices drv)))) [] w with
      | (Throw e, w') => (Throw e, w')
      | (Ok ranked, w') =>
          match min_element betterDevice ranked with
          | None => (Throw Undefined, w')
          | Some (i, bestDevice) => (Ok (to_int (Z.of_nat i), get3 bestDevice), w')
          end
      end.
Proof.
  unfold chooseOptimalDevice, cudaGetDeviceCount, bind.
  rewrite CHECK_CUDA_ERRORS_run.
  destruct (cudaGetDeviceCount_status drv =? 0); cbn [negb]; [|reflexivity].
  unfold ret at 1. cbv beta iota.
  destruct (Z.of_nat (List.length (devices drv)) =? 0); [reflexivity|].
  unfold ret at 1. cbv beta iota.
  destruct (foldM rank (ordinals (Z.of_nat (List.length (devices drv)))) [] w)
    as [[ranked|e] w']; [|reflexivity].
  destruct (min_element betterDevice ranked) as [[i x]|]; reflexivity.
Qed.

Lemma choose_inversion (w : World) (r : Z * KernelBlockSize) :
  fst (choose w) = Ok r ->
  exists ranked w' i x,
    foldM rank (ordinals (Z.of_nat (List.length (devices drv)))) [] w = (Ok ranked, w')
    /\ snd (choose w) = w'
    /\ nth_error ranked i = Some x
    /\ r = (to_int (Z.of_nat i), get3 x).
Proof.
  rewrite choose_run.
  destruct (negb (cudaGetDeviceCount_status drv =? 0)); [discriminate|].
  destruct (Z.of_nat (List.length (devices drv)) =? 0); [discriminate|].
  destruct (foldM rank (ordinals (Z.of_nat (List.length (devices drv)))) [] w)
    as [[ranked|e] w'] eqn:E; [|discriminate].
  destruct (min_element betterDevice ranked) as [[i x]|] eqn:Em; [|discriminate].
  cbn [fst snd]. intros H. inversion H; subst r. clear H.
  exists ranked, w', i, x. split; [reflexivity|]. split; [reflexivity|].
  split; [|reflexivity].
  assert (Hne : ranked <> []) by (intros ->; discriminate Em).
  destruct (min_element_spec betterDevice rankOf betterDevice_spec ranked Hne)
    as (i' & x' & Emin & Hx & _).
  rewrite Em in Emin. inversion Emin; subst. exact Hx.
Qed.

(** X10: when the selection returns, the pass over every visible device
    returns, the ordinal returned is that of a visible device, and the block
    sizes returned are those of the pass over that device. *)
Theorem X10_selection_returns_a_probed_device (w : World) (i : Z) (bs : KernelBlockSize) :
  Z.of_nat (List.length (devices drv)) < 2 ^ 31 ->
  fst (choose w) = Ok (i, bs) ->
  0 <= i < Z.of_nat (List.length (devices drv))
  /\ (forall j, 0 <= j < Z.of_nat (List.length (devices drv)) ->
                exists out, fst (optimize j model emptyWorld) = Ok out)
  /\ exists out, fst (optimize i model emptyWorld) = Ok out /\ snd out = bs.
Proof.
  intros Hlen H.
  destruct (choose_inversion w _ H) as (ranked & w' & idx & x & Efold & _ & Hx & Er).
  inversion Er; subst i bs. clear Er.
  rewrite ordinals_of_nat in Efold.
  destruct (rankDevices_inversion _ _ _ _ _ Efold) as (added & -> & Hall & _).
  simpl in Hx.
  destruct (Forall2_nth_error_r _ _ _ Hall idx x Hx) as (d & Hd & out & Hout & Hget).
  apply nth_error_map_seq in Hd as (Hidx & ->).
  rewrite to_int_small by (unfold fitsInt; lia).
  split; [lia|]. split.
  - intros j Hj.
    destruct (Forall2_nth_error_l _ _ _ Hall (Z.to_nat j) j) as (y & _ & out' & Hout' & _).
    + rewrite nth_error_map_seq_at by lia. rewrite Z2Nat.id by lia. reflexivity.
    + exists out'. exact Hout'.
  - exists out. split; [exact Hout | symmetry; exact Hget].
Qed.

(** X11: a selection that returns has run the code generator twice for
    every visible device, in the order of the ordinals, with every block
    size at 32 and then at 64, and when it started with no context it leaves
    none. *)
Theorem X11_selection_probes_every_device (w : World) (r : Z * KernelBlockSize) :
  fst (choose w) = Ok r ->
  liveContexts w = [] ->
  generated (snd (choose w))
  = generated w ++ flat_map probesOf (ordinals (Z.of_nat (List.length (devices drv))))
  /\ liveContexts (snd (choose w)) = [].
Proof.
  intros H Hw.
  destruct (choose_inversion w _ H) as (ranked & w' & idx & x & Efold & -> & _ & _).
  destruct (rankDevices_inversion _ _ _ _ _ Efold) as (added & _ & _ & Hg & Hl).
  split; [exact Hg | exact (Hl Hw)].
Qed.

Lemma profileLoop_generated_by (d : Z) (s : Profile) (w : World) :
  exists l,
    generated (snd (foldM (profileRepetition drv d model) [0%nat; 1%nat] s w))
    = generated w ++ l
    /\ Forall (fun x => fst x = d) l.
Proof.
  cbn [foldM]. unfold bind.
  pose proof (profileRepetition_generated drv d model s 0%nat w) as G0.
  destruct (profileRepetition drv d model s 0%nat w) as [[p0|e0] w1]; simpl in G0.
  - pose proof (profileRepetition_generated drv d model p0 1%nat w1) as G1.
    destruct (profileRepetition drv d model p0 1%nat w1) as [[p1|e1] w2]; simpl in G1;
      simpl; rewrite G1, G0, <- app_assoc; eexists; (split; [reflexivity|]);
      repeat constructor.
  - simpl. rewrite G0. eexists. split; [reflexivity|]. repeat constructor.
Qed.

Lemma optimizeBlockSize_generated_by (d : Z) (w : World) :
  exists l,
    generated (snd (optimize d model w)) = generated w ++ l
    /\ Forall (fun x => fst x = d) l.
Proof.
  rewrite optimizeBlockSize_run.
  assert (Hnil : exists l, generated w = generated w ++ l /\ Forall (fun x => fst x = d) l).
  { exists []. rewrite app_nil_r. split; [reflexivity | constructor]. }
  destruct (negb (cuDeviceGet drv d =? 0)); [exact Hnil|].
  destruct (negb (cuCtxCreate drv d =? 0)); [exact Hnil|].
  match goal with
  | |- context [foldM ?b ?l ?s ?w1] =>
      pose proof (profileLoop_generated_by d s w1) as Hloop;
      destruct (foldM b l s w1) as [[p|e] w2]
  end; simpl in Hloop; [|exact Hloop].
  destruct (negb (cuCtxDestroy drv d =? 0)); [exact Hloop|]. cbv zeta.
  match goal with
  | |- context [cudaGetDeviceProperties drv d ?w3] =>
      pose proof (cudaGetDeviceProperties_world drv d w3) as Hq;
      destruct (cudaGetDeviceProperties drv d w3) as [[deviceProps|e] w4]
  end; simpl in Hq; subst w4; [|exact Hloop].
  destruct (optimiseKernels _ _ _ _ _ _ _); exact Hloop.
Qed.

Lemma rankDevices_ok (n : nat) :
  (forall d, cudaGetDeviceProperties_status drv d = 0) ->
  (n <= List.length (devices drv))%nat ->
  (forall i, (i < n)%nat -> exists out, fst (optimize (Z.of_nat i) model emptyWorld) = Ok out) ->
  forall w, exists ranked w',
      foldM rank (map Z.of_nat (seq 0 n)) [] w = (Ok ranked, w')
      /\ generated w' = generated w ++ flat_map probesOf (map Z.of_nat (seq 0 n)).
Proof.
  intros Hprops. induction n as [|n IH]; intros Hn Hpass w.
  - exists [], w. simpl. rewrite app_nil_r. auto.
  - destruct (IH ltac:(lia) (fun i Hi => Hpass i ltac:(lia)) w) as (ranked & w1 & E & Hg).
    rewrite seq_S, map_app, foldM_app, E. cbn [map foldM Nat.add]. unfold bind.
    destruct (nth_error (devices drv) n) as [p|] eqn:Hp;
      [|apply nth_error_None in Hp; lia].
    destruct (Hpass n ltac:(lia)) as (out & Hout).
    unfold rankDevice. unfold bind at 1.
    rewrite (cudaGetDeviceProperties_run drv n p w1 (Hprops _) Hp).
    unfold bind at 1.
    pose proof (worldFree_optimizeBlockSize pre post dyn INDIVIDUAL SPARSE drv
                  (Z.of_nat n) model w1 emptyWorld) as Hfree.
    pose proof (optimizeBlockSize_returns pre post dyn INDIVIDUAL SPARSE drv
                  (Z.of_nat n) model w1) as Hret.
    rewrite Hout in Hfree.
    destruct (optimize (Z.of_nat n) model w1) as [[out'|e] w2]; simpl in Hfree;
      [|discriminate Hfree].
    destruct (Hret out' eq_refl) as (Hg2 & _). simpl in Hg2.
    eexists. exists w2. unfold ret. split; [reflexivity|].
    rewrite Hg2, Hg, flat_map_app. cbn [flat_map]. rewrite app_nil_r, <- app_assoc.
    reflexivity.
Qed.

(** X12: when the pass over a visible device throws and the passes over
    the devices before it return, the selection, and with it
    [createBackend] with automatic choice, throws the same error; the code
    generator has then run for the devices before, for the failing device,
    and for no later one. *)
Theorem X12_failing_pass_aborts_selection
        (localHostID : Z) (w : World) (j : nat) (e : Error) :
  cudaGetDeviceCount_status drv = 0 ->
  (forall d, cudaGetDeviceProperties_status drv d = 0) ->
  (j < List.length (devices drv))%nat ->
  (forall i, (i < j)%nat -> exists out, fst (optimize (Z.of_nat i) model emptyWorld) = Ok out) ->
  fst (optimize (Z.of_nat j) model emptyWorld) = Throw e ->
  fst (choose w) = Throw e
  /\ fst (createBackend pre post dyn INDIVIDUAL SPARSE drv model localHostID true w) = Throw e
  /\ exists l,
      generated (snd (choose w))
      = generated w ++ flat_map probesOf (map Z.of_nat (seq 0 j)) ++ l
      /\ Forall (fun x => fst x = Z.of_nat j) l.
Proof.
  intros Hcount Hprops Hj Hpass Hthrow.
  set (n := List.length (devices drv)) in *.
  assert (Hrun : exists w', choose w = (Throw e, w')
                            /\ exists l,
                                generated w'
                                = generated w ++ flat_map probesOf (map Z.of_nat (seq 0 j)) ++ l
                                /\ Forall (fun x => fst x = Z.of_nat j) l).
  { rewrite choose_run, Hcount. cbn [negb Z.eqb]. fold n.
    destruct (Z.eqb_spec (Z.of_nat n) 0) as [E|_]; [lia|].
    rewrite ordinals_of_nat.
    replace n with (j + S (n - j - 1))%nat by lia.
    rewrite seq_app, map_app, foldM_app.
    destruct (rankDevices_ok j Hprops ltac:(lia) Hpass w) as (ranked & w1 & E1 & Hg1).
    rewrite E1. cbn [seq map foldM Nat.add]. unfold bind at 1.
    destruct (nth_error (devices drv) j) as [p|] eqn:Hp;
      [|apply nth_error_None in Hp; lia].
    unfold rankDevice at 1. unfold bind at 1.
    rewrite (cudaGetDeviceProperties_run drv j p w1 (Hprops _) Hp).
    unfold bind at 1.
    pose proof (worldFree_optimizeBlockSize pre post dyn INDIVIDUAL SPARSE drv
                  (Z.of_nat j) model w1 emptyWorld) as Hfree.
    rewrite Hthrow in Hfree.
    destruct (optimizeBlockSize_generated_by (Z.of_nat j) w1) as (l & Hl & Hall).
    destruct (optimize (Z.of_nat j) model w1) as [[out'|e'] w2]; simpl in Hfree;
      [discriminate Hfree|].
    inversion Hfree; subst e'. simpl in Hl.
    exists w2. split; [reflexivity|].
    exists l. split; [|exact Hall]. rewrite Hl, Hg1, <- app_assoc. reflexivity. }
  destruct Hrun as (w' & E & Hl).
  split; [rewrite E; reflexivity|]. split.
  - unfold createBackend. unfold bind. rewrite E. reflexivity.
  - rewrite E. exact Hl.
Qed.

End Selection.

(** X10 at work: the three devices of the examples. *)
Lemma X10_selection_returns_a_probed_device_witness :
  let drv := goodDriver exDevices in
  let i := fst (exChosen drv smallModel) in
  let bs := snd (exChosen drv smallModel) in
  0 <= i < Z.of_nat (List.length (devices drv))
  /\ (forall j, 0 <= j < Z.of_nat (List.length (devices drv)) ->
                exists out, fst (exOptimizeBlockSize drv j smallModel emptyWorld) = Ok out)
  /\ exists out, fst (exOptimizeBlockSize drv i smallModel emptyWorld) = Ok out
                 /\ snd out = bs.
Proof.
  cbv zeta.
  apply (X10_selection_returns_a_probed_device
           threadsPerSource threadsPerSource threadsPerSource 64 4
           (goodDriver exDevices) smallModel emptyWorld).
  - evaluate.
  - unfold exChosen.
    match goal with
    | |- fst ?run = _ => destruct (fst run) as [[i bs]|e] eqn:E; [reflexivity|]
    end.
    exfalso. vm_compute in E. discriminate E.
Defined.

(** X11 at work: six runs of the code generator for three devices. *)
Lemma X11_selection_probes_every_device_witness :
  let drv := goodDriver exDevices in
  let run := exChooseOptimalDevice drv smallModel emptyWorld in
  generated (snd run)
  = generated emptyWorld ++ flat_map probesOf (ordinals (Z.of_nat (List.length (devices drv))))
  /\ liveContexts (snd run) = [].
Proof.
  cbv zeta.
  apply (X11_selection_probes_every_device
           threadsPerSource threadsPerSource threadsPerSource 64 4
           (goodDriver exDevices) smallModel emptyWorld
           (exChosen (goodDriver exDevices) smallModel)).
  - unfold exChosen.
    match goal with
    | |- fst ?run = _ => destruct (fst run) as [[i bs]|e] eqn:E; [reflexivity|]
    end.
    exfalso. vm_compute in E. discriminate E.
  - reflexivity.
Defined.

(** X12 at work: the compiler fails in the pass over the second of three
    devices. *)
Lemma X12_failing_pass_aborts_selection_witness :
  let drv := failingOnDriver 1 exDevices in
  fst (exChooseOptimalDevice drv smallModel emptyWorld) = Throw BuildFailure
  /\ fst (exCreateBackend drv smallModel 0 true emptyWorld) = Throw BuildFailure
  /\ exists l,
      generated (snd (exChooseOptimalDevice drv smallModel emptyWorld))
      = generated emptyWorld ++ flat_map probesOf (map Z.of_nat (seq 0 1)) ++ l
      /\ Forall (fun x => fst x = Z.of_nat 1) l.
Proof.
  cbv zeta.
  apply (X12_failing_pass_aborts_selection
           threadsPerSource threadsPerSource threadsPerSource 64 4
           (failingOnDriver 1 exDevices) smallModel 0 emptyWorld 1 BuildFailure).
  - reflexivity.
  - intros d. reflexivity.
  - simpl. lia.
  - intros i Hi. assert (i = 0%nat) as -> by lia.
    match goal with
    | |- exists out, fst ?run = _ => destruct (fst run) as [out|e] eqn:E
    end; [exists out; reflexivity|].
    exfalso. vm_compute in E. discriminate E.
  - vm_compute. reflexivity.
Defined.

(** X13: when the count of the devices fails or no device is visible,
    [createBackend] throws before it looks at any device, with or without
    automatic choice, and leaves the world as it was: the error of the
    runtime call when the count fails, the missing-device error
    otherwise. *)
Theorem X13_no_device_to_choose
        (pre post dyn : SynapseGroup -> Z) (INDIVIDUAL SPARSE : Z) (drv : Driver)
        (model : NNmodel) (localHostID : Z) (autoChooseDevice : bool) (w : World) :
  cudaGetDeviceCount_status drv <> 0 \/ devices drv = [] ->
  createBackend pre post dyn INDIVIDUAL SPARSE drv model localHostID autoChooseDevice w
  = (Throw (if cudaGetDeviceCount_status drv =? 0 then NoDeviceFound
            else CudaRuntimeError (cudaGetDeviceCount_status drv)), w).
Proof.
  intros H. unfold createBackend.
  destruct autoChooseDevice.
  - unfold bind. rewrite choose_run.
    destruct (Z.eqb_spec (cudaGetDeviceCount_status drv) 0) as [E|N]; cbn [negb];
      [|reflexivity].
    destruct H as [H|H]; [contradiction|]. rewrite H. reflexivity.
  - unfold bind at 1. unfold chooseDeviceWithMostGlobalMemory, cudaGetDeviceCount, bind.
    rewrite CHECK_CUDA_ERRORS_run.
    destruct (Z.eqb_spec (cudaGetDeviceCount_status drv) 0) as [E|N]; [|reflexivity].
    destruct H as [H|H]; [contradiction|]. rewrite H. reflexivity.
Qed.

(** X13 at work: no visible device, without automatic choice. *)
Lemma X13_no_device_to_choose_witness :
  exCreateBackend (goodDriver []) smallModel 0 false emptyWorld
  = (Throw (if cudaGetDeviceCount_status (goodDriver []) =? 0 then NoDeviceFound
            else CudaRuntimeError (cudaGetDeviceCount_status (goodDriver []))), emptyWorld).
Proof.
  apply (X13_no_device_to_choose
           threadsPerSource threadsPerSource threadsPerSource 64 4
           (goodDriver []) smallModel 0 false emptyWorld).
  right. reflexivity.
Defined.

Lemma chooseDeviceWithMostGlobalMemory_run (drv : Driver) (w : World) :
  cudaGetDeviceCount_status drv = 0 ->
  (forall d, cudaGetDeviceProperties_status drv d = 0) ->
  exists best,
    mostMemoryInv (devices drv) best
    /\ chooseDeviceWithMostGlobalMemory drv w
       = if Z.of_nat (List.length (devices drv)) =? 0 then (Throw NoDeviceFound, w)
         else (Ok (snd best), w).
Proof.
  intros Hcount Hprops.
  assert (Hinit : mostMemoryInv [] (0, -1)).
  { unfold mostMemoryInv. simpl. split; [lia|]. split.
    - intros [|j] q Hq; discriminate Hq.
    - left. split; reflexivity. }
  destruct (mostMemory_scan drv Hprops (devices drv) [] (0, -1) w eq_refl Hinit)
    as (best & Escan & Hinv).
  simpl in Escan, Hinv.
  exists best. split; [exact Hinv|].
  unfold chooseDeviceWithMostGlobalMemory, bind.
  rewrite (cudaGetDeviceCount_run drv w Hcount).
  destruct (Z.of_nat (List.length (devices drv)) =? 0); [reflexivity|].
  unfold ret at 1. rewrite ordinals_of_nat, Escan. reflexivity.
Qed.

(** X14: without automatic choice, when the runtime calls succeed and no
    visible device reports any global memory, [createBackend] returns no
    backend: it throws. *)
Theorem X14_no_backend_without_memory
        (pre post dyn : SynapseGroup -> Z) (INDIVIDUAL SPARSE : Z) (drv : Driver)
        (model : NNmodel) (localHostID : Z) (w : World) :
  cudaGetDeviceCount_status drv = 0 ->
  (forall d, cudaGetDeviceProperties_status drv d = 0) ->
  Forall (fun p => totalGlobalMem p <= 0) (devices drv) ->
  exists e,
    fst (createBackend pre post dyn INDIVIDUAL SPARSE drv model localHostID false w)
    = Throw e.
Proof.
  intros Hcount Hprops Hmem.
  destruct (chooseDeviceWithMostGlobalMemory_run drv w Hcount Hprops)
    as (best & (H0 & Hmax & Hbest) & Erun).
  unfold createBackend. unfold bind at 1. rewrite Erun.
  destruct (Z.of_nat (List.length (devices drv)) =? 0); [eexists; reflexivity|].
  assert (Eb : snd best = -1).
  { destruct Hbest as [[E _]|(i & p & _ & Hp & Hm & Hpos & _)]; [exact E|].
    exfalso. rewrite Forall_forall in Hmem.
    specialize (Hmem p (nth_error_In _ _ Hp)). cbv beta in Hmem. lia. }
  rewrite Eb. unfold bind.
  destruct (optimizeBlockSize pre post dyn INDIVIDUAL SPARSE drv (-1) model w)
    as [[out|e] w'] eqn:E.
  - exfalso.
    destruct (optimizeBlockSize_inversion pre post dyn INDIVIDUAL SPARSE drv (-1) model w out)
      as (props & p & Hd & _); [rewrite E; reflexivity | lia].
  - exists e. reflexivity.
Qed.

(** X14 at work: one visible device, which reports no global memory. *)
Lemma X14_no_backend_without_memory_witness :
  exists e,
    fst (exCreateBackend (goodDriver [deviceNoMemory]) smallModel 0 false emptyWorld)
    = Throw e.
Proof.
  apply (X14_no_backend_without_memory
           threadsPerSource threadsPerSource threadsPerSource 64 4
           (goodDriver [deviceNoMemory]) smallModel 0 emptyWorld).
  - reflexivity.
  - intros d. reflexivity.
  - repeat constructor. simpl. lia.
Defined.

(* ================================================================== *)
(** * The state variables of a model property *)
(* ================================================================== *)

Lemma firstn_repeat_le {X : Type} (x : X) (n m : nat) :
  (n <= m)%nat -> firstn n (repeat x m) = repeat x n.
Proof.
  revert m. induction n as [|n IH]; intros m H; [reflexivity|].
  destruct m as [|m]; [lia|]. simpl. rewrite IH by lia. reflexivity.
Qed.

Lemma firstn_prefix {X : Type} (n : nat) (l1 l2 : list X) :
  (n <= List.length l1)%nat -> firstn n (l1 ++ l2) = firstn n l1.
Proof.
  intros H. rewrite firstn_app.
  replace (n - List.length l1)%nat with 0%nat by lia.
  simpl. apply app_nil_r.
Qed.

Lemma cudaMemcpy_ok {scalar : Type} (call : Memcpy scalar) (dst src : list scalar)
      (count : nat) :
  memcpyStatus call = CUDA_SUCCESS ->
  (count <= List.length src)%nat -> (count <= List.length dst)%nat ->
  cudaMemcpy call dst src count = Some (CUDA_SUCCESS, firstn count src ++ skipn count dst).
Proof.
  intros Hs H1 H2. unfold cudaMemcpy.
  rewrite (proj2 (Nat.leb_le _ _) H1), (proj2 (Nat.leb_le _ _) H2), Hs. reflexivity.
Qed.

(** X15: when both copies succeed and neither array is shorter than
    [m_Size], [pushToDevice] followed by [pullFromDevice] leaves the host
    array as it was, and the device array holds the first [m_Size] elements
    of the host array followed by its own elements from [m_Size] on. *)
Theorem X15_push_then_pull
        {scalar : Type} (push pull : Memcpy scalar) (m_Size : Z) (vars : StateVars scalar) :
  memcpyStatus push = CUDA_SUCCESS ->
  memcpyStatus pull = CUDA_SUCCESS ->
  (Z.to_nat m_Size <= List.length (hostStateVar vars))%nat ->
  (Z.to_nat m_Size <= List.length (deviceStateVar vars))%nat ->
  let pushed := pushToDevice false push m_Size vars in
  let pulled := pullFromDevice false pull m_Size (snd pushed) in
  fst pushed = Ok tt
  /\ fst pulled = Ok tt
  /\ hostStateVar (snd pulled) = hostStateVar vars
  /\ deviceStateVar (snd pulled)
     = firstn (Z.to_nat m_Size) (hostStateVar vars)
       ++ skipn (Z.to_nat m_Size) (deviceStateVar vars).
Proof.
  intros Hpush Hpull Hh Hd. cbv zeta.
  set (n := Z.to_nat m_Size) in *.
  assert (Epush : pushToDevice false push m_Size vars
                  = (Ok tt, {| hostStateVar := hostStateVar vars;
                               deviceStateVar := firstn n (hostStateVar vars)
                                                   ++ skipn n (deviceStateVar vars) |})).
  { unfold pushToDevice. fold n. rewrite (cudaMemcpy_ok push _ _ n Hpush Hh Hd).
    reflexivity. }
  rewrite Epush. cbn [fst snd].
  unfold pullFromDevice. fold n. cbn [hostStateVar deviceStateVar].
  rewrite (cudaMemcpy_ok pull _ _ n Hpull).
  - cbn [fst snd hostStateVar deviceStateVar].
    change (CUDA_SUCCESS =? CUDA_SUCCESS) with true. cbn [fst snd hostStateVar deviceStateVar].
    split; [reflexivity|]. split; [reflexivity|]. split; [|reflexivity].
    rewrite firstn_prefix by (rewrite length_firstn; lia).
    rewrite firstn_firstn, Nat.min_id. apply firstn_skipn.
  - rewrite length_app, length_firstn. lia.
  - exact Hh.
Qed.

(** X15 at work: two of three elements are copied. *)
Lemma X15_push_then_pull_witness :
  let vars := {| hostStateVar := [1; 2; 3]; deviceStateVar := [7; 8; 9; 10] |} in
  let pushed := pushToDevice false goodMemcpy 2 vars in
  let pulled := pullFromDevice false goodMemcpy 2 (snd pushed) in
  fst pushed = Ok tt
  /\ fst pulled = Ok tt
  /\ hostStateVar (snd pulled) = hostStateVar vars
  /\ deviceStateVar (snd pulled)
     = firstn (Z.to_nat 2) (hostStateVar vars) ++ skipn (Z.to_nat 2) (deviceStateVar vars).
Proof.
  cbv zeta.
  apply (X15_push_then_pull
           goodMemcpy goodMemcpy 2
           {| hostStateVar := [1; 2; 3]; deviceStateVar := [7; 8; 9; 10] |}).
  - reflexivity.
  - reflexivity.
  - simpl. lia.
  - simpl. lia.
Defined.

(** X16: [Fixed::setValue] on arrays that hold the range it fills and the
    [m_Size] elements it copies, the range covering those elements.  The
    value is cached and the range of the host array holds it, whatever the
    copy does; without [CPU_ONLY], when the copy succeeds the call returns
    and the first [m_Size] elements of the device array hold the value, the
    others being kept, and when the copy fails the call throws the error of
    the runtime; with [CPU_ONLY] the call returns and the device array is
    as it was. *)
Theorem X16_setValue_fills_and_pushes
        {scalar : Type} (CPU_ONLY : bool) (call : Memcpy scalar) (hostCount : nat)
        (m_Size : Z) (value : scalar) (state : scalar * StateVars scalar) :
  (hostCount <= List.length (hostStateVar (snd state)))%nat ->
  (Z.to_nat m_Size <= hostCount)%nat ->
  (Z.to_nat m_Size <= List.length (deviceStateVar (snd state)))%nat ->
  let r := Fixed_setValue CPU_ONLY call hostCount m_Size value state in
  fst (snd r) = value
  /\ hostStateVar (snd (snd r))
     = repeat value hostCount ++ skipn hostCount (hostStateVar (snd state))
  /\ (CPU_ONLY = false -> memcpyStatus call = CUDA_SUCCESS ->
      fst r = Ok tt
      /\ deviceStateVar (snd (snd r))
         = repeat value (Z.to_nat m_Size)
           ++ skipn (Z.to_nat m_Size) (deviceStateVar (snd state)))
  /\ (CPU_ONLY = false -> memcpyStatus call <> CUDA_SUCCESS ->
      fst r = Throw (CudaRuntimeError (memcpyStatus call)))
  /\ (CPU_ONLY = true ->
      fst r = Ok tt /\ deviceStateVar (snd (snd r)) = deviceStateVar (snd state)).
Proof.
  intros Hh Hn Hd. cbv zeta.
  set (n := Z.to_nat m_Size) in *.
  unfold Fixed_setValue, fillHostStateVar.
  rewrite (proj2 (Nat.leb_le _ _) Hh).
  unfold pushToDevice. fold n. cbn [hostStateVar deviceStateVar].
  destruct CPU_ONLY.
  - cbn [fst snd hostStateVar deviceStateVar].
    split; [reflexivity|]. split; [reflexivity|].
    split; [discriminate|]. split; [discriminate|]. auto.
  - unfold cudaMemcpy.
    assert (Hlen : (n <= List.length (repeat value hostCount
                                        ++ skipn hostCount (hostStateVar (snd state))))%nat).
    { rewrite length_app, repeat_length. lia. }
    rewrite (proj2 (Nat.leb_le _ _) Hlen), (proj2 (Nat.leb_le _ _) Hd). cbn [andb].
    destruct (Z.eqb_spec (memcpyStatus call) CUDA_SUCCESS) as [E|N].
    + rewrite E. change (CUDA_SUCCESS =? CUDA_SUCCESS) with true.
      cbn [fst snd hostStateVar deviceStateVar].
      split; [reflexivity|]. split; [reflexivity|]. split.
      * intros _ _. split; [reflexivity|].
        rewrite firstn_prefix by (rewrite repeat_length; lia).
        rewrite firstn_repeat_le by lia. reflexivity.
      * split; [intros _ H; contradiction | discriminate].
    + destruct (Z.eqb_spec (memcpyStatus call) CUDA_SUCCESS) as [E|_]; [contradiction|].
      cbn [fst snd hostStateVar deviceStateVar].
      split; [reflexivity|]. split; [reflexivity|]. split.
      * intros _ H. contradiction.
      * split; [intros _ _; reflexivity | discriminate].
Qed.

(** X16 at work: a copy that fails with the status 30; the value is cached
    and the host array filled all the same. *)
Lemma X16_setValue_fills_and_pushes_witness :
  let state := (0, {| hostStateVar := [1; 2; 3]; deviceStateVar := [7; 8; 9; 10] |}) in
  let r := Fixed_setValue false badMemcpy 3 3 5 state in
  fst (snd r) = 5
  /\ hostStateVar (snd (snd r)) = repeat 5 3 ++ skipn 3 (hostStateVar (snd state))
  /\ (false = false -> memcpyStatus (@badMemcpy Z) = CUDA_SUCCESS ->
      fst r = Ok tt
      /\ deviceStateVar (snd (snd r))
         = repeat 5 (Z.to_nat 3) ++ skipn (Z.to_nat 3) (deviceStateVar (snd state)))
  /\ (false = false -> memcpyStatus (@badMemcpy Z) <> CUDA_SUCCESS ->
      fst r = Throw (CudaRuntimeError (memcpyStatus (@badMemcpy Z))))
  /\ (false = true ->
      fst r = Ok tt /\ deviceStateVar (snd (snd r)) = deviceStateVar (snd state)).
Proof.
  cbv zeta.
  apply (X16_setValue_fills_and_pushes
           false badMemcpy 3 3 5
           (0, {| hostStateVar := [1; 2; 3]; deviceStateVar := [7; 8; 9; 10] |})).
  - simpl. lia.
  - simpl. lia.
  - simpl. lia.
Defined.
